(** * Sit-to-rise test scoring pipeline: a shallow embedding

    The definitions below follow [src/services/tensorflowService.js]
    (pose geometry, phase segmentation, support penalties, score
    aggregation, orchestration), the frame sampler and the frame rate of
    the video service, the controller with the result schema, the upload
    validation, and the earlier scoring modules.

    Numbers.  A JavaScript number is modelled by [num]: an exact real,
    one of the two infinities, or NaN.  Two things are abstracted: the
    rounding of IEEE-754 doubles (arithmetic is exact) and the sign of
    zero (there is one zero, behaving like +0).  [undefined] used as a
    number is NaN, as [ToNumber] makes it. *)

From Stdlib Require Import Reals Lra Lia List String ZArith Bool Arith.
Import ListNotations.

Local Open Scope R_scope.

(** ** JavaScript numbers *)

Module JS.

Inductive num : Type :=
| NaN
| NInf
| PInf
| Fin (r : R).

Definition Rltb (a b : R) : bool := if Rlt_dec a b then true else false.
Definition Rleb (a b : R) : bool := if Rle_dec a b then true else false.
Definition Reqb (a b : R) : bool := if Req_dec_T a b then true else false.

Definition isNaN (a : num) : bool :=
  match a with NaN => true | _ => false end.

Definition neg (a : num) : num :=
  match a with
  | NaN => NaN
  | NInf => PInf
  | PInf => NInf
  | Fin r => Fin (- r)
  end.

Definition add (a b : num) : num :=
  match a, b with
  | NaN, _ | _, NaN => NaN
  | PInf, NInf | NInf, PInf => NaN
  | PInf, _ | _, PInf => PInf
  | NInf, _ | _, NInf => NInf
  | Fin x, Fin y => Fin (x + y)
  end.

Definition sub (a b : num) : num := add a (neg b).

(** The infinity with the sign of [r], NaN for zero: [Infinity * r]. *)
Definition inf_times (r : R) : num :=
  if Rltb 0 r then PInf else if Rltb r 0 then NInf else NaN.

Definition mul (a b : num) : num :=
  match a, b with
  | NaN, _ | _, NaN => NaN
  | PInf, PInf | NInf, NInf => PInf
  | PInf, NInf | NInf, PInf => NInf
  | PInf, Fin r | Fin r, PInf => inf_times r
  | NInf, Fin r | Fin r, NInf => neg (inf_times r)
  | Fin x, Fin y => Fin (x * y)
  end.

Definition div (a b : num) : num :=
  match a, b with
  | NaN, _ | _, NaN => NaN
  | Fin _, (PInf | NInf) => Fin 0
  | (PInf | NInf), (PInf | NInf) => NaN
  | PInf, Fin r => if Rltb r 0 then NInf else PInf
  | NInf, Fin r => if Rltb r 0 then PInf else NInf
  | Fin x, Fin y => if Reqb y 0 then inf_times x else Fin (x / y)
  end.

Definition abs (a : num) : num :=
  match a with
  | NaN => NaN
  | NInf | PInf => PInf
  | Fin r => Fin (Rabs r)
  end.

(** [Math.sqrt]. *)
Definition sqrt (a : num) : num :=
  match a with
  | NaN | NInf => NaN
  | PInf => PInf
  | Fin r => if Rltb r 0 then NaN else Fin (R_sqrt.sqrt r)
  end.

(** [Math.pow(a, 2)]. *)
Definition pow2 (a : num) : num := mul a a.

(** [a < b]; every comparison with NaN is false. *)
Definition lt (a b : num) : bool :=
  match a, b with
  | NaN, _ | _, NaN => false
  | _, NInf => false
  | NInf, _ => true
  | PInf, _ => false
  | Fin _, PInf => true
  | Fin x, Fin y => Rltb x y
  end.

Definition le (a b : num) : bool :=
  match a, b with
  | NaN, _ | _, NaN => false
  | NInf, _ => true
  | _, PInf => true
  | _, NInf => false
  | PInf, _ => false
  | Fin x, Fin y => Rleb x y
  end.

Definition gt (a b : num) : bool := lt b a.
Definition ge (a b : num) : bool := le b a.

(** [Math.max(a, b)] and [Math.min(a, b)]: NaN when either is NaN. *)
Definition max (a b : num) : num :=
  match a, b with
  | NaN, _ | _, NaN => NaN
  | _, _ => if lt a b then b else a
  end.

Definition min (a b : num) : num :=
  match a, b with
  | NaN, _ | _, NaN => NaN
  | _, _ => if lt b a then b else a
  end.

(** [Math.atan2(y, x)] on finite arguments. *)
Definition Ratan2 (y x : R) : R :=
  if Rltb 0 x then atan (y / x)
  else if Rltb x 0 then
    (if Rleb 0 y then atan (y / x) + PI else atan (y / x) - PI)
  else if Rltb 0 y then PI / 2
  else if Rltb y 0 then - (PI / 2)
  else 0.

(** [Math.atan2(y, x)], with the table of the language standard for
    infinite arguments. *)
Definition atan2 (y x : num) : num :=
  match y, x with
  | NaN, _ | _, NaN => NaN
  | PInf, PInf => Fin (PI / 4)
  | PInf, NInf => Fin (3 * PI / 4)
  | PInf, Fin _ => Fin (PI / 2)
  | NInf, PInf => Fin (- (PI / 4))
  | NInf, NInf => Fin (- (3 * PI / 4))
  | NInf, Fin _ => Fin (- (PI / 2))
  | Fin _, PInf => Fin 0
  | Fin r, NInf => if Rltb r 0 then Fin (- PI) else Fin PI
  | Fin b, Fin a => Fin (Ratan2 b a)
  end.

(** [Number(a.toFixed(2))]: round to two decimals, half away from zero;
    values of magnitude 1e21 and above, the infinities and NaN print and
    parse back unchanged. *)
Definition round2 (r : R) : R := IZR (Zfloor (r * 100 + / 2)) / 100.

Definition toFixed2 (a : num) : num :=
  match a with
  | Fin r =>
      if Rleb (10 ^ 21) (Rabs r) then Fin r
      else if Rltb r 0 then Fin (- round2 (- r))
      else Fin (round2 r)
  | _ => a
  end.

(** A finite value inside the closed interval [lo, hi]. *)
Definition within (lo hi : R) (a : num) : Prop :=
  exists r, a = Fin r /\ lo <= r <= hi.

Definition finite (a : num) : Prop := exists r, a = Fin r.

End JS.

Import JS.

Declare Scope js_scope.
Delimit Scope js_scope with js.
Notation "a +' b" := (JS.add a b) (at level 50, left associativity) : js_scope.
Notation "a -' b" := (JS.sub a b) (at level 50, left associativity) : js_scope.
Notation "a *' b" := (JS.mul a b) (at level 40, left associativity) : js_scope.
Notation "a /' b" := (JS.div a b) (at level 40, left associativity) : js_scope.
Notation "a >' b" := (JS.gt a b) (at level 70, no associativity) : js_scope.
Notation "a <' b" := (JS.lt a b) (at level 70, no associativity) : js_scope.
Notation "a <=' b" := (JS.le a b) (at level 70, no associativity) : js_scope.
Notation "a >=' b" := (JS.ge a b) (at level 70, no associativity) : js_scope.

Local Open Scope js_scope.
Local Open Scope string_scope.

(** ** Configuration constants *)

Definition KEYPOINT_CONFIDENCE_THRESHOLD : num := Fin (3 / 10).
Definition MAX_SCORE : num := Fin 5.
Definition SUPPORT_PENALTIES_HAND : num := Fin 1.
Definition SUPPORT_PENALTIES_KNEE : num := Fin (1 / 2).
Definition MIN_PHASE_SCORE : num := Fin (3 / 2).
Definition PENALTY_FACTOR : num := Fin (6 / 10).
Definition DEFAULT_HIP_DRIVE : num := Fin (3 / 10).

(** ** Data model *)

Record Keypoint : Type := mkKeypoint {
  kp_name : string;
  kp_x : num;
  kp_y : num;
  kp_score : num
}.

Record Pose : Type := mkPose {
  keypoints : list Keypoint;
  width : num;
  height : num
}.

(** [pose.keypoints.find((kp) => kp.name === name)]; [None] is
    [undefined]. *)
Definition findKeypoint (name : string) (pose : Pose) : option Keypoint :=
  find (fun kp => String.eqb (kp_name kp) name) (keypoints pose).

(** [point?.score > KEYPOINT_CONFIDENCE_THRESHOLD]. *)
Definition confident (point : option Keypoint) : bool :=
  match point with
  | Some kp => kp_score kp >' KEYPOINT_CONFIDENCE_THRESHOLD
  | None => false
  end.

(** ** Utilities *)

(** [arr.reduce((a, b) => a + b, 0) / arr.length] *)
Definition average (arr : list num) : num :=
  fold_left JS.add arr (Fin 0) /' Fin (INR (List.length arr)).

(** [isValidScore] and [safeScore], lines 30-36. *)
Definition isValidScore (score : num) : bool :=
  negb (isNaN score) && (score >=' Fin 0) && (score <=' Fin 1).

Definition safeScore (score defaultValue : num) : num :=
  if isValidScore score then score else defaultValue.

(** ** Geometry *)

(** [validatePoints], lines 38-54: the three points exist, no coordinate
    is NaN, and the rays p1-p2 and p2-p3 are at least one pixel long. *)
Definition validatePoints (p1 p2 p3 : option Keypoint) : bool :=
  match p1, p2, p3 with
  | Some p1, Some p2, Some p3 =>
      if isNaN (kp_x p1) || isNaN (kp_y p1) || isNaN (kp_x p2)
         || isNaN (kp_y p2) || isNaN (kp_x p3) || isNaN (kp_y p3)
      then false
      else
        let d1 := JS.sqrt (pow2 (kp_x p2 -' kp_x p1) +' pow2 (kp_y p2 -' kp_y p1)) in
        let d2 := JS.sqrt (pow2 (kp_x p3 -' kp_x p2) +' pow2 (kp_y p3 -' kp_y p2)) in
        if (d1 <' Fin 1) || (d2 <' Fin 1) then false else true
  | _, _, _ => false
  end.

(** [calculateAngle], lines 57-64. *)
Definition calculateAngle (p1 p2 p3 : option Keypoint) : num :=
  if negb (validatePoints p1 p2 p3) then Fin 0
  else
    match p1, p2, p3 with
    | Some p1, Some p2, Some p3 =>
        let radians :=
          atan2 (kp_y p3 -' kp_y p2) (kp_x p3 -' kp_x p2)
          -' atan2 (kp_y p1 -' kp_y p2) (kp_x p1 -' kp_x p2) in
        let angle := JS.abs (radians *' Fin 180 /' Fin PI) in
        JS.min (Fin 360) (JS.max (Fin 0) angle)
    | _, _, _ => Fin 0
    end.

(** ** Per-frame metrics *)

Record Metric : Type := mkMetric {
  angle : num;
  score : num
}.

Record StabilityMetric : Type := mkStability {
  deviation : num;
  stability_score : num
}.

(** An object reference is truthy; [undefined] is not. *)
Definition truthy {A : Type} (o : option A) : bool :=
  match o with Some _ => true | None => false end.

(** [analyzeSpinalAlignment], lines 184-197. *)
Definition analyzeSpinalAlignment (pose : Pose) : Metric :=
  let shoulder := findKeypoint "right_shoulder" pose in
  let hip := findKeypoint "right_hip" pose in
  let knee := findKeypoint "right_knee" pose in
  if truthy shoulder && truthy hip && truthy knee then
    let angle := calculateAngle shoulder hip knee in
    {| angle := angle; score := JS.abs (Fin 180 -' angle) /' Fin 180 |}
  else {| angle := Fin 0; score := Fin 0 |}.

(** [analyzeKneeFlexion], lines 200-213. *)
Definition analyzeKneeFlexion (pose : Pose) : Metric :=
  let hip := findKeypoint "right_hip" pose in
  let knee := findKeypoint "right_knee" pose in
  let ankle := findKeypoint "right_ankle" pose in
  if truthy hip && truthy knee && truthy ankle then
    let angle := calculateAngle hip knee ankle in
    {| angle := angle;
       score := if angle >' Fin 90 then Fin 1 else angle /' Fin 90 |}
  else {| angle := Fin 0; score := Fin 0 |}.

(** [analyzeKneeExtension], lines 216-229. *)
Definition analyzeKneeExtension (pose : Pose) : Metric :=
  let hip := findKeypoint "right_hip" pose in
  let knee := findKeypoint "right_knee" pose in
  let ankle := findKeypoint "right_ankle" pose in
  if truthy hip && truthy knee && truthy ankle then
    let angle := calculateAngle hip knee ankle in
    {| angle := angle;
       score := if angle >' Fin 160 then Fin 1 else angle /' Fin 160 |}
  else {| angle := Fin 0; score := Fin 0 |}.

(** [analyzeHipControl], lines 232-251. *)
Definition analyzeHipControl (pose : Pose) : Metric :=
  let shoulder := findKeypoint "right_shoulder" pose in
  let hip := findKeypoint "right_hip" pose in
  let knee := findKeypoint "right_knee" pose in
  if confident shoulder && confident hip && confident knee then
    let angle := calculateAngle shoulder hip knee in
    let score :=
      JS.max (Fin 0)
        (JS.min (Fin 1)
           (if angle <' Fin 30 then Fin 1 else (Fin 90 -' angle) /' Fin 60)) in
    {| angle := angle; score := score |}
  else {| angle := Fin 0; score := Fin 0 |}.

(** The coordinates read from a keypoint that passed the confidence test. *)
Definition X (p : option Keypoint) : num :=
  match p with Some kp => kp_x kp | None => NaN end.
Definition Y (p : option Keypoint) : num :=
  match p with Some kp => kp_y kp | None => NaN end.

(** [analyzeHipDrive], lines 254-295. *)
Definition analyzeHipDrive (pose : Pose) : Metric :=
  let shoulder := findKeypoint "right_shoulder" pose in
  let hip := findKeypoint "right_hip" pose in
  let knee := findKeypoint "right_knee" pose in
  let ankle := findKeypoint "right_ankle" pose in
  if negb (forallb confident [shoulder; hip; knee; ankle]) then
    {| angle := Fin 0; score := DEFAULT_HIP_DRIVE |}
  else
    let totalHeight := Y shoulder -' Y ankle in
    if totalHeight <=' Fin 0 then
      {| angle := Fin 0; score := DEFAULT_HIP_DRIVE |}
    else
      let hipProgress :=
        JS.max (Fin 0)
          (JS.min (Fin 1) ((Y ankle -' Y hip) /' (Y ankle -' Y shoulder))) in
      let verticalAlignment := JS.abs (X hip -' X ankle) /' width pose in
      let trunkAngle := calculateAngle shoulder hip knee in
      let angleScore :=
        JS.max (Fin 0) (JS.min (Fin 1) (trunkAngle /' Fin 180)) in
      let score :=
        safeScore
          (hipProgress *' Fin (5 / 10) +' angleScore *' Fin (3 / 10)
           +' (Fin 1 -' verticalAlignment) *' Fin (2 / 10))
          DEFAULT_HIP_DRIVE in
      {| angle := trunkAngle; score := score |}.

(** [analyzeStability], lines 298-312. *)
Definition analyzeStability (pose : Pose) : StabilityMetric :=
  let ankle := findKeypoint "right_ankle" pose in
  let hip := findKeypoint "right_hip" pose in
  let shoulder := findKeypoint "right_shoulder" pose in
  match ankle, hip, shoulder with
  | Some ankle, Some hip, Some shoulder =>
      let verticalDeviation :=
        JS.abs (kp_x shoulder -' kp_x hip) +' JS.abs (kp_x hip -' kp_x ankle) in
      {| deviation := verticalDeviation;
         stability_score :=
           JS.max (Fin 0) (Fin 1 -' verticalDeviation /' Fin 100) |}
  | _, _, _ => {| deviation := Fin 0; stability_score := Fin 0 |}
  end.

(** Per-frame records of the two phases. *)
Module Frame.

Record Sitting : Type := mkSitting {
  kneeFlexion : Metric;
  hipControl : Metric;
  spinalAlignment : Metric
}.

Record Rising : Type := mkRising {
  kneeExtension : Metric;
  hipDrive : Metric;
  stability : StabilityMetric
}.

End Frame.

(** ** Exceptions

    A [throw] is a left injection; [TypeError] is what reading a property
    of [undefined] raises. *)

Inductive exn : Type :=
| TypeError
| Error (message : string).

Definition result (A : Type) : Type := (exn + A)%type.

Definition ret {A : Type} (a : A) : result A := inr a.
Definition throw {A : Type} (e : exn) : result A := inl e.
Definition bind {A B : Type} (m : result A) (k : A -> result B) : result B :=
  match m with
  | inl e => inl e
  | inr a => k a
  end.

Notation "x <- m ;; k" := (bind m (fun x => k))
  (at level 61, m at next level, right associativity).

(** [arr.map(f)] for an [f] that may throw: the first exception ends the
    traversal. *)
Fixpoint mapE {A B : Type} (f : A -> result B) (l : list A) : result (list B) :=
  match l with
  | [] => ret []
  | a :: l' => b <- f a ;; bs <- mapE f l' ;; ret (b :: bs)
  end.

(** A detection is a pose or [undefined]; [pose.keypoints] on
    [undefined] throws. *)
Definition deref (pose : option Pose) : result Pose :=
  match pose with
  | Some p => ret p
  | None => throw TypeError
  end.

(** [analyzeSittingPhase] and [analyzeRisingPhase], lines 315-330. *)
Definition analyzeSittingPhase (poses : list (option Pose))
  : result (list Frame.Sitting) :=
  mapE (fun pose =>
          p <- deref pose ;;
          ret {| Frame.kneeFlexion := analyzeKneeFlexion p;
                 Frame.hipControl := analyzeHipControl p;
                 Frame.spinalAlignment := analyzeSpinalAlignment p |}) poses.

Definition analyzeRisingPhase (poses : list (option Pose))
  : result (list Frame.Rising) :=
  mapE (fun pose =>
          p <- deref pose ;;
          ret {| Frame.kneeExtension := analyzeKneeExtension p;
                 Frame.hipDrive := analyzeHipDrive p;
                 Frame.stability := analyzeStability p |}) poses.

(** ** Array slicing

    [arr.slice(start, end)] with the standard's treatment of negative
    and out-of-range indices; the caller truncates a fractional index
    first. *)

Definition relativeIndex (len k : Z) : Z :=
  if (k <? 0)%Z then Z.max (len + k) 0 else Z.min k len.

Definition slice {A : Type} (arr : list A) (start stop : Z) : list A :=
  let len := Z.of_nat (List.length arr) in
  let from := relativeIndex len start in
  let to := relativeIndex len stop in
  firstn (Z.to_nat (to - from)) (skipn (Z.to_nat from) arr).

Definition sliceFrom {A : Type} (arr : list A) (start : Z) : list A :=
  slice arr start (Z.of_nat (List.length arr)).

(** ** Frame sampler (video service) *)

Definition MAX_FRAMES : nat := 40.
Definition MIN_FRAMES : nat := 20.

Section Sampler.

Context {A : Type}.
(** What an out-of-range read [frames[i]] yields. *)
Variable undefinedFrame : A.

(** [Math.ceil(a / b)] on naturals, [b] positive. *)
Definition ceilDiv (a b : nat) : nat := (a + b - 1) / b.

(** The loop [for (i = step; i < frames.length - step; i += step)],
    from the current [i]; [fuel] bounds the number of iterations. *)
Fixpoint sampleLoop (fuel : nat) (frames : list A) (step i : nat) : list A :=
  match fuel with
  | O => []
  | S fuel' =>
      if (Z.of_nat i <? Z.of_nat (List.length frames) - Z.of_nat step)%Z
      then nth i frames undefinedFrame :: sampleLoop fuel' frames step (i + step)
      else []
  end.

(** [sampleFrames] of the video service. *)
Definition sampleFrames (frames : list A) : list A :=
  if (List.length frames <=? MAX_FRAMES)%nat then frames
  else
    let step := ceilDiv (List.length frames) MAX_FRAMES in
    [nth 0 frames undefinedFrame]
      ++ sampleLoop (List.length frames) frames step step
      ++ [nth (List.length frames - 1) frames undefinedFrame].

End Sampler.

(** ** Phase segmentation *)

(** [poses[i].keypoints.find((kp) => kp.name === "right_hip")]: an
    index outside the array, or an [undefined] entry, throws. *)
Definition hipAt (poses : list (option Pose)) (i : nat) : result (option Keypoint) :=
  match nth_error poses i with
  | Some pose => p <- deref pose ;; ret (findKeypoint "right_hip" p)
  | None => throw TypeError
  end.

Record ScanState : Type := mkScan {
  transitionFrame : nat;
  maxHipMovement : num;
  maxHipY : num;
  lowestHipFrame : nat
}.

(** One iteration of the scan, at index [i]. *)
Definition scanStep (poses : list (option Pose)) (st : ScanState) (i : nat)
  : result ScanState :=
  prevHip <- hipAt poses (i - 1) ;;
  currentHip <- hipAt poses i ;;
  nextHip <- hipAt poses (i + 1) ;;
  if confident prevHip && confident currentHip && confident nextHip then
    let movement := JS.abs (Y nextHip -' Y prevHip) in
    let st1 :=
      if movement >' maxHipMovement st
      then {| transitionFrame := i; maxHipMovement := movement;
              maxHipY := maxHipY st; lowestHipFrame := lowestHipFrame st |}
      else st in
    let st2 :=
      if Y currentHip >' maxHipY st1
      then {| transitionFrame := transitionFrame st1;
              maxHipMovement := maxHipMovement st1;
              maxHipY := Y currentHip; lowestHipFrame := i |}
      else st1 in
    ret st2
  else ret st.

Fixpoint scanLoop (poses : list (option Pose)) (st : ScanState)
  (indices : list nat) : result ScanState :=
  match indices with
  | [] => ret st
  | i :: rest => st' <- scanStep poses st i ;; scanLoop poses st' rest
  end.

(** The state after [for (let i = 1; i < poses.length - 1; i++)]. *)
Definition scanHips (poses : list (option Pose)) : result ScanState :=
  scanLoop poses
    {| transitionFrame := List.length poses / 2;
       maxHipMovement := Fin 0;
       maxHipY := NInf;
       lowestHipFrame := 0 |}
    (seq 1 (List.length poses - 2)).

(** [Math.abs(a - b)] on indices. *)
Definition indexDistance (a b : nat) : nat := (a - b) + (b - a).

(** [detectPhaseTransition], lines 123-161. *)
Definition detectPhaseTransition (poses : list (option Pose)) : result nat :=
  st <- scanHips poses ;;
  ret (if (indexDistance (lowestHipFrame st) (transitionFrame st) <? 5)%nat
       then lowestHipFrame st
       else transitionFrame st).

Definition minFramesPerPhase : nat := 10.

(** The two slices handed to the phase analyses. *)
Definition sittingSlice {A : Type} (poseAnalyses : list A) (transition : nat) : list A :=
  slice poseAnalyses 0 (Z.of_nat (Nat.max minFramesPerPhase transition)).

Definition risingSlice {A : Type} (poseAnalyses : list A) (transition : nat) : list A :=
  sliceFrom poseAnalyses
    (Z.min (Z.of_nat (List.length poseAnalyses) - Z.of_nat minFramesPerPhase)
           (Z.of_nat transition)).

(** ** Support detection *)

Inductive Support : Type := HAND | KNEE.

Definition Support_eq_dec (a b : Support) : {a = b} + {a <> b}.
Proof. decide equality. Defined.

Definition Support_eqb (a b : Support) : bool :=
  if Support_eq_dec a b then true else false.

(** [Math.max(...ys)]: minus infinity for no argument. *)
Definition maxOf (ys : list num) : num := fold_left JS.max ys NInf.

(** [detectSupportPoints], lines 76-121. *)
Definition detectSupportPoints (pose : option Pose) : result (list Support) :=
  p <- deref pose ;;
  let groundLevel :=
    maxOf (map kp_y
             (filter (fun kp => kp_score kp >' KEYPOINT_CONFIDENCE_THRESHOLD)
                     (keypoints p))) in
  let handSupportThreshold := groundLevel -' height p *' Fin (3 / 10) in
  let kneeSupportThreshold := groundLevel -' height p *' Fin (2 / 10) in
  let wrists := [findKeypoint "left_wrist" p; findKeypoint "right_wrist" p] in
  let supports1 :=
    if existsb (fun wrist => confident wrist && (Y wrist >' handSupportThreshold))
               wrists
    then [HAND] else [] in
  let knees := [findKeypoint "left_knee" p; findKeypoint "right_knee" p] in
  let supports2 :=
    if existsb (fun knee => confident knee && (Y knee >' kneeSupportThreshold))
               knees
    then (supports1 ++ [KNEE])%list else supports1 in
  ret supports2.

Record SupportPenalty : Type := mkPenalty {
  sitting : num;
  rising : num
}.

(** [new Set(phaseSupports.flat())], in insertion order. *)
Fixpoint setOf (l : list Support) (seen : list Support) : list Support :=
  match l with
  | [] => seen
  | s :: l' =>
      if existsb (Support_eqb s) seen then setOf l' seen
      else setOf l' (seen ++ [s])%list
  end.

Definition has (uniqueSupports : list Support) (s : Support) : bool :=
  existsb (Support_eqb s) uniqueSupports.

(** [calculatePhasePenalty] and [calculateSupportPenalty], lines 577-595. *)
Definition calculatePhasePenalty (phaseSupports : list (list Support)) : num :=
  let penalty := Fin 0 in
  let uniqueSupports := setOf (List.concat phaseSupports) [] in
  let penalty :=
    if has uniqueSupports HAND then penalty +' SUPPORT_PENALTIES_HAND else penalty in
  let penalty :=
    if has uniqueSupports KNEE then penalty +' SUPPORT_PENALTIES_KNEE else penalty in
  penalty.

Definition calculateSupportPenalty (supportPoints : list (list Support))
  : SupportPenalty :=
  let half := (Z.of_nat (List.length supportPoints) / 2)%Z in
  let sittingSupports := slice supportPoints 0 half in
  let risingSupports := sliceFrom supportPoints half in
  {| sitting := calculatePhasePenalty sittingSupports;
     rising := calculatePhasePenalty risingSupports |}.

(** ** Score aggregation *)

(** Phase-level metric averages. *)
Module Avg.

Record Sitting : Type := mkSitting {
  kneeFlexion : num;
  hipControl : num;
  spinalAlignment : num
}.

Record Rising : Type := mkRising {
  kneeExtension : num;
  hipDrive : num;
  stability : num
}.

End Avg.

Record ComponentScores : Type := mkComponents {
  posturalControl : num;
  balance : num;
  coordination : num
}.

Definition safeAverage (scores : list num) (minRequired : nat) : num :=
  let validScores := filter (fun score => negb (isNaN score)) scores in
  if (minRequired <=? List.length validScores)%nat
  then average validScores
  else DEFAULT_HIP_DRIVE.

Definition clamp01 (a : num) : num := JS.max (Fin 0) (JS.min (Fin 1) a).

(** [calculateComponentScores], lines 333-382. *)
Definition calculateComponentScores (sittingPhase : list Frame.Sitting)
  (risingPhase : list Frame.Rising) : ComponentScores :=
  let posturalControl :=
    clamp01
      (safeAverage
         (map (fun p => score (Frame.spinalAlignment p) *' Fin (13 / 10)) sittingPhase
          ++ map (fun p => stability_score (Frame.stability p) *' Fin (12 / 10))
                 risingPhase)%list
         3) in
  let balance :=
    clamp01
      (safeAverage
         (map (fun p => score (Frame.hipControl p) *' Fin (14 / 10)) sittingPhase
          ++ map (fun p => stability_score (Frame.stability p) *' Fin (13 / 10))
                 risingPhase)%list
         3) in
  {| posturalControl := posturalControl;
     balance := balance;
     coordination :=
       clamp01
         (safeAverage
            (map (fun p => score (Frame.kneeFlexion p) *' Fin (11 / 10)) sittingPhase
             ++ map (fun p => score (Frame.kneeExtension p) *' Fin (11 / 10))
                    risingPhase
             ++ map (fun p => score (Frame.hipDrive p) *' Fin (12 / 10))
                    risingPhase)%list
            3) |}.

Record PhaseScores : Type := mkScores {
  sitScore : num;
  riseScore : num;
  totalScore : num
}.

(** [calculatePhaseScores], lines 384-424. *)
Definition calculatePhaseScores (sittingPhase : Avg.Sitting)
  (risingPhase : Avg.Rising) (supportPenalty : SupportPenalty) : PhaseScores :=
  let rawSitScore :=
    JS.max MIN_PHASE_SCORE
      ((Avg.kneeFlexion sittingPhase *' Fin (35 / 100)
        +' Avg.hipControl sittingPhase *' Fin (35 / 100)
        +' Avg.spinalAlignment sittingPhase *' Fin (3 / 10))
       *' MAX_SCORE) in
  let rawRiseScore :=
    JS.max MIN_PHASE_SCORE
      ((Avg.kneeExtension risingPhase *' Fin (3 / 10)
        +' Avg.hipDrive risingPhase *' Fin (4 / 10)
        +' Avg.stability risingPhase *' Fin (3 / 10))
       *' MAX_SCORE) in
  let sitScore :=
    JS.max MIN_PHASE_SCORE
      (JS.min MAX_SCORE (rawSitScore -' sitting supportPenalty *' PENALTY_FACTOR)) in
  let riseScore :=
    JS.max MIN_PHASE_SCORE
      (JS.min MAX_SCORE (rawRiseScore -' rising supportPenalty *' PENALTY_FACTOR)) in
  {| sitScore := toFixed2 sitScore;
     riseScore := toFixed2 riseScore;
     totalScore := toFixed2 (JS.min (Fin 10) (sitScore +' riseScore)) |}.

(** ** Feedback *)

Record Feedback : Type := mkFeedback {
  strengths : list string;
  improvements : list string;
  recommendations : list string
}.

Definition supportName (s : Support) : string :=
  match s with HAND => "HAND" | KNEE => "KNEE" end.

(** [supportTypes.join(" and ")] *)
Fixpoint join (sep : string) (l : list string) : string :=
  match l with
  | [] => ""
  | [a] => a
  | a :: l' => a ++ sep ++ join sep l'
  end.

Definition push (fb : Feedback) (s i r : list string) : Feedback :=
  {| strengths := (strengths fb ++ s)%list;
     improvements := (improvements fb ++ i)%list;
     recommendations := (recommendations fb ++ r)%list |}.

(** [generateDetailedFeedback], lines 598-680. *)
Definition generateDetailedFeedback (sittingScores : Avg.Sitting)
  (risingScores : Avg.Rising) (componentScores : ComponentScores)
  (supportPoints : list (list Support)) : Feedback :=
  let EXCELLENT_THRESHOLD := Fin (8 / 10) in
  let GOOD_THRESHOLD := Fin (6 / 10) in
  let IMPROVEMENT_THRESHOLD := Fin (4 / 10) in
  let fb := {| strengths := []; improvements := []; recommendations := [] |} in
  let fb :=
    if Avg.kneeFlexion sittingScores >' EXCELLENT_THRESHOLD then
      push fb ["Excellent knee control during sitting"] [] []
    else if Avg.kneeFlexion sittingScores <' IMPROVEMENT_THRESHOLD then
      push fb [] ["Work on controlled descent while sitting"]
           ["Practice slow, controlled squats with proper form"]
    else fb in
  let fb :=
    if Avg.hipDrive risingScores >' EXCELLENT_THRESHOLD then
      push fb ["Strong hip drive during rising"] [] []
    else if Avg.hipDrive risingScores <' IMPROVEMENT_THRESHOLD then
      push fb [] ["Need to improve hip drive strength"]
           ["Practice hip thrust exercises to build strength"]
    else fb in
  let fb :=
    if balance componentScores <' GOOD_THRESHOLD then
      if balance componentScores <' IMPROVEMENT_THRESHOLD then
        push fb [] ["Significant balance improvement needed"]
             ["Start with supported single-leg stance exercises"]
      else
        push fb [] ["Balance needs some improvement"]
             ["Practice single-leg standing exercises"]
    else fb in
  let fb :=
    if posturalControl componentScores <' GOOD_THRESHOLD then
      if Avg.spinalAlignment sittingScores <' IMPROVEMENT_THRESHOLD then
        push fb [] ["Focus on maintaining spinal alignment"]
             ["Practice wall sits with proper back alignment"]
      else
        push fb [] ["Work on maintaining better posture"]
             ["Practice plank exercises for core strength"]
    else fb in
  let uniqueSupports := setOf (List.concat supportPoints) [] in
  match uniqueSupports with
  | [] => push fb ["Excellent form - no supports needed"] [] []
  | supportTypes =>
      push fb []
           ["Used " ++ join " and " (map supportName supportTypes) ++ " for support"]
           [if has supportTypes HAND
            then "Practice the movement with arms crossed over chest"
            else "Practice the movement without knee support"]
  end.

(** ** Orchestration *)

Definition FramePath : Type := string.

Record Report : Type := mkReport {
  scores : PhaseScores;
  componentScores : ComponentScores;
  sittingPhase : Avg.Sitting;
  risingPhase : Avg.Rising;
  feedback : Feedback;
  keyFrames : list FramePath;
  supportPointsUsed : list (list Support);
  frameCount : nat;
  reportedTransition : nat
}.

(** The body of the [try] block of [analyzeSRTVideo], from the sampled
    frames on; [detector frame] is [poses[0]] of the pose estimator's
    answer for the frame, [None] when it detected nothing.  Timings and
    the unused local recomputation of the scores are left out. *)
Definition analysisBody (detector : FramePath -> option Pose) (frames : list FramePath)
  : result Report :=
  let poseAnalyses := map detector frames in
  if (List.length poseAnalyses <? minFramesPerPhase * 2)%nat then
    throw (Error "Insufficient frames for analysis. Minimum required: 20")
  else
    transitionFrame <- detectPhaseTransition poseAnalyses ;;
    sittingPhase <- analyzeSittingPhase (sittingSlice poseAnalyses transitionFrame) ;;
    risingPhase <- analyzeRisingPhase (risingSlice poseAnalyses transitionFrame) ;;
    supportPoints <- mapE detectSupportPoints poseAnalyses ;;
    let supportPenalty := calculateSupportPenalty supportPoints in
    let componentScores := calculateComponentScores sittingPhase risingPhase in
    let sittingScores :=
      {| Avg.kneeFlexion :=
           safeScore (average (map (fun p => score (Frame.kneeFlexion p)) sittingPhase))
                     (Fin 0);
         Avg.hipControl :=
           safeScore (average (map (fun p => score (Frame.hipControl p)) sittingPhase))
                     (Fin 0);
         Avg.spinalAlignment :=
           safeScore
             (average (map (fun p => score (Frame.spinalAlignment p)) sittingPhase))
             (Fin 0) |} in
    let risingScores :=
      {| Avg.kneeExtension :=
           safeScore
             (average (map (fun p => score (Frame.kneeExtension p)) risingPhase))
             (Fin 0);
         Avg.hipDrive :=
           safeScore (average (map (fun p => score (Frame.hipDrive p)) risingPhase))
                     (Fin 0);
         Avg.stability :=
           safeScore
             (average (map (fun p => stability_score (Frame.stability p)) risingPhase))
             (Fin 0) |} in
    let scores := calculatePhaseScores sittingScores risingScores supportPenalty in
    let feedback :=
      generateDetailedFeedback sittingScores risingScores componentScores
                               supportPoints in
    ret {| scores := scores;
           componentScores := componentScores;
           sittingPhase := sittingScores;
           risingPhase := risingScores;
           feedback := feedback;
           keyFrames := frames;
           supportPointsUsed := supportPoints;
           frameCount := List.length frames;
           reportedTransition := transitionFrame |}.

(** [try { ... } catch (error) { throw new Error("Failed to analyze video") }] *)
Definition analyzeSRTVideo (detector : FramePath -> option Pose) (frames : list FramePath)
  : result Report :=
  match analysisBody detector frames with
  | inl _ => throw (Error "Failed to analyze video")
  | inr report => ret report
  end.

(** The poses usable for analysis: the detections that are not
    [undefined]. *)
Definition usablePoses (detector : FramePath -> option Pose) (frames : list FramePath)
  : list Pose :=
  flat_map (fun frame => match detector frame with Some p => [p] | None => [] end)
           frames.

(** ** Video service: frame rate *)

Definition BASE_FPS : num := Fin 5.

(** [calculateOptimalFps], lines 114-121 of the video service. *)
Definition calculateOptimalFps (duration : num) : num :=
  let targetFrames := Fin (INR MAX_FRAMES) in
  let calculatedFps := targetFrames /' duration in
  JS.max BASE_FPS (JS.min calculatedFps (Fin 10)).

(** ** Earlier scoring modules

    [src/services/videoProcessing.js], [src/services/ai-analysis.js] and
    the report generator score a run from a list of deductions. *)

Record Deduction : Type := mkDeduction {
  d_type : string;
  d_points : num;
  d_phase : option string
}.

Record Recommendation : Type := mkRecommendation {
  area : string;
  exercises : list string;
  priority : option string
}.

(** [deductions.find((d) => d.type === name)] *)
Definition findType (name : string) (deductions : list Deduction) : option Deduction :=
  find (fun d => String.eqb (d_type d) name) deductions.

Module VideoProcessing.

Record Scores : Type := mkScores {
  sitting : num;
  rising : num;
  total : num
}.

Record Analysis : Type := mkAnalysis {
  scores : Scores;
  deductions : list Deduction;
  recommendations : list Recommendation;
  riskLevel : string
}.

(** The [for] loop of [processVideo], lines 18-24: [estimatePoses frame]
    is the array the detector returns for the frame. *)
Definition collectPoses {F : Type} (estimatePoses : F -> list Pose) (frames : list F)
  : list Pose :=
  fold_left
    (fun poses frame =>
       match estimatePoses frame with
       | pose0 :: _ => (poses ++ [pose0])%list
       | [] => poses
       end)
    frames [].

Definition detectHandSupport (poses : list Pose) : bool := false.

Definition detectKneeSupport (poses : list Pose) : bool := false.

(** [calculateFinalScore], lines 89-92. *)
Definition calculateFinalScore (deductions : list Deduction) : num :=
  let totalDeductions :=
    fold_left (fun sum d => sum +' d_points d) deductions (Fin 0) in
  JS.max (Fin 0) (Fin 10 +' totalDeductions).

(** [generateRecommendations], lines 94-114, on [analysis.deductions]. *)
Definition generateRecommendations (deductions : list Deduction)
  : list Recommendation :=
  ((if truthy (findType "hand" deductions)
    then [{| area := "Upper Body Strength";
             exercises := ["Wall pushups"; "Resistance band exercises"];
             priority := Some "high" |}]
    else [])
   ++ (if truthy (findType "knee" deductions)
       then [{| area := "Lower Body Strength";
                exercises := ["Chair squats"; "Calf raises"];
                priority := Some "medium" |}]
       else []))%list.

(** [assessRiskLevel], lines 116-120. *)
Definition assessRiskLevel (totalScore : num) : string :=
  if totalScore >=' Fin 8 then "low"
  else if totalScore >=' Fin 6 then "moderate"
  else "high".

(** [analyzeMovements], lines 42-77. *)
Definition analyzeMovements (poses : list Pose) : Analysis :=
  let deductions :=
    ((if detectHandSupport poses
      then [{| d_type := "hand"; d_points := Fin (- 1); d_phase := Some "sitting" |}]
      else [])
     ++ (if detectKneeSupport poses
         then [{| d_type := "knee"; d_points := Fin (- 1); d_phase := Some "rising" |}]
         else []))%list in
  let total := calculateFinalScore deductions in
  {| scores := {| sitting := Fin 5; rising := Fin 5; total := total |};
     deductions := deductions;
     recommendations := generateRecommendations deductions;
     riskLevel := assessRiskLevel total |}.

End VideoProcessing.

Module SRTAnalyzer.

Record Scores : Type := mkScores {
  sitting : num;
  rising : num;
  deductions : list Deduction;
  total : num
}.

(** The two detection methods have an empty body: they return
    [undefined], which the [if] of [calculateScores] takes as false. *)
Definition detectHandSupport (poses : list Pose) : bool := false.

Definition detectKneeSupport (poses : list Pose) : bool := false.

(** [calculateFinalScore], lines 55-59, on the fields of [scores] it
    reads. *)
Definition calculateFinalScore (sitting rising : num) (deductions : list Deduction)
  : num :=
  sitting +' rising
  -' fold_left (fun total ded => total +' d_points ded) deductions (Fin 0).

(** [calculateScores], lines 24-45. *)
Definition calculateScores (poses : list Pose) : Scores :=
  let deductions :=
    ((if detectHandSupport poses
      then [{| d_type := "hand"; d_points := Fin (- 1); d_phase := None |}]
      else [])
     ++ (if detectKneeSupport poses
         then [{| d_type := "knee"; d_points := Fin (- 1); d_phase := None |}]
         else []))%list in
  {| sitting := Fin 5; rising := Fin 5; deductions := deductions;
     total := calculateFinalScore (Fin 5) (Fin 5) deductions |}.

End SRTAnalyzer.

Module ReportGenerator.

(** [generateRecommendations], lines 16-34 of the report generator. *)
Definition generateRecommendations (deductions : list Deduction)
  : list Recommendation :=
  ((if truthy (findType "hand" deductions)
    then [{| area := "Upper Body Strength";
             exercises := ["Wall pushups"; "Resistance band exercises"];
             priority := None |}]
    else [])
   ++ (if truthy (findType "knee" deductions)
       then [{| area := "Lower Body Strength";
                exercises := ["Chair squats"; "Calf raises"];
                priority := None |}]
       else []))%list.

(** [assessRisk], lines 36-40. *)
Definition assessRisk (totalScore : num) : string :=
  if totalScore >=' Fin 8 then "Low Risk"
  else if totalScore >=' Fin 6 then "Moderate Risk"
  else "High Risk".

End ReportGenerator.

(** ** Upload validation

    The file system is the list of the paths on disk with their sizes;
    [stat] and [unlink] reject for a path that is not there. *)

Record UploadedFile : Type := mkFile {
  path : string;
  mimetype : string
}.

Definition FileSystem : Type := list (string * Z).

Definition onDisk (fs : FileSystem) (p : string) : option (string * Z) :=
  find (fun entry => String.eqb (fst entry) p) fs.

Definition stat (fs : FileSystem) (p : string) : result Z :=
  match onDisk fs p with
  | Some entry => ret (snd entry)
  | None => throw (Error "ENOENT: no such file or directory")
  end.

Definition unlink (fs : FileSystem) (p : string) : result FileSystem :=
  match onDisk fs p with
  | Some _ => ret (filter (fun entry => negb (String.eqb (fst entry) p)) fs)
  | None => throw (Error "ENOENT: no such file or directory")
  end.

(** What a middleware does with the request: answer it, hand it to the
    next handler, or hand an error to the error handler. *)
Inductive Verdict : Type :=
| Rejected (status : nat) (message : string)
| Proceed
| Forward (error : exn).

Definition maxSize : Z := 50 * 1024 * 1024.

Definition allowedTypes : list string :=
  ["video/mp4"; "video/webm"; "video/quicktime"].

(** [allowedTypes.includes(m)] *)
Definition includes (l : list string) (m : string) : bool :=
  existsb (String.eqb m) l.

(** [validateVideo], lines 4-51 of the middleware. *)
Definition validateVideo (file : option UploadedFile) (fs : FileSystem)
  : FileSystem * Verdict :=
  match file with
  | None => (fs, Rejected 400 "No video file uploaded")
  | Some f =>
      let attempt : result (FileSystem * Verdict) :=
        size <- stat fs (path f) ;;
        if (maxSize <? size)%Z then
          fs' <- unlink fs (path f) ;;
          ret (fs', Rejected 400 "File size exceeds 50MB limit")
        else if negb (includes allowedTypes (mimetype f)) then
          fs' <- unlink fs (path f) ;;
          ret (fs',
               Rejected 400 "Invalid video format. Supported formats: MP4, WebM, MOV")
        else ret (fs, Proceed) in
      match attempt with
      | inr outcome => outcome
      | inl error =>
          let fs' := match unlink fs (path f) with
                     | inr fs' => fs'
                     | inl _ => fs
                     end in
          (fs', Forward error)
      end
  end.

(** The [fileFilter] of the upload handler, [src/routes.js] lines 22-28. *)
Definition fileFilter (file : UploadedFile) : bool :=
  String.prefix "video/" (mimetype file).

(** ** Stored results and the controller *)

Module SRTResult.

(** A document of the result collection, [src/models.js].  The phase
    averages are absent from the document of a failed run; the array
    paths ([keyFrames] and the three lists of [feedback]) default to
    empty arrays. *)
Record t : Type := mk {
  _id : string;
  sitScore : num;
  riseScore : num;
  totalScore : num;
  posturalControl : num;
  balance : num;
  coordination : num;
  sittingPhase : option Avg.Sitting;
  risingPhase : option Avg.Rising;
  feedback : Feedback;
  videoPath : string;
  keyFrames : list FramePath;
  processingStatus : string
}.

(** The [min] and [max] validators of a numeric path; [required] of a
    string path rejects the empty string. *)
Definition inRange (lo hi : R) (v : num) : bool := (v >=' Fin lo) && (v <=' Fin hi).

(** The validators of the schema, lines 4-81. *)
Definition validates (doc : t) : bool :=
  inRange 0 5 (sitScore doc) && inRange 0 5 (riseScore doc)
  && inRange 0 10 (totalScore doc)
  && inRange 0 1 (posturalControl doc) && inRange 0 1 (balance doc)
  && inRange 0 1 (coordination doc)
  && negb (String.eqb (videoPath doc) "")
  && existsb (String.eqb (processingStatus doc))
       ["pending"; "processing"; "completed"; "failed"].

End SRTResult.

Definition Store : Type := list SRTResult.t.

(** [doc.save()]: the document is validated, then written. *)
Definition save (store : Store) (doc : SRTResult.t) : result Store :=
  if SRTResult.validates doc then ret (store ++ [doc])%list
  else throw (Error "SRTResult validation failed").

(** [SRTResult.findById(id)] for a well-formed [id]. *)
Definition findById (store : Store) (id : string) : option SRTResult.t :=
  find (fun doc => String.eqb (SRTResult._id doc) id) store.

Record ReportData : Type := mkData {
  data_sitScore : num;
  data_riseScore : num;
  data_totalScore : num;
  data_posturalControl : num;
  data_balance : num;
  data_coordination : num;
  data_feedback : Feedback
}.

Inductive Reply : Type :=
| Success (reportId : string) (data : ReportData)
| Failure (status : nat) (message : string)
| Next (error : exn).

(** [isNaN(x) ? 0 : Math.max(0, x)] *)
Definition orZero (x : num) : num :=
  if isNaN x then Fin 0 else JS.max (Fin 0) x.

(** The document built from the analysis, controller lines 16-64. *)
Definition completedResult (id videoPath : string) (analysis : Report) : SRTResult.t :=
  {| SRTResult._id := id;
     SRTResult.sitScore := orZero (sitScore (scores analysis));
     SRTResult.riseScore := orZero (riseScore (scores analysis));
     SRTResult.totalScore := orZero (totalScore (scores analysis));
     SRTResult.posturalControl := orZero (posturalControl (componentScores analysis));
     SRTResult.balance := orZero (balance (componentScores analysis));
     SRTResult.coordination := orZero (coordination (componentScores analysis));
     SRTResult.sittingPhase :=
       Some {| Avg.kneeFlexion := orZero (Avg.kneeFlexion (sittingPhase analysis));
               Avg.hipControl := orZero (Avg.hipControl (sittingPhase analysis));
               Avg.spinalAlignment :=
                 orZero (Avg.spinalAlignment (sittingPhase analysis)) |};
     SRTResult.risingPhase :=
       Some {| Avg.kneeExtension := orZero (Avg.kneeExtension (risingPhase analysis));
               Avg.hipDrive := orZero (Avg.hipDrive (risingPhase analysis));
               Avg.stability := orZero (Avg.stability (risingPhase analysis)) |};
     SRTResult.feedback := feedback analysis;
     SRTResult.videoPath := videoPath;
     SRTResult.keyFrames := keyFrames analysis;
     SRTResult.processingStatus := "completed" |}.

(** The document of a failed run, controller lines 93-102. *)
Definition failedResult (id videoPath : string) : SRTResult.t :=
  {| SRTResult._id := id;
     SRTResult.sitScore := Fin 0;
     SRTResult.riseScore := Fin 0;
     SRTResult.totalScore := Fin 0;
     SRTResult.posturalControl := Fin 0;
     SRTResult.balance := Fin 0;
     SRTResult.coordination := Fin 0;
     SRTResult.sittingPhase := None;
     SRTResult.risingPhase := None;
     SRTResult.feedback :=
       {| strengths := []; improvements := []; recommendations := [] |};
     SRTResult.videoPath := videoPath;
     SRTResult.keyFrames := [];
     SRTResult.processingStatus := "failed" |}.

(** The [data] object of both responses. *)
Definition dataOf (doc : SRTResult.t) : ReportData :=
  {| data_sitScore := SRTResult.sitScore doc;
     data_riseScore := SRTResult.riseScore doc;
     data_totalScore := SRTResult.totalScore doc;
     data_posturalControl := SRTResult.posturalControl doc;
     data_balance := SRTResult.balance doc;
     data_coordination := SRTResult.coordination doc;
     data_feedback := SRTResult.feedback doc |}.

(** [req.file.path] *)
Definition filePath (file : option UploadedFile) : result string :=
  match file with
  | Some f => ret (path f)
  | None => throw TypeError
  end.

(** [analyzeVideo], controller lines 6-110.  [newId store] is the
    identifier the store gives to a new document, [analyze] the analysis
    service; the removal of the frame files is left out. *)
Definition analyzeVideo (newId : Store -> string) (analyze : string -> result Report)
  (file : option UploadedFile) (store : Store) : Store * Reply :=
  let attempt : result (Store * Reply) :=
    videoPath <- filePath file ;;
    analysis <- analyze videoPath ;;
    let doc := completedResult (newId store) videoPath analysis in
    store' <- save store doc ;;
    ret (store', Success (SRTResult._id doc) (dataOf doc)) in
  match attempt with
  | inr outcome => outcome
  | inl error =>
      let saved : result Store :=
        videoPath <- filePath file ;;
        save store (failedResult (newId store) videoPath) in
      (match saved with inr store' => store' | inl _ => store end, Next error)
  end.

(** [getReport], controller lines 112-151, for a well-formed [id]. *)
Definition getReport (id : string) (store : Store) : Reply :=
  if String.eqb id "" then Failure 400 "Report ID is required"
  else
    match findById store id with
    | None => Failure 404 "Report not found"
    | Some doc => Success (SRTResult._id doc) (dataOf doc)
    end.

(** ** Mathematical counterparts used in the statements *)

Definition Rclamp (lo hi x : R) : R := Rmax lo (Rmin hi x).

(** The raw phase scores of the aggregator on real numbers. *)
Definition rawSit (kF hC sA : R) : R :=
  Rmax (3 / 2) ((kF * (35 / 100) + hC * (35 / 100) + sA * (3 / 10)) * 5).
Definition rawRise (kE hD st : R) : R :=
  Rmax (3 / 2) ((kE * (3 / 10) + hD * (4 / 10) + st * (3 / 10)) * 5).

(** Some frame of the phase shows the support [s]. *)
Definition showsSupport (s : Support) (phaseSupports : list (list Support)) : bool :=
  existsb (existsb (Support_eqb s)) phaseSupports.

(** Frame by frame, [after] shows every support that [before] shows. *)
Definition covers (before after : list (list Support)) : Prop :=
  Forall2 (fun f f' => incl f f') before after.

(** Euclidean distance of two points, and the angle at the second of
    three points between the rays to the first and to the third, in
    degrees. *)
Definition Rdist (x1 y1 x2 y2 : R) : R :=
  R_sqrt.sqrt ((x2 - x1) * (x2 - x1) + (y2 - y1) * (y2 - y1)).

Definition Rangle (x1 y1 x2 y2 x3 y3 : R) : R :=
  Rabs ((Ratan2 (y3 - y2) (x3 - x2) - Ratan2 (y1 - y2) (x1 - x2)) * 180 / PI).

(** A keypoint with finite coordinates and confidence. *)
Definition point (name : string) (x y c : R) : Keypoint :=
  {| kp_name := name; kp_x := Fin x; kp_y := Fin y; kp_score := Fin c |}.

(** A point that is missing or has a coordinate that is not a number. *)
Definition nonNumeric (p : option Keypoint) : bool :=
  match p with
  | Some kp => isNaN (kp_x kp) || isNaN (kp_y kp)
  | None => true
  end.

(** The hip-drive combination on real numbers: half the clamped
    vertical progress, three tenths of the clamped trunk-angle score and
    two tenths of the alignment. *)
Definition hipDriveCombination (sy hy ay hx ax w trunk : R) : R :=
  Rclamp 0 1 ((ay - hy) / (ay - sy)) * (5 / 10)
  + Rclamp 0 1 (trunk / 180) * (3 / 10)
  + (1 - Rabs (hx - ax) / w) * (2 / 10).

(** The combination in the words of the specification: the trunk angle
    enters as [trunkAngle / 180], unclamped. *)
Definition specHipDriveCombination (sy hy ay hx ax w trunk : R) : R :=
  5 / 10 * Rclamp 0 1 ((ay - hy) / (ay - sy))
  + 3 / 10 * (trunk / 180)
  + 2 / 10 * (1 - Rabs (hx - ax) / w).

(** The result of a metric function when the signal is missing. *)
Definition hipDriveDefault : Metric := {| angle := Fin 0; score := DEFAULT_HIP_DRIVE |}.

(** The numbers among the entries of an array, in order. *)
Fixpoint finiteValues (l : list num) : list R :=
  match l with
  | [] => []
  | Fin r :: l' => r :: finiteValues l'
  | _ :: l' => finiteValues l'
  end.

Definition Rsum (l : list R) : R := fold_right Rplus 0 l.

Definition isInfinite (a : num) : bool :=
  match a with PInf | NInf => true | _ => false end.

(** The clamped mean of the valid entries of a pool of weighted
    per-frame scores, 0.3 when fewer than three are valid. *)
Definition pooledIndex (weighted : list num) : R :=
  let valid := finiteValues weighted in
  if (3 <=? List.length valid)%nat
  then Rclamp 0 1 (Rsum valid / INR (List.length valid))
  else 3 / 10.

(** The three pools of [calculateComponentScores]. *)
Definition posturalPool (sitting : list Frame.Sitting) (rising : list Frame.Rising)
  : list num :=
  (map (fun p => score (Frame.spinalAlignment p) *' Fin (13 / 10)) sitting
   ++ map (fun p => stability_score (Frame.stability p) *' Fin (12 / 10)) rising)%list.

Definition balancePool (sitting : list Frame.Sitting) (rising : list Frame.Rising)
  : list num :=
  (map (fun p => score (Frame.hipControl p) *' Fin (14 / 10)) sitting
   ++ map (fun p => stability_score (Frame.stability p) *' Fin (13 / 10)) rising)%list.

Definition coordinationPool (sitting : list Frame.Sitting) (rising : list Frame.Rising)
  : list num :=
  (map (fun p => score (Frame.kneeFlexion p) *' Fin (11 / 10)) sitting
   ++ map (fun p => score (Frame.kneeExtension p) *' Fin (11 / 10)) rising
   ++ map (fun p => score (Frame.hipDrive p) *' Fin (12 / 10)) rising)%list.

(** No per-frame score of the two phases is infinite. *)
Definition sittingScoresNotInfinite (p : Frame.Sitting) : Prop :=
  isInfinite (score (Frame.kneeFlexion p)) = false
  /\ isInfinite (score (Frame.hipControl p)) = false
  /\ isInfinite (score (Frame.spinalAlignment p)) = false.

Definition risingScoresNotInfinite (p : Frame.Rising) : Prop :=
  isInfinite (score (Frame.kneeExtension p)) = false
  /\ isInfinite (score (Frame.hipDrive p)) = false
  /\ isInfinite (stability_score (Frame.stability p)) = false.

(** The composite index in the words of the specification: the average
    of the weighted phase-level metric averages, clamped; a phase-level
    metric average takes the valid per-frame scores, 0.3 when fewer than
    three are valid. *)
Definition specPhaseAverage (scores : list num) : num := safeAverage scores 3.

Definition specPosturalControl (sitting : list Frame.Sitting)
  (rising : list Frame.Rising) : num :=
  clamp01
    (average
       [Fin (13 / 10)
          *' specPhaseAverage (map (fun p => score (Frame.spinalAlignment p)) sitting);
        Fin (12 / 10)
          *' specPhaseAverage (map (fun p => stability_score (Frame.stability p)) rising)]).

(** The right hip of frame [i] is detected with sufficient confidence. *)
Definition hipConfidentAt (poses : list (option Pose)) (i : nat) : bool :=
  match nth_error poses i with
  | Some (Some p) => confident (findKeypoint "right_hip" p)
  | _ => false
  end.

(** The hip triple centred at frame [i] has sufficient confidence. *)
Definition tripleConfident (poses : list (option Pose)) (i : nat) : bool :=
  hipConfidentAt poses (i - 1) && hipConfidentAt poses i
  && hipConfidentAt poses (i + 1).

(** The y coordinate of the right hip of frame [i], and the vertical
    hip displacement between the neighbours of frame [i]. *)
Definition hipY (poses : list (option Pose)) (i : nat) : num :=
  match nth_error poses i with
  | Some (Some p) => Y (findKeypoint "right_hip" p)
  | _ => NaN
  end.

Definition movementAt (poses : list (option Pose)) (i : nat) : num :=
  JS.abs (hipY poses (i + 1) -' hipY poses (i - 1)).

(** Frame [i] is the centre of a confident hip triple below [bound], and
    no confident hip triple below [bound] has a greater [value]. *)
Definition maximalAmong (value : nat -> num) (poses : list (option Pose))
  (bound i : nat) : Prop :=
  (1 <= i < bound)%nat
  /\ tripleConfident poses i = true
  /\ forall j, (1 <= j < bound)%nat -> tripleConfident poses j = true ->
               (value j >' value i) = false.

(** What the scan has found after the frames below [bound]: the
    max-displacement frame, or the midpoint when no confident triple
    moved; the lowest-hip frame, or 0 when no confident triple has a hip
    position. *)
Definition scanInvariant (poses : list (option Pose)) (bound : nat)
  (st : ScanState) : Prop :=
  ((transitionFrame st = (List.length poses / 2)%nat
    /\ maxHipMovement st = Fin 0
    /\ forall j, (1 <= j < bound)%nat -> tripleConfident poses j = true ->
                 (movementAt poses j >' Fin 0) = false)
   \/ (maxHipMovement st = movementAt poses (transitionFrame st)
       /\ maximalAmong (movementAt poses) poses bound (transitionFrame st)))
  /\ ((lowestHipFrame st = 0%nat
       /\ maxHipY st = NInf
       /\ forall j, (1 <= j < bound)%nat -> tripleConfident poses j = true ->
                    (hipY poses j >' NInf) = false)
      \/ (maxHipY st = hipY poses (lowestHipFrame st)
          /\ maximalAmong (hipY poses) poses bound (lowestHipFrame st))).

(** Every frame yielded a detection. *)
Definition allDetected (poses : list (option Pose)) : Prop :=
  Forall (fun pose => pose <> None) poses.

(** The support sets of a run in which frame [i] additionally shows a
    hand support. *)
Fixpoint addHand (i : nat) (supportPoints : list (list Support))
  {struct supportPoints} : list (list Support) :=
  match supportPoints, i with
  | [], _ => []
  | f :: rest, O => (HAND :: f) :: rest
  | f :: rest, S i' => f :: addHand i' rest
  end.

(** Every keypoint of the pose has finite coordinates. *)
Definition finiteCoordinates (pose : Pose) : Prop :=
  Forall (fun kp => finite (kp_x kp) /\ finite (kp_y kp)) (keypoints pose).

(** The point moved by [(dx, dy)]. *)
Definition translate (dx dy : R) (p : option Keypoint) : option Keypoint :=
  match p with
  | Some kp =>
      Some {| kp_name := kp_name kp; kp_x := kp_x kp +' Fin dx;
              kp_y := kp_y kp +' Fin dy; kp_score := kp_score kp |}
  | None => None
  end.

(** [G] is the greatest y among the keypoints of the pose whose
    confidence is above the threshold, all of which have a finite y. *)
Definition groundLevelIs (pose : Pose) (G : R) : Prop :=
  (exists kp, In kp (keypoints pose) /\ confident (Some kp) = true
              /\ kp_y kp = Fin G)
  /\ (forall kp, In kp (keypoints pose) -> confident (Some kp) = true ->
                 exists y, kp_y kp = Fin y /\ y <= G).

(** The arithmetic mean of the finite entries of an array, over the
    length of the array. *)
Definition arithmeticMean (l : list num) : R :=
  Rsum (finiteValues l) / INR (List.length l).

(** Every detection has finite keypoint coordinates. *)
Definition finiteDetections (poses : list (option Pose)) : Prop :=
  forall p, In (Some p) poses -> finiteCoordinates p.

(** The three scores of a sitting frame, and of a rising frame, lie in
    [0, 1]. *)
Definition sittingScoresInUnit (fr : Frame.Sitting) : Prop :=
  within 0 1 (score (Frame.kneeFlexion fr))
  /\ within 0 1 (score (Frame.hipControl fr))
  /\ within 0 1 (score (Frame.spinalAlignment fr)).

Definition risingScoresInUnit (fr : Frame.Rising) : Prop :=
  within 0 1 (score (Frame.kneeExtension fr))
  /\ within 0 1 (score (Frame.hipDrive fr))
  /\ within 0 1 (stability_score (Frame.stability fr)).

(** ** Example data *)

(** A detection without keypoints. *)
Definition emptyPose : Pose :=
  {| keypoints := []; width := Fin 640; height := Fin 480 |}.

(** The four right-side landmarks at the given positions, all with
    confidence 0.9, in a frame of the given width. *)
Definition rightSide (sx sy hx hy kx ky ax ay w : R) : Pose :=
  {| keypoints :=
       [point "right_shoulder" sx sy (9 / 10);
        point "right_hip" hx hy (9 / 10);
        point "right_knee" kx ky (9 / 10);
        point "right_ankle" ax ay (9 / 10)];
     width := Fin w;
     height := Fin 480 |}.

(** A pose with the shoulder below the ankle in the image (greater y),
    the hip above the shoulder and a trunk angle of 270 degrees. *)
Definition invertedPose : Pose := rightSide 90 90 100 100 90 110 100 50 200.

(** A straight standing figure whose four right-side landmarks are
    reported with confidence 0.1, below the threshold. *)
Definition lowConfidencePose : Pose :=
  {| keypoints :=
       [point "right_shoulder" 0 0 (1 / 10);
        point "right_hip" 0 10 (1 / 10);
        point "right_knee" 0 20 (1 / 10);
        point "right_ankle" 0 30 (1 / 10)];
     width := Fin 640;
     height := Fin 480 |}.

(** Twenty-five sampled frames; the pose estimator detects nothing in
    the first and a pose in each of the others. *)
Definition framesOfRun : list FramePath :=
  map (fun i => String (Ascii.ascii_of_nat (65 + i)) ".jpg") (seq 0 25).

Definition detectorOfRun (frame : FramePath) : option Pose :=
  if String.eqb frame "A.jpg" then None else Some emptyPose.

(** Fifteen sampled frames, each with a detection. *)
Definition framesOfShortRun : list FramePath := firstn 15 framesOfRun.

Definition detectorOfShortRun (frame : FramePath) : option Pose := Some emptyPose.

(** Ten sitting frames with spinal-alignment score 0 and fifteen rising
    frames with stability score 0.5. *)
Definition zeroMetric : Metric := {| angle := Fin 0; score := Fin 0 |}.

Definition tenSittingFrames : list Frame.Sitting :=
  repeat {| Frame.kneeFlexion := zeroMetric; Frame.hipControl := zeroMetric;
            Frame.spinalAlignment := zeroMetric |} 10.

Definition fifteenRisingFrames : list Frame.Rising :=
  repeat {| Frame.kneeExtension := zeroMetric; Frame.hipDrive := zeroMetric;
            Frame.stability :=
              {| deviation := Fin 50; stability_score := Fin (1 / 2) |} |} 15.

(** A figure leaning on the right hand: the wrist is the lowest
    confident keypoint. *)
Definition handOnFloorPose : Pose :=
  {| keypoints :=
       [point "right_shoulder" 100 200 (9 / 10);
        point "right_wrist" 150 400 (9 / 10);
        point "right_knee" 120 300 (9 / 10)];
     width := Fin 640;
     height := Fin 480 |}.

(** A detection showing only the right hip, at height [y]. *)
Definition hipOnly (y : R) : option Pose :=
  Some {| keypoints := [point "right_hip" 100 y (9 / 10)];
          width := Fin 640; height := Fin 480 |}.

(** Five detections whose hip stays at y = 100 except for frame 2,
    where it is at y = 200. *)
Definition dipAtTwo : list (option Pose) :=
  [hipOnly 100; hipOnly 100; hipOnly 200; hipOnly 100; hipOnly 100].

(** A run of 30 detections in which only the hips of frames 16 to 18
    are confident, the hip drops between frames 16 and 18, and frame 16
    shows a confident right wrist at ground level. *)
Definition lateHandFrame (i : nat) : Pose :=
  {| keypoints :=
       point "right_hip" 100 (if (i =? 18)%nat then 300 else 200)
             (if ((16 <=? i) && (i <=? 18))%nat then 9 / 10 else 1 / 10)
       :: (if (i =? 16)%nat then [point "right_wrist" 150 400 (9 / 10)] else []);
     width := Fin 640;
     height := Fin 480 |}.

Definition lateHandRun : list (option Pose) :=
  map (fun i => Some (lateHandFrame i)) (seq 0 30).

(** The support sets of that run: a hand support in frame 16 only. *)
Definition lateHandSupports : list (list Support) :=
  map (fun i => if (i =? 16)%nat then [HAND] else []) (seq 0 30).

(** * Properties *)

(** ** Arithmetic of [num] on finite values *)

Lemma max_Fin (a b : R) : JS.max (Fin a) (Fin b) = Fin (Rmax a b).
Proof.
  unfold JS.max, JS.lt, Rltb, Rmax.
  destruct (Rlt_dec a b), (Rle_dec a b); try reflexivity; f_equal; lra.
Qed.

Lemma min_Fin (a b : R) : JS.min (Fin a) (Fin b) = Fin (Rmin a b).
Proof.
  unfold JS.min, JS.lt, Rltb, Rmin.
  destruct (Rlt_dec b a), (Rle_dec a b); try reflexivity; f_equal; lra.
Qed.

Lemma Rclamp_bounds (lo hi x : R) : lo <= hi -> lo <= Rclamp lo hi x <= hi.
Proof.
  intros H. unfold Rclamp, Rmax, Rmin.
  destruct (Rle_dec hi x); destruct (Rle_dec lo _); lra.
Qed.

Lemma Rclamp_mono (lo hi x y : R) : x <= y -> Rclamp lo hi x <= Rclamp lo hi y.
Proof.
  intros H. unfold Rclamp.
  apply Rle_max_compat_l, Rle_min_compat_l, H.
Qed.

Lemma round2_mono (x y : R) : x <= y -> round2 x <= round2 y.
Proof.
  intros H. unfold round2.
  apply Rmult_le_compat_r; [lra |].
  apply IZR_le, Zfloor_le. lra.
Qed.

Lemma round2_hundredths (z : Z) : round2 (IZR z / 100) = IZR z / 100.
Proof.
  unfold round2. f_equal. f_equal.
  apply Zfloor_eq. lra.
Qed.

Lemma round2_between (a b : Z) (x : R) :
  IZR a / 100 <= x <= IZR b / 100 -> IZR a / 100 <= round2 x <= IZR b / 100.
Proof.
  intros [Ha Hb]. split.
  - rewrite <- (round2_hundredths a). now apply round2_mono.
  - rewrite <- (round2_hundredths b). now apply round2_mono.
Qed.

Lemma big_bound : 10 < 10 ^ 21.
Proof.
  replace 10 with (10 ^ 1) at 1 by (simpl; lra).
  apply Rlt_pow; [lra | lia].
Qed.

Lemma toFixed2_small (r : R) : 0 <= r <= 10 -> toFixed2 (Fin r) = Fin (round2 r).
Proof.
  intros H. unfold toFixed2, Rleb, Rltb.
  pose proof big_bound.
  destruct (Rle_dec (10 ^ 21) (Rabs r)) as [Hbig | _].
  - rewrite Rabs_pos_eq in Hbig; lra.
  - destruct (Rlt_dec r 0); [lra | reflexivity].
Qed.

Lemma Rltb_false (a b : R) : b <= a -> Rltb a b = false.
Proof. intros H. unfold Rltb. destruct (Rlt_dec a b); [lra | reflexivity]. Qed.

Lemma Rltb_true (a b : R) : a < b -> Rltb a b = true.
Proof. intros H. unfold Rltb. destruct (Rlt_dec a b); [reflexivity | lra]. Qed.

Lemma Rleb_true (a b : R) : a <= b -> Rleb a b = true.
Proof. intros H. unfold Rleb. destruct (Rle_dec a b); [reflexivity | lra]. Qed.

Lemma Rleb_false (a b : R) : b < a -> Rleb a b = false.
Proof. intros H. unfold Rleb. destruct (Rle_dec a b); [lra | reflexivity]. Qed.

Lemma Reqb_false (a b : R) : a <> b -> Reqb a b = false.
Proof. intros H. unfold Reqb. destruct (Req_dec_T a b); [contradiction | reflexivity]. Qed.

Lemma Reqb_true (a b : R) : a = b -> Reqb a b = true.
Proof. intros H. unfold Reqb. destruct (Req_dec_T a b); [reflexivity | contradiction]. Qed.

(** ** Phase scores *)

Section PhaseScores.

Variables kF hC sA kE hD st pS pR : R.

Let sittingAvg : Avg.Sitting :=
  {| Avg.kneeFlexion := Fin kF; Avg.hipControl := Fin hC;
     Avg.spinalAlignment := Fin sA |}.
Let risingAvg : Avg.Rising :=
  {| Avg.kneeExtension := Fin kE; Avg.hipDrive := Fin hD;
     Avg.stability := Fin st |}.
Let penalties : SupportPenalty := {| sitting := Fin pS; rising := Fin pR |}.

Let penalizedSit : R := Rclamp (3 / 2) 5 (rawSit kF hC sA - pS * (6 / 10)).
Let penalizedRise : R := Rclamp (3 / 2) 5 (rawRise kE hD st - pR * (6 / 10)).

Lemma calculatePhaseScores_Fin :
  calculatePhaseScores sittingAvg risingAvg penalties =
  {| sitScore := Fin (round2 penalizedSit);
     riseScore := Fin (round2 penalizedRise);
     totalScore := Fin (round2 (Rmin 10 (penalizedSit + penalizedRise))) |}.
Proof.
  assert (Hs : 3 / 2 <= penalizedSit <= 5) by (apply Rclamp_bounds; lra).
  assert (Hr : 3 / 2 <= penalizedRise <= 5) by (apply Rclamp_bounds; lra).
  unfold calculatePhaseScores, sittingAvg, risingAvg, penalties,
    MIN_PHASE_SCORE, MAX_SCORE, PENALTY_FACTOR.
  cbn [Avg.kneeFlexion Avg.hipControl Avg.spinalAlignment Avg.kneeExtension
       Avg.hipDrive Avg.stability sitting rising JS.mul JS.add JS.sub JS.neg].
  rewrite !max_Fin.
  cbn [JS.mul JS.add JS.sub JS.neg].
  rewrite !min_Fin, !max_Fin.
  cbn [JS.add]. rewrite min_Fin.
  replace (Rmax (3 / 2) (Rmin 5 (Rmax (3 / 2)
            ((kF * (35 / 100) + hC * (35 / 100) + sA * (3 / 10)) * 5)
            + - (pS * (6 / 10))))) with penalizedSit.
  2:{ unfold penalizedSit, Rclamp, rawSit, Rminus. reflexivity. }
  replace (Rmax (3 / 2) (Rmin 5 (Rmax (3 / 2)
            ((kE * (3 / 10) + hD * (4 / 10) + st * (3 / 10)) * 5)
            + - (pR * (6 / 10))))) with penalizedRise.
  2:{ unfold penalizedRise, Rclamp, rawRise, Rminus. reflexivity. }
  rewrite !toFixed2_small; [reflexivity | | lra | lra].
  unfold Rmin. destruct (Rle_dec 10 _); lra.
Qed.

End PhaseScores.

(** C5, as amended.  For all (finite) phase metric averages and phase
    penalties, the sit raw score is (0.35 kneeFlexion + 0.35 hipControl
    + 0.30 spinalAlignment) x 5 floored at 1.5, the rise raw score is
    (0.30 kneeExtension + 0.40 hipDrive + 0.30 stability) x 5 floored at
    1.5; with [sit] and [rise] the penalized scores
    clamp(raw - penalty x 0.6, 1.5, 5) before rounding, sitScore and
    riseScore are [sit] and [rise] rounded to two decimals, and
    totalScore is clamp(sit + rise, 2, 10) rounded to two decimals: it
    is rounded from the unrounded phase scores, not from sitScore and
    riseScore.  sitScore and riseScore lie in [1.5, 5] and totalScore in
    [2, 10]. *)
Theorem phase_scores_formula_and_bounds (kF hC sA kE hD st pS pR : R) :
  let r :=
    calculatePhaseScores
      {| Avg.kneeFlexion := Fin kF; Avg.hipControl := Fin hC;
         Avg.spinalAlignment := Fin sA |}
      {| Avg.kneeExtension := Fin kE; Avg.hipDrive := Fin hD;
         Avg.stability := Fin st |}
      {| sitting := Fin pS; rising := Fin pR |} in
  let sit := Rclamp (3 / 2) 5 (rawSit kF hC sA - pS * (6 / 10)) in
  let rise := Rclamp (3 / 2) 5 (rawRise kE hD st - pR * (6 / 10)) in
  rawSit kF hC sA = Rmax (3 / 2) ((35 / 100 * kF + 35 / 100 * hC + 30 / 100 * sA) * 5)
  /\ rawRise kE hD st = Rmax (3 / 2) ((30 / 100 * kE + 40 / 100 * hD + 30 / 100 * st) * 5)
  /\ sitScore r = Fin (round2 sit)
  /\ riseScore r = Fin (round2 rise)
  /\ totalScore r = Fin (round2 (Rclamp 2 10 (sit + rise)))
  /\ within (3 / 2) 5 (sitScore r)
  /\ within (3 / 2) 5 (riseScore r)
  /\ within 2 10 (totalScore r).
Proof.
  intros r sit rise.
  assert (Hs : 3 / 2 <= sit <= 5) by (apply Rclamp_bounds; lra).
  assert (Hr : 3 / 2 <= rise <= 5) by (apply Rclamp_bounds; lra).
  assert (Ht : Rclamp 2 10 (sit + rise) = Rmin 10 (sit + rise)).
  { unfold Rclamp, Rmax, Rmin.
    destruct (Rle_dec 10 (sit + rise)); destruct (Rle_dec 2 _); lra. }
  assert (Hb : 2 <= Rclamp 2 10 (sit + rise) <= 10) by (apply Rclamp_bounds; lra).
  subst r. rewrite calculatePhaseScores_Fin. cbn [sitScore riseScore totalScore].
  fold sit rise. rewrite Ht.
  repeat split; try reflexivity.
  - unfold rawSit. f_equal. lra.
  - unfold rawRise. f_equal. lra.
  - exists (round2 sit). split; [reflexivity |].
    pose proof (round2_between 150 500 sit). lra.
  - exists (round2 rise). split; [reflexivity |].
    pose proof (round2_between 150 500 rise). lra.
  - exists (round2 (Rmin 10 (sit + rise))). split; [reflexivity |].
    rewrite <- Ht.
    pose proof (round2_between 200 1000 (Rclamp 2 10 (sit + rise))). lra.
Qed.

(** ** Support penalties *)

Lemma Support_eqb_true (a b : Support) : Support_eqb a b = true <-> a = b.
Proof.
  unfold Support_eqb. destruct (Support_eq_dec a b); split; congruence.
Qed.

Lemma existsb_Support_In (s : Support) (l : list Support) :
  existsb (Support_eqb s) l = true <-> In s l.
Proof.
  rewrite existsb_exists. split.
  - intros [x [Hin Heq]]. apply Support_eqb_true in Heq. now subst.
  - intros Hin. exists s. split; [assumption | now apply Support_eqb_true].
Qed.

Lemma setOf_has (l seen : list Support) (s : Support) :
  has (setOf l seen) s
  = existsb (Support_eqb s) seen || existsb (Support_eqb s) l.
Proof.
  revert seen. induction l as [| a l IH]; intros seen; simpl.
  - unfold has. now rewrite orb_false_r.
  - destruct (existsb (Support_eqb a) seen) eqn:Ha; rewrite IH.
    + destruct (Support_eqb s a) eqn:Hsa; [| reflexivity].
      apply Support_eqb_true in Hsa. subst a. now rewrite Ha.
    + rewrite existsb_app. simpl. now rewrite orb_false_r, orb_assoc.
Qed.

Lemma existsb_concat_shows (s : Support) (phaseSupports : list (list Support)) :
  existsb (Support_eqb s) (List.concat phaseSupports) = showsSupport s phaseSupports.
Proof.
  unfold showsSupport. induction phaseSupports as [| f fs IH]; simpl.
  - reflexivity.
  - now rewrite existsb_app, IH.
Qed.

(** The penalty of a phase in closed form. *)
Lemma calculatePhasePenalty_closed (phaseSupports : list (list Support)) :
  calculatePhasePenalty phaseSupports
  = Fin ((if showsSupport HAND phaseSupports then 1 else 0)
         + (if showsSupport KNEE phaseSupports then 1 / 2 else 0)).
Proof.
  unfold calculatePhasePenalty.
  rewrite !setOf_has, !existsb_concat_shows. simpl.
  unfold SUPPORT_PENALTIES_HAND, SUPPORT_PENALTIES_KNEE.
  destruct (showsSupport HAND phaseSupports), (showsSupport KNEE phaseSupports);
    simpl; f_equal; lra.
Qed.


Lemma covers_addHand (i : nat) (supportPoints : list (list Support)) :
  covers supportPoints (addHand i supportPoints).
Proof.
  revert i. induction supportPoints as [| f rest IH]; intros i; simpl.
  - constructor.
  - destruct i.
    + constructor.
      * apply incl_tl, incl_refl.
      * clear IH. induction rest; constructor; [apply incl_refl | assumption].
    + constructor; [apply incl_refl | apply IH].
Qed.

Lemma covers_firstn (n : nat) (a b : list (list Support)) :
  covers a b -> covers (firstn n a) (firstn n b).
Proof.
  intros H. revert n. unfold covers in *.
  induction H; intros [| n]; simpl; try constructor; auto.
Qed.

Lemma covers_skipn (n : nat) (a b : list (list Support)) :
  covers a b -> covers (skipn n a) (skipn n b).
Proof.
  intros H. revert n. unfold covers in *.
  induction H; intros [| n]; simpl; try constructor; auto.
Qed.

Lemma covers_length (a b : list (list Support)) :
  covers a b -> List.length a = List.length b.
Proof.
  intros H. induction H; simpl; congruence.
Qed.

Lemma covers_slice (a b : list (list Support)) (start stop : Z) :
  covers a b -> covers (slice a start stop) (slice b start stop).
Proof.
  intros H. unfold slice. rewrite (covers_length a b H).
  apply covers_firstn, covers_skipn, H.
Qed.

Lemma covers_shows (s : Support) (a b : list (list Support)) :
  covers a b -> showsSupport s a = true -> showsSupport s b = true.
Proof.
  unfold showsSupport. intros H. induction H as [| f f' a b Hin _ IH]; simpl.
  - discriminate.
  - rewrite !orb_true_iff. intros [Hf | Hrest].
    + left. apply existsb_Support_In. apply Hin.
      now apply existsb_Support_In.
    + right. now apply IH.
Qed.

Lemma covers_penalty (a b : list (list Support)) :
  covers a b ->
  exists p q, calculatePhasePenalty a = Fin p /\ calculatePhasePenalty b = Fin q
              /\ 0 <= p <= q /\ q <= 3 / 2.
Proof.
  intros H. rewrite !calculatePhasePenalty_closed.
  do 2 eexists. split; [reflexivity |]. split; [reflexivity |].
  pose proof (covers_shows HAND a b H) as Hh.
  pose proof (covers_shows KNEE a b H) as Hk.
  destruct (showsSupport HAND a), (showsSupport KNEE a);
    try (rewrite Hh by reflexivity); try (rewrite Hk by reflexivity);
    destruct (showsSupport HAND b), (showsSupport KNEE b); lra.
Qed.

Lemma showsSupport_addHand (i : nat) (phaseSupports : list (list Support)) :
  (i < List.length phaseSupports)%nat ->
  showsSupport HAND (addHand i phaseSupports) = true.
Proof.
  unfold showsSupport. revert i.
  induction phaseSupports as [| f rest IH]; intros i Hi; simpl in *.
  - lia.
  - destruct i; simpl; [reflexivity |].
    rewrite IH by lia. apply orb_true_r.
Qed.

Lemma showsSupport_KNEE_addHand (i : nat) (phaseSupports : list (list Support)) :
  showsSupport KNEE (addHand i phaseSupports) = showsSupport KNEE phaseSupports.
Proof.
  unfold showsSupport. revert i.
  induction phaseSupports as [| f rest IH]; intros i; simpl.
  - reflexivity.
  - destruct i; simpl; [reflexivity |].
    now rewrite IH.
Qed.

Lemma le_Fin (a b : R) : a <= b -> (Fin a <=' Fin b) = true.
Proof.
  intros H. unfold JS.le, Rleb. destruct (Rle_dec a b); [reflexivity | lra].
Qed.

Lemma slice_prefix {A : Type} (arr : list A) (n : nat) :
  (n <= List.length arr)%nat -> slice arr 0 (Z.of_nat n) = firstn n arr.
Proof.
  intros H. unfold slice, relativeIndex.
  replace (0 <? 0)%Z with false by reflexivity.
  destruct (Z.of_nat n <? 0)%Z eqn:Hn; [lia |].
  rewrite Z.min_l by lia. rewrite Z.min_l by lia.
  simpl. f_equal. lia.
Qed.

Lemma sliceFrom_suffix {A : Type} (arr : list A) (n : nat) :
  (n <= List.length arr)%nat -> sliceFrom arr (Z.of_nat n) = skipn n arr.
Proof.
  intros H. unfold sliceFrom, slice, relativeIndex.
  destruct (Z.of_nat n <? 0)%Z eqn:Hn; [lia |].
  destruct (Z.of_nat (List.length arr) <? 0)%Z eqn:Hl; [lia |].
  rewrite Z.min_l by lia. rewrite Z.min_l by lia.
  rewrite Nat2Z.id.
  apply firstn_all2. rewrite length_skipn. lia.
Qed.

(** C10, as amended.  The penalty of a list of frames is the sum of the
    weights (HAND 1.0, KNEE 0.5) of the support types in the union of
    the frames' support sets, hence at most 1.5; the sitting penalty is
    this penalty of the first half of the run (its first floor(n/2)
    frames) and the rising penalty that of the remaining frames,
    whatever the detected transition is; and for fixed phase metric
    averages, a run in which one frame additionally shows HAND has a sit
    score, a rise score and a total score that are not larger. *)
Theorem hand_support_never_raises_score
  (supportPoints : list (list Support)) (i : nat) (kF hC sA kE hD st : R) :
  let sittingAvg :=
    {| Avg.kneeFlexion := Fin kF; Avg.hipControl := Fin hC;
       Avg.spinalAlignment := Fin sA |} in
  let risingAvg :=
    {| Avg.kneeExtension := Fin kE; Avg.hipDrive := Fin hD;
       Avg.stability := Fin st |} in
  let before :=
    calculatePhaseScores sittingAvg risingAvg
      (calculateSupportPenalty supportPoints) in
  let after :=
    calculatePhaseScores sittingAvg risingAvg
      (calculateSupportPenalty (addHand i supportPoints)) in
  let half := (List.length supportPoints / 2)%nat in
  (forall phaseSupports,
      calculatePhasePenalty phaseSupports
      = Fin ((if showsSupport HAND phaseSupports then 1 else 0)
             + (if showsSupport KNEE phaseSupports then 1 / 2 else 0))
      /\ within 0 (3 / 2) (calculatePhasePenalty phaseSupports))
  /\ calculateSupportPenalty supportPoints
     = {| sitting := calculatePhasePenalty (firstn half supportPoints);
          rising := calculatePhasePenalty (skipn half supportPoints) |}
  /\ (sitScore after <=' sitScore before) = true
  /\ (riseScore after <=' riseScore before) = true
  /\ (totalScore after <=' totalScore before) = true.
Proof.
  intros sittingAvg risingAvg before after half.
  split; [| split].
  - intros phaseSupports. split; [apply calculatePhasePenalty_closed |].
    rewrite calculatePhasePenalty_closed. eexists. split; [reflexivity |].
    destruct (showsSupport HAND phaseSupports),
      (showsSupport KNEE phaseSupports); lra.
  - unfold calculateSupportPenalty.
    assert (Hh : (Z.of_nat (List.length supportPoints) / 2)%Z = Z.of_nat half).
    { unfold half. now rewrite Nat2Z.inj_div. }
    assert (Hle : (half <= List.length supportPoints)%nat).
    { unfold half. apply Nat.Div0.div_le_upper_bound. lia. }
    rewrite Hh, slice_prefix, sliceFrom_suffix by assumption. reflexivity.
  - pose proof (covers_addHand i supportPoints) as Hc.
    pose proof (covers_length _ _ Hc) as Hlen.
    set (h := (Z.of_nat (List.length supportPoints) / 2)%Z).
    destruct (covers_penalty _ _ (covers_slice _ _ 0 h Hc))
      as (p & q & Hp & Hq & Hpq & _).
    destruct (covers_penalty _ _
                (covers_slice _ _ h (Z.of_nat (List.length supportPoints)) Hc))
      as (p' & q' & Hp' & Hq' & Hpq' & _).
    assert (Hb : calculateSupportPenalty supportPoints
                 = {| sitting := Fin p; rising := Fin p' |}).
    { unfold calculateSupportPenalty, sliceFrom. fold h. now rewrite Hp, Hp'. }
    assert (Ha : calculateSupportPenalty (addHand i supportPoints)
                 = {| sitting := Fin q; rising := Fin q' |}).
    { unfold calculateSupportPenalty, sliceFrom. rewrite <- Hlen. fold h.
      now rewrite Hq, Hq'. }
    subst before after sittingAvg risingAvg. rewrite Hb, Ha.
    rewrite !calculatePhaseScores_Fin. cbn [sitScore riseScore totalScore].
    assert (Hs : Rclamp (3 / 2) 5 (rawSit kF hC sA - q * (6 / 10))
                 <= Rclamp (3 / 2) 5 (rawSit kF hC sA - p * (6 / 10)))
      by (apply Rclamp_mono; lra).
    assert (Hr : Rclamp (3 / 2) 5 (rawRise kE hD st - q' * (6 / 10))
                 <= Rclamp (3 / 2) 5 (rawRise kE hD st - p' * (6 / 10)))
      by (apply Rclamp_mono; lra).
    repeat split; apply le_Fin, round2_mono; try assumption.
    apply Rle_min_compat_l. lra.
Qed.

(** ** Frame sampler *)

Section SamplerFacts.

Context {A : Type}.
Variable undefinedFrame : A.

(** The loop started at the multiple [k * step] emits the frames at
    the next [c] multiples of [step] when these, and only these, pass
    the loop test. *)
Lemma sampleLoop_multiples (frames : list A) (step : nat) :
  forall (c k fuel : nat),
    (c <= fuel)%nat ->
    (forall j, (k <= j < k + c)%nat -> (j * step + step < List.length frames)%nat) ->
    (List.length frames <= (k + c) * step + step)%nat ->
    sampleLoop undefinedFrame fuel frames step (k * step)
    = map (fun j => nth (j * step) frames undefinedFrame) (seq k c).
Proof.
  induction c as [| c IH]; intros k fuel Hfuel Hin Hout.
  - destruct fuel; simpl; [reflexivity |].
    destruct (Z.ltb_spec (Z.of_nat (k * step))
                (Z.of_nat (List.length frames) - Z.of_nat step)); [| reflexivity].
    replace (k + 0)%nat with k in Hout by lia. lia.
  - destruct fuel as [| fuel]; [lia |]. simpl.
    destruct (Z.ltb_spec (Z.of_nat (k * step))
                (Z.of_nat (List.length frames) - Z.of_nat step)) as [_ | Hge].
    + f_equal. replace (k * step + step)%nat with (S k * step)%nat by lia.
      apply IH.
      * lia.
      * intros j Hj. apply Hin. lia.
      * replace (S k + c)%nat with (k + S c)%nat by lia. exact Hout.
    + specialize (Hin k). lia.
Qed.

End SamplerFacts.

(** C8.  A list of at most 40 frames is returned unchanged.  A longer
    list of [n] frames is sampled with the stride [step = ceil(n / 40)]:
    the result is the first frame, the frames at the multiples
    [step, 2 step, ...] below [n - step], and the last frame; it has at
    most 40 frames, starts with the first extracted frame and ends with
    the last one. *)
Theorem sampleFrames_spec {A : Type} (undefinedFrame : A) (frames : list A) :
  let n := List.length frames in
  let step := ceilDiv n MAX_FRAMES in
  let m := ((n - 1) / step - 1)%nat in
  ((n <= 40)%nat -> sampleFrames undefinedFrame frames = frames)
  /\ ((40 < n)%nat ->
      sampleFrames undefinedFrame frames
      = (nth 0 frames undefinedFrame
           :: map (fun j => nth (j * step) frames undefinedFrame) (seq 1 m)
           ++ [nth (n - 1) frames undefinedFrame])%list
      /\ (forall j, In j (seq 1 m) -> (0 < j * step < n - 1)%nat)
      /\ (List.length (sampleFrames undefinedFrame frames) <= 40)%nat
      /\ hd_error (sampleFrames undefinedFrame frames) = hd_error frames
      /\ last (sampleFrames undefinedFrame frames) undefinedFrame
         = last frames undefinedFrame).
Proof.
  intros n step m. split.
  - intros Hn. unfold sampleFrames, MAX_FRAMES.
    destruct (Nat.leb_spec (List.length frames) 40); [reflexivity | ].
    unfold n in Hn. lia.
  - intros Hn.
    assert (Hstep : (n <= 40 * step /\ 2 <= step /\ 40 * step < n + 40)%nat).
    { unfold step, ceilDiv, MAX_FRAMES.
      pose proof (Nat.div_mod_eq (n + 40 - 1) 40) as E.
      pose proof (Nat.mod_upper_bound (n + 40 - 1) 40). lia. }
    destruct Hstep as (Hs1 & Hs2 & Hs3).
    assert (Hq : (step * ((n - 1) / step) <= n - 1
                  /\ n - 1 < step * ((n - 1) / step) + step)%nat).
    { pose proof (Nat.div_mod_eq (n - 1) step) as E.
      pose proof (Nat.mod_upper_bound (n - 1) step). lia. }
    set (q := ((n - 1) / step)%nat) in *.
    assert (Hq1 : (1 <= q)%nat).
    { destruct q; [| lia]. nia. }
    assert (Hq40 : (q <= 39)%nat) by nia.
    assert (Hm : S m = q) by (unfold m; lia).
    assert (Hloop :
      sampleLoop undefinedFrame n frames step step
      = map (fun j => nth (j * step) frames undefinedFrame) (seq 1 m)).
    { replace step with (1 * step)%nat at 2 by lia.
      apply sampleLoop_multiples; fold n.
      - nia.
      - intros j Hj. nia.
      - nia. }
    assert (Heq :
      sampleFrames undefinedFrame frames
      = (nth 0 frames undefinedFrame
           :: map (fun j => nth (j * step) frames undefinedFrame) (seq 1 m)
           ++ [nth (n - 1) frames undefinedFrame])%list).
    { unfold sampleFrames, MAX_FRAMES.
      destruct (Nat.leb_spec (List.length frames) 40); [unfold n in Hn; lia |].
      fold n. fold MAX_FRAMES. fold step. rewrite Hloop. reflexivity. }
    split; [exact Heq |]. split; [| split; [| split]].
    + intros j Hj. apply in_seq in Hj. nia.
    + rewrite Heq. simpl. rewrite length_app, length_map, length_seq. simpl. lia.
    + rewrite Heq. destruct frames; [simpl in n; lia | reflexivity].
    + rewrite Heq.
      change (nth 0 frames undefinedFrame
                :: map (fun j => nth (j * step) frames undefinedFrame) (seq 1 m)
                ++ [nth (n - 1) frames undefinedFrame])%list
        with ((nth 0 frames undefinedFrame
                :: map (fun j => nth (j * step) frames undefinedFrame) (seq 1 m))
                ++ [nth (n - 1) frames undefinedFrame])%list.
      rewrite last_last.
      destruct frames as [| a l] using rev_ind; [simpl in n; lia |].
      rewrite last_last. unfold n. rewrite length_app. simpl.
      rewrite app_nth2 by lia.
      replace (List.length l + 1 - 1 - List.length l)%nat with 0%nat by lia.
      reflexivity.
Qed.

(** The statement above at a list of 30 frames and at a list of 100. *)
Lemma sampleFrames_spec_witness :
  sampleFrames 0%nat (seq 0 30) = seq 0 30
  /\ sampleFrames 0%nat (seq 0 100)
     = [0; 3; 6; 9; 12; 15; 18; 21; 24; 27; 30; 33; 36; 39; 42; 45; 48; 51;
        54; 57; 60; 63; 66; 69; 72; 75; 78; 81; 84; 87; 90; 93; 96; 99]%nat.
Proof.
  split.
  - pose proof (sampleFrames_spec 0%nat (seq 0 30)) as [H _].
    apply H. rewrite length_seq. lia.
  - pose proof (sampleFrames_spec 0%nat (seq 0 100)) as [_ H].
    destruct H as [H _]; [rewrite length_seq; lia |].
    rewrite H. vm_compute. reflexivity.
Defined.

(** ** Phase segmentation *)

Lemma slice_0 {A : Type} (arr : list A) (k : nat) :
  slice arr 0 (Z.of_nat k) = firstn k arr.
Proof.
  unfold slice, relativeIndex.
  replace (0 <? 0)%Z with false by reflexivity.
  destruct (Z.ltb_spec (Z.of_nat k) 0); [lia |].
  rewrite (Z.min_l 0) by lia. rewrite Z.sub_0_r. simpl.
  destruct (Nat.le_gt_cases k (List.length arr)).
  - f_equal. lia.
  - rewrite Z.min_r by lia. rewrite Nat2Z.id.
    rewrite !firstn_all2; [reflexivity | lia | lia].
Qed.

Lemma hipAt_detected (poses : list (option Pose)) (i : nat) :
  allDetected poses -> (i < List.length poses)%nat ->
  exists hip, hipAt poses i = inr hip
              /\ confident hip = hipConfidentAt poses i.
Proof.
  intros Hall Hi. unfold hipAt, hipConfidentAt.
  destruct (nth_error poses i) as [pose |] eqn:Hnth.
  - unfold allDetected in Hall. rewrite Forall_forall in Hall.
    specialize (Hall pose (nth_error_In _ _ Hnth)).
    destruct pose as [p |]; [| congruence].
    simpl. eexists. split; reflexivity.
  - apply nth_error_None in Hnth. lia.
Qed.

Lemma scanStep_detected (poses : list (option Pose)) (st : ScanState) (i : nat) :
  allDetected poses -> (1 <= i)%nat -> (i + 1 < List.length poses)%nat ->
  exists st', scanStep poses st i = inr st'
              /\ (tripleConfident poses i = false -> st' = st).
Proof.
  intros Hall H1 Hn. unfold scanStep, tripleConfident.
  destruct (hipAt_detected poses (i - 1) Hall) as (h1 & -> & <-); [lia |].
  destruct (hipAt_detected poses i Hall) as (h2 & -> & <-); [lia |].
  destruct (hipAt_detected poses (i + 1) Hall) as (h3 & -> & <-); [lia |].
  simpl.
  destruct (confident h1 && confident h2 && confident h3).
  - eexists. split; [reflexivity | discriminate].
  - eexists. split; [reflexivity | reflexivity].
Qed.

Lemma scanLoop_detected (poses : list (option Pose)) :
  allDetected poses ->
  forall (indices : list nat) (st : ScanState),
    (forall i, In i indices -> (1 <= i /\ i + 1 < List.length poses)%nat) ->
    exists st', scanLoop poses st indices = inr st'
                /\ ((forall i, In i indices -> tripleConfident poses i = false)
                    -> st' = st).
Proof.
  intros Hall. induction indices as [| i rest IH]; intros st Hin; simpl.
  - eexists. split; reflexivity.
  - destruct (scanStep_detected poses st i Hall) as (st1 & -> & Hst1);
      [apply Hin; now left | apply Hin; now left |].
    simpl.
    destruct (IH st1) as (st2 & -> & Hst2); [intros j Hj; apply Hin; now right |].
    eexists. split; [reflexivity |].
    intros Hno. rewrite Hst2, Hst1; auto.
Qed.

(** *** What the scan finds *)

Lemma gt_irrefl (a : num) : (a >' a) = false.
Proof. destruct a; try reflexivity. apply Rltb_false. lra. Qed.

Lemma gt_raised (mx m mj : num) :
  (m >' mx) = true -> (mj >' mx) = false -> (mj >' m) = false.
Proof.
  destruct mx, m, mj; simpl; try discriminate; try reflexivity;
    unfold Rltb; repeat destruct (Rlt_dec _ _);
    try discriminate; try reflexivity; lra.
Qed.

Lemma hipAt_value (poses : list (option Pose)) (i : nat) :
  allDetected poses -> (i < List.length poses)%nat ->
  exists hip, hipAt poses i = inr hip
              /\ confident hip = hipConfidentAt poses i
              /\ Y hip = hipY poses i.
Proof.
  intros Hall Hi. unfold hipAt, hipConfidentAt, hipY.
  destruct (nth_error poses i) as [pose |] eqn:Hnth.
  - unfold allDetected in Hall. rewrite Forall_forall in Hall.
    specialize (Hall pose (nth_error_In _ _ Hnth)).
    destruct pose as [p |]; [| congruence].
    simpl. eexists. repeat split; reflexivity.
  - apply nth_error_None in Hnth. lia.
Qed.

(** One iteration of the scan in terms of the frames' hip positions. *)
Lemma scanStep_value (poses : list (option Pose)) (st : ScanState) (i : nat) :
  allDetected poses -> (1 <= i)%nat -> (i + 1 < List.length poses)%nat ->
  scanStep poses st i
  = inr (if tripleConfident poses i then
           let st1 :=
             if movementAt poses i >' maxHipMovement st
             then {| transitionFrame := i; maxHipMovement := movementAt poses i;
                     maxHipY := maxHipY st; lowestHipFrame := lowestHipFrame st |}
             else st in
           if hipY poses i >' maxHipY st1
           then {| transitionFrame := transitionFrame st1;
                   maxHipMovement := maxHipMovement st1;
                   maxHipY := hipY poses i; lowestHipFrame := i |}
           else st1
         else st).
Proof.
  intros Hall H1 Hn. unfold scanStep, tripleConfident, movementAt.
  destruct (hipAt_value poses (i - 1) Hall) as (h1 & -> & <- & <-); [lia |].
  destruct (hipAt_value poses i Hall) as (h2 & -> & <- & <-); [lia |].
  destruct (hipAt_value poses (i + 1) Hall) as (h3 & -> & <- & <-); [lia |].
  simpl. destruct (confident h1 && confident h2 && confident h3); reflexivity.
Qed.

Lemma maximalAmong_extend (value : nat -> num) (poses : list (option Pose))
  (bound i : nat) :
  maximalAmong value poses bound i ->
  (tripleConfident poses bound = true -> (value bound >' value i) = false) ->
  maximalAmong value poses (S bound) i.
Proof.
  intros (Hi & Hc & Hmax) Hnew. split; [lia |]. split; [exact Hc |].
  intros j Hj Hcj. destruct (Nat.eq_dec j bound) as [-> | Hne].
  - now apply Hnew.
  - apply Hmax; [lia | exact Hcj].
Qed.

Lemma maximalAmong_new (value : nat -> num) (poses : list (option Pose))
  (bound : nat) (mx : num) :
  (1 <= bound)%nat ->
  tripleConfident poses bound = true ->
  (value bound >' mx) = true ->
  (forall j, (1 <= j < bound)%nat -> tripleConfident poses j = true ->
             (value j >' mx) = false) ->
  maximalAmong value poses (S bound) bound.
Proof.
  intros Hb Hc Hgt Hold. split; [lia |]. split; [exact Hc |].
  intros j Hj Hcj. destruct (Nat.eq_dec j bound) as [-> | Hne].
  - apply gt_irrefl.
  - apply (gt_raised mx); [exact Hgt |]. apply Hold; [lia | exact Hcj].
Qed.

Lemma scanInvariant_step (poses : list (option Pose)) (st st' : ScanState) (i : nat) :
  allDetected poses -> (1 <= i)%nat -> (i + 1 < List.length poses)%nat ->
  scanInvariant poses i st ->
  scanStep poses st i = inr st' ->
  scanInvariant poses (S i) st'.
Proof.
  intros Hall H1 Hn [Hmove Hlow] Hstep.
  rewrite scanStep_value in Hstep by assumption. injection Hstep as <-.
  destruct (tripleConfident poses i) eqn:Hc.
  2:{ split.
      - destruct Hmove as [(Ht & Hm & Hall0) | (Hm & Hmax)].
        + left. repeat split; try assumption.
          intros j Hj Hcj. destruct (Nat.eq_dec j i) as [-> | Hne]; [congruence |].
          apply Hall0; [lia | exact Hcj].
        + right. split; [exact Hm |].
          apply maximalAmong_extend; [exact Hmax | congruence].
      - destruct Hlow as [(Ht & Hm & Hall0) | (Hm & Hmax)].
        + left. repeat split; try assumption.
          intros j Hj Hcj. destruct (Nat.eq_dec j i) as [-> | Hne]; [congruence |].
          apply Hall0; [lia | exact Hcj].
        + right. split; [exact Hm |].
          apply maximalAmong_extend; [exact Hmax | congruence]. }
  assert (Hmove' :
    let st1 :=
      if movementAt poses i >' maxHipMovement st
      then {| transitionFrame := i; maxHipMovement := movementAt poses i;
              maxHipY := maxHipY st; lowestHipFrame := lowestHipFrame st |}
      else st in
    ((transitionFrame st1 = (List.length poses / 2)%nat
      /\ maxHipMovement st1 = Fin 0
      /\ forall j, (1 <= j < S i)%nat -> tripleConfident poses j = true ->
                   (movementAt poses j >' Fin 0) = false)
     \/ (maxHipMovement st1 = movementAt poses (transitionFrame st1)
         /\ maximalAmong (movementAt poses) poses (S i) (transitionFrame st1)))
    /\ maxHipY st1 = maxHipY st /\ lowestHipFrame st1 = lowestHipFrame st).
  { cbv zeta. destruct (movementAt poses i >' maxHipMovement st) eqn:Hgt.
    - cbn [transitionFrame maxHipMovement maxHipY lowestHipFrame].
      split; [| split; reflexivity]. right. split; [reflexivity |].
      destruct Hmove as [(Ht & Hm & Hall0) | (Hm & (_ & _ & Hmax))].
      + rewrite Hm in Hgt. now apply (maximalAmong_new _ _ _ (Fin 0)).
      + rewrite Hm in Hgt.
        now apply (maximalAmong_new _ _ _ (movementAt poses (transitionFrame st))).
    - split; [| split; reflexivity].
      destruct Hmove as [(Ht & Hm & Hall0) | (Hm & Hmax)].
      + left. repeat split; try assumption.
        intros j Hj Hcj. destruct (Nat.eq_dec j i) as [-> | Hne].
        * now rewrite Hm in Hgt.
        * apply Hall0; [lia | exact Hcj].
      + right. split; [exact Hm |].
        apply maximalAmong_extend; [exact Hmax |]. intros _. now rewrite <- Hm. }
  cbv zeta in Hmove'.
  set (st1 := if movementAt poses i >' maxHipMovement st then _ else st) in *.
  destruct Hmove' as (Hmove1 & Hy1 & Hl1).
  destruct (hipY poses i >' maxHipY st1) eqn:Hgt.
  - split; [exact Hmove1 |].
    cbn [maxHipY lowestHipFrame]. right. split; [reflexivity |].
    rewrite Hy1 in Hgt.
    destruct Hlow as [(Ht & Hm & Hall0) | (Hm & (_ & _ & Hmax))].
    + rewrite Hm in Hgt. now apply (maximalAmong_new _ _ _ NInf).
    + rewrite Hm in Hgt.
      now apply (maximalAmong_new _ _ _ (hipY poses (lowestHipFrame st))).
  - split; [exact Hmove1 |]. rewrite Hy1, Hl1. rewrite Hy1 in Hgt.
    destruct Hlow as [(Ht & Hm & Hall0) | (Hm & Hmax)].
    + left. repeat split; try assumption.
      intros j Hj Hcj. destruct (Nat.eq_dec j i) as [-> | Hne].
      * now rewrite Hm in Hgt.
      * apply Hall0; [lia | exact Hcj].
    + right. split; [exact Hm |].
      apply maximalAmong_extend; [exact Hmax |]. intros _. now rewrite <- Hm.
Qed.

Lemma scanInvariant_loop (poses : list (option Pose)) :
  allDetected poses ->
  forall (count start : nat) (st st' : ScanState),
    (1 <= start)%nat -> (start + count < List.length poses)%nat ->
    scanInvariant poses start st ->
    scanLoop poses st (seq start count) = inr st' ->
    scanInvariant poses (start + count) st'.
Proof.
  intros Hall. induction count as [| count IH]; intros start st st' H1 Hn Hinv Hloop.
  - simpl in Hloop. injection Hloop as <-. now rewrite Nat.add_0_r.
  - simpl in Hloop.
    destruct (scanStep poses st start) as [e | st1] eqn:Hstep; simpl in Hloop;
      [discriminate |].
    replace (start + S count)%nat with (S start + count)%nat by lia.
    apply (IH (S start) st1); try lia; [| exact Hloop].
    apply (scanInvariant_step poses st st1 start); try assumption. lia.
Qed.

Lemma scanHips_invariant (poses : list (option Pose)) (st : ScanState) :
  allDetected poses -> (2 <= List.length poses)%nat ->
  scanHips poses = inr st ->
  scanInvariant poses (List.length poses - 1) st.
Proof.
  intros Hall Hlen Hscan. unfold scanHips in Hscan.
  replace (List.length poses - 1)%nat with (1 + (List.length poses - 2))%nat by lia.
  eapply scanInvariant_loop; try eassumption; try lia.
  split; left; cbn [transitionFrame maxHipMovement maxHipY lowestHipFrame];
    repeat split; intros; lia.
Qed.

Lemma dipAtTwo_detected : allDetected dipAtTwo.
Proof. repeat constructor; discriminate. Qed.

Lemma dipAtTwo_confident (i : nat) :
  (i < 5)%nat -> hipConfidentAt dipAtTwo i = true.
Proof.
  intros H. do 5 (destruct i as [| i]; [apply Rltb_true; lra |]). lia.
Qed.

Lemma dipAtTwo_hipY (i : nat) :
  (i < 5)%nat -> hipY dipAtTwo i = Fin (if (i =? 2)%nat then 200 else 100).
Proof.
  intros H. do 5 (destruct i as [| i]; [reflexivity |]). lia.
Qed.

Lemma dipAtTwo_step (st : ScanState) (i : nat) :
  (1 <= i <= 3)%nat ->
  scanStep dipAtTwo st i
  = inr (let movement :=
           Fin (Rabs ((if (i + 1 =? 2)%nat then 200 else 100)
                      - (if (i - 1 =? 2)%nat then 200 else 100))) in
         let st1 :=
           if movement >' maxHipMovement st
           then {| transitionFrame := i; maxHipMovement := movement;
                   maxHipY := maxHipY st; lowestHipFrame := lowestHipFrame st |}
           else st in
         if Fin (if (i =? 2)%nat then 200 else 100) >' maxHipY st1
         then {| transitionFrame := transitionFrame st1;
                 maxHipMovement := maxHipMovement st1;
                 maxHipY := Fin (if (i =? 2)%nat then 200 else 100);
                 lowestHipFrame := i |}
         else st1).
Proof.
  intros H.
  rewrite scanStep_value by (try apply dipAtTwo_detected; simpl; lia).
  unfold tripleConfident, movementAt.
  now rewrite !dipAtTwo_confident, !dipAtTwo_hipY by lia.
Qed.

(** The hip dips at frame 2: the displacement between neighbours first
    peaks at frame 1, the hip is lowest at frame 2, and the lowest-hip
    frame is chosen. *)
Example detectPhaseTransition_dipAtTwo :
  detectPhaseTransition dipAtTwo = inr 2%nat.
Proof.
  assert (H100 : Rabs (200 - 100) = 100) by (rewrite Rabs_pos_eq; lra).
  assert (H100' : Rabs (100 - 200) = 100) by (rewrite Rabs_left; lra).
  assert (H0 : Rabs (100 - 100) = 0).
  { replace (100 - 100) with 0 by lra. apply Rabs_R0. }
  unfold detectPhaseTransition, scanHips.
  change (seq 1 (List.length dipAtTwo - 2)) with [1; 2; 3]%nat.
  change (List.length dipAtTwo / 2)%nat with 2%nat.
  cbn [scanLoop].
  rewrite dipAtTwo_step by lia.
  cbn [Nat.eqb Nat.add Nat.sub maxHipMovement maxHipY JS.gt JS.lt].
  rewrite H100, (Rltb_true 0 100) by lra.
  cbn [bind transitionFrame maxHipMovement maxHipY lowestHipFrame JS.lt].
  rewrite dipAtTwo_step by lia.
  cbn [Nat.eqb Nat.add Nat.sub maxHipMovement maxHipY JS.gt JS.lt].
  rewrite H0, (Rltb_false 100 0) by lra.
  cbn [maxHipY JS.gt JS.lt]. rewrite (Rltb_true 100 200) by lra.
  cbn [bind transitionFrame maxHipMovement maxHipY lowestHipFrame].
  rewrite dipAtTwo_step by lia.
  cbn [Nat.eqb Nat.add Nat.sub maxHipMovement maxHipY JS.gt JS.lt].
  rewrite H100', (Rltb_false 100 100) by lra.
  cbn [maxHipY JS.gt JS.lt]. rewrite (Rltb_false 200 100) by lra.
  reflexivity.
Qed.

Lemma phase_slices_detected (poses : list (option Pose)) :
  (3 <= List.length poses)%nat -> allDetected poses ->
  exists transition, detectPhaseTransition poses = inr transition.
Proof.
  intros Hlen Hall.
  destruct (scanLoop_detected poses Hall (seq 1 (List.length poses - 2))
              {| transitionFrame := List.length poses / 2; maxHipMovement := Fin 0;
                 maxHipY := NInf; lowestHipFrame := 0 |})
    as (st & Hscan & _).
  { intros i Hi. apply in_seq in Hi. lia. }
  unfold detectPhaseTransition, scanHips. rewrite Hscan. simpl. eauto.
Qed.

(** C9.  For a pose sequence of at least 20 detections: the transition
    detection returns an index.  Its scan finds the max-displacement
    frame (the centre of a confident hip triple whose neighbours' hip
    displacement no confident triple exceeds; the midpoint when no
    confident triple moved) and the lowest-hip frame (the centre of a
    confident triple whose hip y no confident triple exceeds); the index
    is the lowest-hip frame when the two lie within 5 frames of each other
    and the max-displacement frame otherwise, and it is the midpoint when
    no consecutive hip triple has sufficient confidence.  The sitting
    slice is the prefix of length max(10, transition), the rising slice
    is the suffix from min(length - 10, transition), and each holds at
    least 10 poses. *)
Theorem phase_slices_at_least_ten (poses : list (option Pose)) :
  (20 <= List.length poses)%nat ->
  allDetected poses ->
  let n := List.length poses in
  exists st transition,
    scanHips poses = inr st
    /\ scanInvariant poses (n - 1) st
    /\ detectPhaseTransition poses = inr transition
    /\ transition
       = (if (indexDistance (lowestHipFrame st) (transitionFrame st) <? 5)%nat
          then lowestHipFrame st else transitionFrame st)
    /\ ((forall i, (1 <= i < n - 1)%nat -> tripleConfident poses i = false)
        -> transition = (n / 2)%nat)
    /\ sittingSlice poses transition = firstn (Nat.max 10 transition) poses
    /\ risingSlice poses transition = skipn (Nat.min (n - 10) transition) poses
    /\ (10 <= List.length (sittingSlice poses transition))%nat
    /\ (10 <= List.length (risingSlice poses transition))%nat.
Proof.
  intros Hlen Hall n.
  destruct (scanLoop_detected poses Hall (seq 1 (n - 2))
              {| transitionFrame := n / 2; maxHipMovement := Fin 0;
                 maxHipY := NInf; lowestHipFrame := 0 |})
    as (st & Hscan & Hnone).
  { intros i Hi. apply in_seq in Hi. fold n. lia. }
  exists st. eexists. split; [exact Hscan |].
  split; [apply scanHips_invariant; [exact Hall | lia | exact Hscan] |].
  unfold detectPhaseTransition, scanHips. fold n. rewrite Hscan. simpl.
  split; [reflexivity |]. split; [reflexivity |].
  set (t := if (indexDistance (lowestHipFrame st) (transitionFrame st) <? 5)%nat
            then lowestHipFrame st else transitionFrame st).
  assert (Hsit : sittingSlice poses t = firstn (Nat.max 10 t) poses).
  { unfold sittingSlice, minFramesPerPhase. apply slice_0. }
  assert (Hrise : risingSlice poses t = skipn (Nat.min (n - 10) t) poses).
  { unfold risingSlice, minFramesPerPhase. fold n.
    replace (Z.min (Z.of_nat n - Z.of_nat 10) (Z.of_nat t))
      with (Z.of_nat (Nat.min (n - 10) t)) by lia.
    apply sliceFrom_suffix. fold n. lia. }
  split; [| split; [exact Hsit | split; [exact Hrise | split]]].
  - intros Hno.
    assert (Hst : st = {| transitionFrame := n / 2; maxHipMovement := Fin 0;
                          maxHipY := NInf; lowestHipFrame := 0 |}).
    { apply Hnone. intros i Hi. apply in_seq in Hi. apply Hno. lia. }
    subst t. rewrite Hst. cbn [lowestHipFrame transitionFrame].
    unfold indexDistance.
    assert (10 <= n / 2)%nat by (apply Nat.div_le_lower_bound; lia).
    destruct (Nat.ltb_spec (0 - n / 2 + (n / 2 - 0)) 5); [lia | reflexivity].
  - rewrite Hsit, length_firstn. fold n. lia.
  - rewrite Hrise, length_skipn. fold n. lia.
Qed.

(** The statement above at 20 detections without keypoints. *)
Lemma phase_slices_witness :
  exists transition,
    detectPhaseTransition (repeat (Some emptyPose) 20) = inr transition
    /\ transition = 10%nat
    /\ (10 <= List.length (sittingSlice (repeat (Some emptyPose) 20) transition))%nat
    /\ (10 <= List.length (risingSlice (repeat (Some emptyPose) 20) transition))%nat.
Proof.
  destruct (phase_slices_at_least_ten (repeat (Some emptyPose) 20))
    as (st & t & _ & _ & Ht & _ & Hmid & _ & _ & Hs & Hr).
  - simpl. lia.
  - repeat constructor; discriminate.
  - exists t. repeat split; try assumption.
    rewrite Hmid; [reflexivity |].
    intros i Hi. unfold tripleConfident, hipConfidentAt.
    simpl in Hi.
    do 19 (destruct i as [| i]; [reflexivity || lia |]). lia.
Defined.

(** ** Geometry *)

Lemma Ratan2_bound (y x : R) : - PI <= Ratan2 y x <= PI.
Proof.
  pose proof PI_RGT_0 as Hpi.
  pose proof (atan_bound (y / x)) as Hb.
  unfold Ratan2, Rltb, Rleb.
  destruct (Rlt_dec 0 x); [lra |].
  destruct (Rlt_dec x 0) as [Hx |].
  - destruct (Rle_dec 0 y) as [Hy | Hy].
    + assert (atan (y / x) <= 0); [| lra].
      destruct (Req_dec y 0) as [-> | Hne].
      * unfold Rdiv. rewrite Rmult_0_l, atan_0. lra.
      * rewrite <- atan_0. left. apply atan_increasing.
        apply Rdiv_pos_neg; lra.
    + assert (0 < atan (y / x)); [| lra].
      rewrite <- atan_0. apply atan_increasing.
      apply Rdiv_neg_neg; lra.
  - destruct (Rlt_dec 0 y); [lra |].
    destruct (Rlt_dec y 0); lra.
Qed.

Lemma Rangle_bound (x1 y1 x2 y2 x3 y3 : R) :
  0 <= Rangle x1 y1 x2 y2 x3 y3 <= 360.
Proof.
  pose proof PI_RGT_0 as Hpi.
  pose proof (Ratan2_bound (y3 - y2) (x3 - x2)) as H3.
  pose proof (Ratan2_bound (y1 - y2) (x1 - x2)) as H1.
  unfold Rangle. split; [apply Rabs_pos |].
  set (d := Ratan2 (y3 - y2) (x3 - x2) - Ratan2 (y1 - y2) (x1 - x2)).
  assert (Hd0 : -2 * PI <= d <= 2 * PI) by (unfold d; lra).
  clearbody d.
  replace (d * 180 / PI) with (d / PI * 180) by (field; lra).
  assert (Hd : -2 <= d / PI <= 2).
  { split.
    - apply (Rmult_le_reg_r PI); [lra |]. unfold Rdiv.
      rewrite Rmult_assoc, Rinv_l by lra. lra.
    - apply (Rmult_le_reg_r PI); [lra |]. unfold Rdiv.
      rewrite Rmult_assoc, Rinv_l by lra. lra. }
  apply Rabs_le. lra.
Qed.

Lemma sum_squares_nonneg (a b : R) : 0 <= a * a + b * b.
Proof. nra. Qed.

(** The distance computed by [validatePoints] on finite coordinates. *)
Lemma distance_Fin (x1 y1 x2 y2 : R) :
  JS.sqrt (pow2 (Fin x2 -' Fin x1) +' pow2 (Fin y2 -' Fin y1))
  = Fin (Rdist x1 y1 x2 y2).
Proof.
  unfold pow2. cbn [JS.sub JS.neg JS.add JS.mul JS.sqrt].
  rewrite Rltb_false by apply sum_squares_nonneg.
  reflexivity.
Qed.

Section FinitePoints.

Variables (n1 n2 n3 : string) (x1 y1 x2 y2 x3 y3 : R) (c1 c2 c3 : num).

Let p1 := Some (mkKeypoint n1 (Fin x1) (Fin y1) c1).
Let p2 := Some (mkKeypoint n2 (Fin x2) (Fin y2) c2).
Let p3 := Some (mkKeypoint n3 (Fin x3) (Fin y3) c3).

Lemma validatePoints_finite :
  validatePoints p1 p2 p3
  = negb (Rltb (Rdist x1 y1 x2 y2) 1 || Rltb (Rdist x2 y2 x3 y3) 1).
Proof.
  unfold validatePoints, p1, p2, p3.
  cbn [kp_x kp_y JS.isNaN orb].
  rewrite !distance_Fin. cbn [JS.lt].
  destruct (Rltb (Rdist x1 y1 x2 y2) 1 || Rltb (Rdist x2 y2 x3 y3) 1); reflexivity.
Qed.

Lemma calculateAngle_separated :
  1 <= Rdist x1 y1 x2 y2 -> 1 <= Rdist x2 y2 x3 y3 ->
  calculateAngle p1 p2 p3 = Fin (Rangle x1 y1 x2 y2 x3 y3).
Proof.
  intros H1 H2. unfold calculateAngle.
  rewrite validatePoints_finite, !Rltb_false by assumption.
  unfold p1, p2, p3.
  cbn [negb orb kp_x kp_y JS.sub JS.neg JS.add JS.atan2 JS.mul].
  pose proof PI_RGT_0 as Hpi.
  unfold JS.div. rewrite Reqb_false by lra.
  cbn [JS.abs]. rewrite max_Fin, min_Fin.
  fold (Rminus y3 y2) (Rminus x3 x2) (Rminus y1 y2) (Rminus x1 x2).
  match goal with
  | |- context [Rabs ?e] =>
      change (Rabs e) with (Rangle x1 y1 x2 y2 x3 y3)
  end.
  pose proof (Rangle_bound x1 y1 x2 y2 x3 y3) as Hb.
  rewrite Rmax_right by lra. rewrite Rmin_right by lra. reflexivity.
Qed.

Lemma calculateAngle_too_close :
  Rdist x1 y1 x2 y2 < 1 \/ Rdist x2 y2 x3 y3 < 1 ->
  calculateAngle p1 p2 p3 = Fin 0.
Proof.
  intros H. unfold calculateAngle. rewrite validatePoints_finite.
  destruct H as [H | H]; rewrite (Rltb_true _ _ H).
  - reflexivity.
  - rewrite orb_true_r. reflexivity.
Qed.

Lemma calculateAngle_finite_range : within 0 360 (calculateAngle p1 p2 p3).
Proof.
  destruct (Rlt_dec (Rdist x1 y1 x2 y2) 1) as [H1 | H1].
  { rewrite calculateAngle_too_close by (now left). exists 0. split; [reflexivity | lra]. }
  destruct (Rlt_dec (Rdist x2 y2 x3 y3) 1) as [H2 | H2].
  { rewrite calculateAngle_too_close by (now right). exists 0. split; [reflexivity | lra]. }
  rewrite calculateAngle_separated by lra.
  eexists. split; [reflexivity | apply Rangle_bound].
Qed.

End FinitePoints.

Lemma Rdist_ge_1 (x1 y1 x2 y2 : R) :
  1 <= (x2 - x1) * (x2 - x1) + (y2 - y1) * (y2 - y1) -> 1 <= Rdist x1 y1 x2 y2.
Proof.
  intros H. unfold Rdist. rewrite <- sqrt_1 at 1.
  apply sqrt_le_1_alt, H.
Qed.

Lemma Rdist_lt_1 (x1 y1 x2 y2 : R) :
  (x2 - x1) * (x2 - x1) + (y2 - y1) * (y2 - y1) < 1 -> Rdist x1 y1 x2 y2 < 1.
Proof.
  intros H. unfold Rdist. rewrite <- sqrt_1.
  apply sqrt_lt_1_alt. split; [apply sum_squares_nonneg | exact H].
Qed.

Lemma Ratan2_right (y x : R) : 0 < x -> Ratan2 y x = atan (y / x).
Proof. intros H. unfold Ratan2. now rewrite Rltb_true. Qed.

Lemma Ratan2_up (y : R) : 0 < y -> Ratan2 y 0 = PI / 2.
Proof.
  intros H. unfold Ratan2.
  rewrite (Rltb_false 0 0), Rltb_true by lra. reflexivity.
Qed.

Lemma calculateAngle_nonNumeric (p1 p2 p3 : option Keypoint) :
  nonNumeric p1 || nonNumeric p2 || nonNumeric p3 = true ->
  calculateAngle p1 p2 p3 = Fin 0.
Proof.
  intros H. unfold calculateAngle.
  assert (Hv : validatePoints p1 p2 p3 = false).
  { unfold validatePoints.
    destruct p1 as [k1 |], p2 as [k2 |], p3 as [k3 |]; try reflexivity.
    simpl in H.
    destruct (isNaN (kp_x k1)), (isNaN (kp_y k1)), (isNaN (kp_x k2)),
      (isNaN (kp_y k2)), (isNaN (kp_x k3)), (isNaN (kp_y k3));
      simpl in *; try reflexivity; discriminate. }
  now rewrite Hv.
Qed.

(** C7 (as amended).  For three points with finite coordinates the
    angle is a number in [0, 360]; it is the absolute difference of the
    atan2 angles of the two rays at p2, in degrees, when the distances
    p1-p2 and p2-p3 are both at least 1 pixel, and exactly 0 when one of
    these two distances is below 1 pixel.  It is exactly 0 as well when a
    point is missing or a coordinate is not a number. *)
Theorem calculateAngle_spec (n1 n2 n3 : string) (x1 y1 x2 y2 x3 y3 : R)
  (c1 c2 c3 : num) :
  let p1 := Some (mkKeypoint n1 (Fin x1) (Fin y1) c1) in
  let p2 := Some (mkKeypoint n2 (Fin x2) (Fin y2) c2) in
  let p3 := Some (mkKeypoint n3 (Fin x3) (Fin y3) c3) in
  within 0 360 (calculateAngle p1 p2 p3)
  /\ (1 <= Rdist x1 y1 x2 y2 -> 1 <= Rdist x2 y2 x3 y3 ->
      calculateAngle p1 p2 p3 = Fin (Rangle x1 y1 x2 y2 x3 y3))
  /\ (Rdist x1 y1 x2 y2 < 1 \/ Rdist x2 y2 x3 y3 < 1 ->
      calculateAngle p1 p2 p3 = Fin 0)
  /\ (forall q1 q2 q3 : option Keypoint,
         nonNumeric q1 || nonNumeric q2 || nonNumeric q3 = true ->
         calculateAngle q1 q2 q3 = Fin 0).
Proof.
  intros p1 p2 p3. split; [| split; [| split]].
  - apply calculateAngle_finite_range.
  - apply calculateAngle_separated.
  - apply calculateAngle_too_close.
  - apply calculateAngle_nonNumeric.
Qed.

(** The statement above at a right angle, at two coincident points and
    at a missing coordinate. *)
Lemma calculateAngle_spec_witness :
  calculateAngle (Some (point "a" 10 0 1)) (Some (point "b" 0 0 1))
                 (Some (point "c" 0 10 1))
  = Fin (Rangle 10 0 0 0 0 10)
  /\ calculateAngle (Some (point "a" 10 0 1)) (Some (point "b" 0 0 1))
                    (Some (point "c" 0 0 1))
     = Fin 0
  /\ calculateAngle (Some (mkKeypoint "a" NaN (Fin 0) (Fin 1)))
                    (Some (point "b" 0 0 1)) (Some (point "c" 0 10 1))
     = Fin 0.
Proof.
  split; [| split].
  - destruct (calculateAngle_spec "a" "b" "c" 10 0 0 0 0 10 (Fin 1) (Fin 1) (Fin 1))
      as (_ & H & _).
    apply H; apply Rdist_ge_1; lra.
  - destruct (calculateAngle_spec "a" "b" "c" 10 0 0 0 0 0 (Fin 1) (Fin 1) (Fin 1))
      as (_ & _ & H & _).
    apply H. right. apply Rdist_lt_1. lra.
  - destruct (calculateAngle_spec "a" "b" "c" 0 0 0 0 0 0 (Fin 1) (Fin 1) (Fin 1))
      as (_ & _ & _ & H).
    apply H. reflexivity.
Defined.

(** C7, counterexample to the claim as stated: p1 and p3 are half a
    pixel apart, yet the angle is not 0. *)
Lemma calculateAngle_ignores_p1_p3_distance :
  Rdist 10 0 10 (1 / 2) < 1
  /\ calculateAngle (Some (point "p1" 10 0 1)) (Some (point "p2" 0 0 1))
                    (Some (point "p3" 10 (1 / 2) 1))
     <> Fin 0.
Proof.
  split.
  - apply Rdist_lt_1. lra.
  - unfold point. rewrite calculateAngle_separated by (apply Rdist_ge_1; lra).
    intros H. injection H as H. revert H. unfold Rangle.
    rewrite !Ratan2_right by lra.
    replace ((0 - 0) / (10 - 0)) with 0 by lra. rewrite atan_0.
    pose proof PI_RGT_0 as Hpi.
    assert (Hpos : 0 < atan ((1 / 2 - 0) / (10 - 0))).
    { pose proof (atan_increasing 0 ((1 / 2 - 0) / (10 - 0))) as Hi.
      rewrite atan_0 in Hi. apply Hi. lra. }
    set (a := atan ((1 / 2 - 0) / (10 - 0))) in *.
    assert (0 < (a - 0) * 180 / PI).
    { apply Rdiv_pos_pos; lra. }
    rewrite Rabs_pos_eq by lra. lra.
Qed.

(** ** Hip drive *)

Lemma lt_sub_nonpositive (a b : num) :
  (a <' b) = true -> (a -' b <=' Fin 0) = true.
Proof.
  destruct a, b; simpl; try discriminate; try reflexivity.
  unfold Rltb, Rleb. destruct (Rlt_dec r r0); [| discriminate].
  intros _. destruct (Rle_dec (r + - r0) 0); [reflexivity | lra].
Qed.

(** C2.  When the right shoulder, hip, knee and ankle are all detected
    with confidence above 0.3 and the shoulder's y is less than the
    ankle's y, the hip-drive result is the default: angle 0, score 0.3,
    whatever the other coordinates and the width are. *)
Theorem hipDrive_default_in_upright_orientation
  (pose : Pose) (shoulder hip knee ankle : Keypoint) :
  findKeypoint "right_shoulder" pose = Some shoulder ->
  findKeypoint "right_hip" pose = Some hip ->
  findKeypoint "right_knee" pose = Some knee ->
  findKeypoint "right_ankle" pose = Some ankle ->
  (kp_score shoulder >' Fin (3 / 10)) = true ->
  (kp_score hip >' Fin (3 / 10)) = true ->
  (kp_score knee >' Fin (3 / 10)) = true ->
  (kp_score ankle >' Fin (3 / 10)) = true ->
  (kp_y shoulder <' kp_y ankle) = true ->
  analyzeHipDrive pose = {| angle := Fin 0; score := Fin (3 / 10) |}.
Proof.
  intros Hs Hh Hk Ha Cs Ch Ck Ca Hlt.
  unfold analyzeHipDrive. rewrite Hs, Hh, Hk, Ha.
  unfold forallb, confident, KEYPOINT_CONFIDENCE_THRESHOLD.
  rewrite Cs, Ch, Ck, Ca. cbn [andb negb Y].
  rewrite (lt_sub_nonpositive _ _ Hlt). reflexivity.
Qed.

Lemma confident_point (name : string) (x y : R) :
  (kp_score (point name x y (9 / 10)) >' Fin (3 / 10)) = true.
Proof. apply Rltb_true. lra. Qed.

(** The statement above at an upright pose: shoulder at y = 50, hip at
    100, knee at 150, ankle at 200. *)
Lemma hipDrive_default_in_upright_orientation_witness :
  analyzeHipDrive (rightSide 100 50 100 100 100 150 100 200 200)
  = {| angle := Fin 0; score := Fin (3 / 10) |}.
Proof.
  apply (hipDrive_default_in_upright_orientation
           (rightSide 100 50 100 100 100 150 100 200 200)
           (point "right_shoulder" 100 50 (9 / 10))
           (point "right_hip" 100 100 (9 / 10))
           (point "right_knee" 100 150 (9 / 10))
           (point "right_ankle" 100 200 (9 / 10)));
    try reflexivity; try apply confident_point.
  apply Rltb_true. lra.
Defined.

Lemma isValidScore_within (a : num) : isValidScore a = true -> within 0 1 a.
Proof.
  unfold isValidScore. destruct a; simpl; try discriminate.
  unfold Rleb. destruct (Rle_dec 0 r), (Rle_dec r 1); simpl; try discriminate.
  intros _. exists r. split; [reflexivity | lra].
Qed.

Lemma isValidScore_Fin (r : R) : isValidScore (Fin r) = Rleb 0 r && Rleb r 1.
Proof. reflexivity. Qed.

Lemma safeScore_within (a : num) (d : R) :
  0 <= d <= 1 -> within 0 1 (safeScore a (Fin d)).
Proof.
  intros Hd. unfold safeScore. destruct (isValidScore a) eqn:Hv.
  - now apply isValidScore_within.
  - exists d. split; [reflexivity | exact Hd].
Qed.

Lemma analyzeHipDrive_score_valid (pose : Pose) :
  within 0 1 (score (analyzeHipDrive pose)).
Proof.
  assert (Hd : within 0 1 DEFAULT_HIP_DRIVE).
  { exists (3 / 10). split; [reflexivity | lra]. }
  unfold analyzeHipDrive.
  destruct (negb (forallb confident _)); [exact Hd |].
  destruct (_ <=' Fin 0); [exact Hd |].
  cbn [score]. apply safeScore_within. lra.
Qed.

Lemma analyzeHipDrive_unconfident (pose : Pose) :
  confident (findKeypoint "right_shoulder" pose)
  && confident (findKeypoint "right_hip" pose)
  && confident (findKeypoint "right_knee" pose)
  && confident (findKeypoint "right_ankle" pose) = false ->
  analyzeHipDrive pose = hipDriveDefault.
Proof.
  intros H. unfold analyzeHipDrive.
  replace (forallb confident _) with false; [reflexivity |].
  symmetry. cbn [forallb]. rewrite andb_true_r, !andb_assoc. exact H.
Qed.

Section HipDriveFinite.

Variables (pose : Pose) (ns nh nk na : string).
Variables (sx sy hx hy kx ky ax ay : R) (cs ch ck ca : num).

Let shoulder := mkKeypoint ns (Fin sx) (Fin sy) cs.
Let hip := mkKeypoint nh (Fin hx) (Fin hy) ch.
Let knee := mkKeypoint nk (Fin kx) (Fin ky) ck.
Let ankle := mkKeypoint na (Fin ax) (Fin ay) ca.

Hypothesis Hs : findKeypoint "right_shoulder" pose = Some shoulder.
Hypothesis Hh : findKeypoint "right_hip" pose = Some hip.
Hypothesis Hk : findKeypoint "right_knee" pose = Some knee.
Hypothesis Ha : findKeypoint "right_ankle" pose = Some ankle.
Hypothesis Cs : (cs >' Fin (3 / 10)) = true.
Hypothesis Ch : (ch >' Fin (3 / 10)) = true.
Hypothesis Ck : (ck >' Fin (3 / 10)) = true.
Hypothesis Ca : (ca >' Fin (3 / 10)) = true.

Lemma analyzeHipDrive_level : sy <= ay -> analyzeHipDrive pose = hipDriveDefault.
Proof.
  intros Hle. unfold analyzeHipDrive. rewrite Hs, Hh, Hk, Ha.
  unfold forallb, confident, KEYPOINT_CONFIDENCE_THRESHOLD, shoulder, hip, knee, ankle.
  cbn [kp_score kp_x kp_y]. rewrite Cs, Ch, Ck, Ca.
  cbn [andb negb Y kp_y JS.sub JS.neg JS.add JS.le].
  rewrite Rleb_true by lra. reflexivity.
Qed.

Lemma analyzeHipDrive_formula (w trunk : R) :
  ay < sy -> width pose = Fin w -> w <> 0 ->
  calculateAngle (Some shoulder) (Some hip) (Some knee) = Fin trunk ->
  analyzeHipDrive pose
  = {| angle := Fin trunk;
       score :=
         let c := hipDriveCombination sy hy ay hx ax w trunk in
         if Rleb 0 c && Rleb c 1 then Fin c else Fin (3 / 10) |}.
Proof.
  intros Hlt Hw Hw0 Hangle. unfold analyzeHipDrive. rewrite Hs, Hh, Hk, Ha, Hangle, Hw.
  unfold forallb, confident, KEYPOINT_CONFIDENCE_THRESHOLD, shoulder, hip, knee, ankle.
  cbn [kp_score kp_x kp_y]. rewrite Cs, Ch, Ck, Ca.
  cbn [andb negb X Y kp_x kp_y JS.sub JS.neg JS.add JS.le JS.abs].
  rewrite Rleb_false by lra.
  unfold JS.div. rewrite !Reqb_false by lra.
  rewrite !min_Fin, !max_Fin.
  cbn [JS.sub JS.neg JS.add JS.mul].
  unfold safeScore, DEFAULT_HIP_DRIVE. rewrite isValidScore_Fin.
  unfold hipDriveCombination, Rclamp, Rminus. reflexivity.
Qed.

Lemma analyzeHipDrive_zero_width :
  ay < sy -> width pose = Fin 0 \/ width pose = NaN ->
  score (analyzeHipDrive pose) = Fin (3 / 10).
Proof.
  intros Hlt Hw. unfold analyzeHipDrive. rewrite Hs, Hh, Hk, Ha.
  unfold forallb, confident, KEYPOINT_CONFIDENCE_THRESHOLD, shoulder, hip, knee, ankle.
  cbn [kp_score kp_x kp_y]. rewrite Cs, Ch, Ck, Ca.
  cbn [andb negb X Y kp_x kp_y JS.sub JS.neg JS.add JS.le JS.abs].
  rewrite Rleb_false by lra. cbn [score].
  destruct (calculateAngle_finite_range ns nh nk sx sy hx hy kx ky cs ch ck)
    as (trunk & -> & _).
  destruct Hw as [-> | ->].
  - unfold JS.div.
    rewrite (Reqb_false (ay + - sy) 0), (Reqb_false 180 0) by lra.
    rewrite (Reqb_true 0 0) by reflexivity.
    rewrite !min_Fin, !max_Fin.
    assert (Hp : inf_times (2 / 10) = PInf).
    { unfold inf_times. now rewrite Rltb_true by lra. }
    unfold inf_times at 1, Rltb.
    destruct (Rlt_dec 0 (Rabs (hx + - ax))).
    + cbn [JS.sub JS.neg JS.add JS.mul]. rewrite Hp. reflexivity.
    + destruct (Rlt_dec (Rabs (hx + - ax)) 0).
      * cbn [JS.sub JS.neg JS.add JS.mul]. rewrite Hp. reflexivity.
      * reflexivity.
  - unfold JS.div.
    rewrite (Reqb_false (ay + - sy) 0), (Reqb_false 180 0) by lra.
    rewrite !min_Fin, !max_Fin. reflexivity.
Qed.

End HipDriveFinite.

(** C1 (as amended).  The hip-drive score is always a number in [0, 1].
    It is the default 0.3, with angle 0, when one of the right shoulder,
    hip, knee and ankle is missing or has confidence not above 0.3, and
    when all four are confident and the shoulder's y equals the ankle's
    y.  When all four are confident with finite coordinates, the
    shoulder's y is greater than the ankle's y and the width is finite
    and not zero, the angle is the trunk angle and the score is
    c = 0.5 progress + 0.3 clamp(trunkAngle / 180, 0, 1)
        + 0.2 (1 - misalignment)
    when c lies in [0, 1] and the default 0.3 otherwise; with width zero
    or not a number the score is 0.3.  (Nothing is said here about a
    shoulder whose y is less than the ankle's.) *)
Theorem hipDrive_score_spec (pose : Pose) :
  within 0 1 (score (analyzeHipDrive pose))
  /\ (confident (findKeypoint "right_shoulder" pose)
      && confident (findKeypoint "right_hip" pose)
      && confident (findKeypoint "right_knee" pose)
      && confident (findKeypoint "right_ankle" pose) = false ->
      analyzeHipDrive pose = {| angle := Fin 0; score := Fin (3 / 10) |})
  /\ (forall (ns nh nk na : string) (sx sy hx hy kx ky ax ay : R)
             (cs ch ck ca : num),
         let shoulder := mkKeypoint ns (Fin sx) (Fin sy) cs in
         let hip := mkKeypoint nh (Fin hx) (Fin hy) ch in
         let knee := mkKeypoint nk (Fin kx) (Fin ky) ck in
         let ankle := mkKeypoint na (Fin ax) (Fin ay) ca in
         findKeypoint "right_shoulder" pose = Some shoulder ->
         findKeypoint "right_hip" pose = Some hip ->
         findKeypoint "right_knee" pose = Some knee ->
         findKeypoint "right_ankle" pose = Some ankle ->
         (cs >' Fin (3 / 10)) = true -> (ch >' Fin (3 / 10)) = true ->
         (ck >' Fin (3 / 10)) = true -> (ca >' Fin (3 / 10)) = true ->
         (sy = ay ->
          analyzeHipDrive pose = {| angle := Fin 0; score := Fin (3 / 10) |})
         /\ (ay < sy ->
             (width pose = Fin 0 \/ width pose = NaN ->
              score (analyzeHipDrive pose) = Fin (3 / 10))
             /\ (forall w, width pose = Fin w -> w <> 0 ->
                 exists trunk,
                   calculateAngle (Some shoulder) (Some hip) (Some knee) = Fin trunk
                   /\ 0 <= trunk <= 360
                   /\ angle (analyzeHipDrive pose) = Fin trunk
                   /\ let c := hipDriveCombination sy hy ay hx ax w trunk in
                      (0 <= c <= 1 -> score (analyzeHipDrive pose) = Fin c)
                      /\ (c < 0 \/ 1 < c ->
                          score (analyzeHipDrive pose) = Fin (3 / 10))))).
Proof.
  split; [apply analyzeHipDrive_score_valid |].
  split; [apply analyzeHipDrive_unconfident |].
  intros ns nh nk na sx sy hx hy kx ky ax ay cs ch ck ca shoulder hip knee ankle
         Hs Hh Hk Ha Cs Ch Ck Ca.
  split.
  - intros Heq.
    apply (analyzeHipDrive_level pose ns nh nk na sx sy hx hy kx ky ax ay
             cs ch ck ca Hs Hh Hk Ha Cs Ch Ck Ca). lra.
  - intros Hlt. split.
    + apply (analyzeHipDrive_zero_width pose ns nh nk na sx sy hx hy kx ky ax ay
               cs ch ck ca Hs Hh Hk Ha Cs Ch Ck Ca Hlt).
    + intros w Hw Hw0.
      destruct (calculateAngle_finite_range ns nh nk sx sy hx hy kx ky cs ch ck)
        as (trunk & Htrunk & Hrange).
      exists trunk. split; [exact Htrunk |]. split; [exact Hrange |].
      rewrite (analyzeHipDrive_formula pose ns nh nk na sx sy hx hy kx ky ax ay
                 cs ch ck ca Hs Hh Hk Ha Cs Ch Ck Ca w trunk Hlt Hw Hw0 Htrunk).
      cbn [angle score]. split; [reflexivity |].
      set (c := hipDriveCombination sy hy ay hx ax w trunk). split.
      * intros [H0 H1]. now rewrite !Rleb_true.
      * intros [H | H].
        -- now rewrite (Rleb_false 0 c).
        -- rewrite (Rleb_false c 1) by assumption. now rewrite andb_false_r.
Qed.

Lemma Ratan2_left_up (y x : R) :
  x < 0 -> 0 <= y -> Ratan2 y x = atan (y / x) + PI.
Proof.
  intros Hx Hy. unfold Ratan2.
  now rewrite (Rltb_false 0 x), (Rltb_true x 0), (Rleb_true 0 y) by lra.
Qed.

Lemma Ratan2_left_down (y x : R) :
  x < 0 -> y < 0 -> Ratan2 y x = atan (y / x) - PI.
Proof.
  intros Hx Hy. unfold Ratan2.
  now rewrite (Rltb_false 0 x), (Rltb_true x 0), (Rleb_false 0 y) by lra.
Qed.

Lemma Rclamp_above (lo hi x : R) : lo <= hi -> hi <= x -> Rclamp lo hi x = hi.
Proof.
  intros H1 H2. unfold Rclamp. rewrite Rmin_left by lra. now rewrite Rmax_right.
Qed.

Lemma Rclamp_inside (lo hi x : R) : lo <= x <= hi -> Rclamp lo hi x = x.
Proof.
  intros H. unfold Rclamp. rewrite Rmin_right by lra. now rewrite Rmax_right by lra.
Qed.

Lemma invertedPose_trunk_angle : Rangle 90 90 100 100 90 110 = 270.
Proof.
  pose proof PI_RGT_0 as Hpi. unfold Rangle.
  rewrite Ratan2_left_up, Ratan2_left_down by lra.
  replace ((110 - 100) / (90 - 100)) with (Ropp 1) by lra.
  replace ((90 - 100) / (90 - 100)) with 1 by lra.
  rewrite atan_opp, atan_1.
  replace ((- (PI / 4) + PI - (PI / 4 - PI)) * 180 / PI) with 270 by (field; lra).
  apply Rabs_pos_eq. lra.
Qed.

Lemma invertedPose_angle :
  calculateAngle (Some (point "right_shoulder" 90 90 (9 / 10)))
                 (Some (point "right_hip" 100 100 (9 / 10)))
                 (Some (point "right_knee" 90 110 (9 / 10)))
  = Fin 270.
Proof.
  unfold point. rewrite calculateAngle_separated by (apply Rdist_ge_1; lra).
  now rewrite invertedPose_trunk_angle.
Qed.

Lemma invertedPose_combination :
  hipDriveCombination 90 100 50 100 100 200 270 = 1.
Proof.
  unfold hipDriveCombination.
  rewrite !Rclamp_above by lra.
  replace (100 - 100) with 0 by lra. rewrite Rabs_R0. lra.
Qed.

Lemma invertedPose_hipDrive :
  analyzeHipDrive invertedPose = {| angle := Fin 270; score := Fin 1 |}.
Proof.
  rewrite (analyzeHipDrive_formula invertedPose
             "right_shoulder" "right_hip" "right_knee" "right_ankle"
             90 90 100 100 90 110 100 50
             (Fin (9 / 10)) (Fin (9 / 10)) (Fin (9 / 10)) (Fin (9 / 10)))
    with (w := 200) (trunk := 270);
    try reflexivity; try (apply Rltb_true; lra); try lra.
  - cbv zeta. rewrite invertedPose_combination.
    now rewrite !Rleb_true by lra.
  - apply invertedPose_angle.
Qed.

(** The statement of [hipDrive_score_spec] at a pose without keypoints,
    at a pose with shoulder and ankle level, and at [invertedPose]. *)
Lemma hipDrive_score_spec_witness :
  analyzeHipDrive emptyPose = {| angle := Fin 0; score := Fin (3 / 10) |}
  /\ analyzeHipDrive (rightSide 100 100 100 150 100 120 100 100 200)
     = {| angle := Fin 0; score := Fin (3 / 10) |}
  /\ score (analyzeHipDrive invertedPose) = Fin 1.
Proof.
  split; [| split].
  - destruct (hipDrive_score_spec emptyPose) as (_ & H & _).
    apply H. reflexivity.
  - destruct (hipDrive_score_spec (rightSide 100 100 100 150 100 120 100 100 200))
      as (_ & _ & H).
    destruct (H "right_shoulder" "right_hip" "right_knee" "right_ankle"
                100 100 100 150 100 120 100 100
                (Fin (9 / 10)) (Fin (9 / 10)) (Fin (9 / 10)) (Fin (9 / 10)))
      as (Hlevel & _);
      try reflexivity; try (apply Rltb_true; lra).
    apply Hlevel. reflexivity.
  - destruct (hipDrive_score_spec invertedPose) as (_ & _ & H).
    destruct (H "right_shoulder" "right_hip" "right_knee" "right_ankle"
                90 90 100 100 90 110 100 50
                (Fin (9 / 10)) (Fin (9 / 10)) (Fin (9 / 10)) (Fin (9 / 10)))
      as (_ & Hgt);
      try reflexivity; try (apply Rltb_true; lra).
    destruct Hgt as (_ & Hform); [lra |].
    destruct (Hform 200) as (trunk & Htrunk & _ & _ & Hin & _);
      [reflexivity | lra |].
    fold (point "right_shoulder" 90 90 (9 / 10)) in Htrunk.
    fold (point "right_hip" 100 100 (9 / 10)) in Htrunk.
    fold (point "right_knee" 90 110 (9 / 10)) in Htrunk.
    rewrite invertedPose_angle in Htrunk. injection Htrunk as <-.
    rewrite invertedPose_combination in Hin. apply Hin. lra.
Defined.

(** C1, counterexample to the claim as stated: at [invertedPose] the
    four landmarks are confident, shoulder and ankle are not level, the
    trunk angle is 270 degrees and the claimed combination is the finite
    number 1.15, yet the score is 1: the trunk-angle term is clamped. *)
Lemma hipDrive_clamps_trunk_term :
  calculateAngle (findKeypoint "right_shoulder" invertedPose)
                 (findKeypoint "right_hip" invertedPose)
                 (findKeypoint "right_knee" invertedPose)
  = Fin 270
  /\ specHipDriveCombination 90 100 50 100 100 200 270 = 115 / 100
  /\ analyzeHipDrive invertedPose = {| angle := Fin 270; score := Fin 1 |}
  /\ score (analyzeHipDrive invertedPose)
     <> Fin (specHipDriveCombination 90 100 50 100 100 200 270).
Proof.
  assert (Hspec : specHipDriveCombination 90 100 50 100 100 200 270 = 115 / 100).
  { unfold specHipDriveCombination.
    rewrite Rclamp_above by lra.
    replace (100 - 100) with 0 by lra. rewrite Rabs_R0. lra. }
  split; [| split; [| split]].
  - apply invertedPose_angle.
  - exact Hspec.
  - apply invertedPose_hipDrive.
  - rewrite invertedPose_hipDrive, Hspec. cbn [score].
    intros H. injection H as H. lra.
Qed.

(** ** Landmarks below the confidence threshold *)

Lemma Ratan2_down (y : R) : y < 0 -> Ratan2 y 0 = - (PI / 2).
Proof.
  intros H. unfold Ratan2.
  rewrite (Rltb_false 0 0), (Rltb_false 0 y), Rltb_true by lra. reflexivity.
Qed.

Lemma straight_angle (x y0 y1 y2 : R) :
  y0 < y1 -> y1 < y2 -> Rangle x y0 x y1 x y2 = 180.
Proof.
  intros H01 H12. pose proof PI_RGT_0 as Hpi. unfold Rangle.
  replace (x - x) with 0 by lra.
  rewrite Ratan2_up, Ratan2_down by lra.
  replace ((PI / 2 - - (PI / 2)) * 180 / PI) with 180 by (field; lra).
  apply Rabs_pos_eq. lra.
Qed.

Lemma lowConfidence_knee_angle :
  calculateAngle (Some (point "right_hip" 0 10 (1 / 10)))
                 (Some (point "right_knee" 0 20 (1 / 10)))
                 (Some (point "right_ankle" 0 30 (1 / 10)))
  = Fin 180.
Proof.
  unfold point. rewrite calculateAngle_separated by (apply Rdist_ge_1; lra).
  now rewrite straight_angle by lra.
Qed.

(** C4, the code at a pose whose right shoulder, hip, knee and ankle all
    have confidence 0.1: hip control treats them as unavailable and
    returns angle 0 and score 0, but knee flexion and knee extension
    measure an angle of 180 degrees and return score 1, and stability
    returns score 1. *)
Theorem subthreshold_landmarks_are_measured :
  confident (findKeypoint "right_shoulder" lowConfidencePose) = false
  /\ confident (findKeypoint "right_hip" lowConfidencePose) = false
  /\ confident (findKeypoint "right_knee" lowConfidencePose) = false
  /\ confident (findKeypoint "right_ankle" lowConfidencePose) = false
  /\ analyzeHipControl lowConfidencePose = {| angle := Fin 0; score := Fin 0 |}
  /\ analyzeKneeFlexion lowConfidencePose = {| angle := Fin 180; score := Fin 1 |}
  /\ analyzeKneeExtension lowConfidencePose = {| angle := Fin 180; score := Fin 1 |}
  /\ stability_score (analyzeStability lowConfidencePose) = Fin 1.
Proof.
  assert (Hc : forall name x y,
             confident (Some (point name x y (1 / 10))) = false).
  { intros. apply Rltb_false. lra. }
  repeat split.
  - apply Hc.
  - apply Hc.
  - apply Hc.
  - apply Hc.
  - unfold analyzeHipControl.
    replace (confident (findKeypoint "right_shoulder" lowConfidencePose))
      with false by (symmetry; apply Hc).
    reflexivity.
  - unfold analyzeKneeFlexion.
    change (findKeypoint "right_hip" lowConfidencePose)
      with (Some (point "right_hip" 0 10 (1 / 10))).
    change (findKeypoint "right_knee" lowConfidencePose)
      with (Some (point "right_knee" 0 20 (1 / 10))).
    change (findKeypoint "right_ankle" lowConfidencePose)
      with (Some (point "right_ankle" 0 30 (1 / 10))).
    cbn [truthy andb]. rewrite lowConfidence_knee_angle.
    cbn [JS.gt JS.lt]. now rewrite Rltb_true by lra.
  - unfold analyzeKneeExtension.
    change (findKeypoint "right_hip" lowConfidencePose)
      with (Some (point "right_hip" 0 10 (1 / 10))).
    change (findKeypoint "right_knee" lowConfidencePose)
      with (Some (point "right_knee" 0 20 (1 / 10))).
    change (findKeypoint "right_ankle" lowConfidencePose)
      with (Some (point "right_ankle" 0 30 (1 / 10))).
    cbn [truthy andb]. rewrite lowConfidence_knee_angle.
    cbn [JS.gt JS.lt]. now rewrite Rltb_true by lra.
  - unfold analyzeStability.
    change (findKeypoint "right_hip" lowConfidencePose)
      with (Some (point "right_hip" 0 10 (1 / 10))).
    change (findKeypoint "right_shoulder" lowConfidencePose)
      with (Some (point "right_shoulder" 0 0 (1 / 10))).
    change (findKeypoint "right_ankle" lowConfidencePose)
      with (Some (point "right_ankle" 0 30 (1 / 10))).
    unfold point.
    cbn [kp_x stability_score JS.sub JS.neg JS.add JS.abs].
    unfold JS.div. rewrite Reqb_false by lra.
    cbn [JS.sub JS.neg JS.add]. rewrite max_Fin. f_equal.
    replace (0 + - 0) with 0 by lra. rewrite Rabs_R0.
    rewrite Rmax_right; lra.
Qed.

(** ** Missing landmarks *)

(** A landmark that is absent from the pose makes every per-frame
    metric that requires it return score 0, and hip control returns
    score 0 as well when a landmark it requires is not confident. *)
Lemma metrics_zero_when_landmark_missing (pose : Pose) :
  let shoulder := findKeypoint "right_shoulder" pose in
  let hip := findKeypoint "right_hip" pose in
  let knee := findKeypoint "right_knee" pose in
  let ankle := findKeypoint "right_ankle" pose in
  (hip = None \/ knee = None \/ ankle = None ->
   analyzeKneeFlexion pose = zeroMetric /\ analyzeKneeExtension pose = zeroMetric)
  /\ (shoulder = None \/ hip = None \/ knee = None ->
      analyzeSpinalAlignment pose = zeroMetric)
  /\ (confident shoulder && confident hip && confident knee = false ->
      analyzeHipControl pose = zeroMetric)
  /\ (ankle = None \/ hip = None \/ shoulder = None ->
      analyzeStability pose = {| deviation := Fin 0; stability_score := Fin 0 |}).
Proof.
  intros shoulder hip knee ankle.
  unfold analyzeKneeFlexion, analyzeKneeExtension, analyzeSpinalAlignment,
    analyzeHipControl, analyzeStability.
  subst shoulder hip knee ankle.
  split; [| split; [| split]].
  - destruct (findKeypoint "right_hip" pose), (findKeypoint "right_knee" pose),
      (findKeypoint "right_ankle" pose);
      intros H; try (split; reflexivity); intuition discriminate.
  - destruct (findKeypoint "right_shoulder" pose), (findKeypoint "right_hip" pose),
      (findKeypoint "right_knee" pose);
      intros H; try reflexivity; intuition discriminate.
  - intros ->. reflexivity.
  - destruct (findKeypoint "right_ankle" pose), (findKeypoint "right_hip" pose),
      (findKeypoint "right_shoulder" pose);
      intros H; try reflexivity; intuition discriminate.
Qed.

(** ** Undetected frames *)

(** C3, the code at a run of 25 sampled frames of which the first
    yields no detection: the 25 results, the undefined one included, pass
    the minimum-frames test; the transition scan then reads a property
    of the undefined entry, and the run fails although 24 poses are
    usable.  (A run of 15 frames, all detected, raises the
    insufficient-frames error, which the enclosing handler replaces by
    the general failure.) *)
Theorem undetected_frame_fails_the_run :
  List.length (usablePoses detectorOfRun framesOfRun) = 24%nat
  /\ List.length (map detectorOfRun framesOfRun) = 25%nat
  /\ nth_error (map detectorOfRun framesOfRun) 0 = Some None
  /\ analysisBody detectorOfRun framesOfRun = inl TypeError
  /\ analyzeSRTVideo detectorOfRun framesOfRun
     = inl (Error "Failed to analyze video")
  /\ List.length (usablePoses detectorOfShortRun framesOfShortRun) = 15%nat
  /\ analysisBody detectorOfShortRun framesOfShortRun
     = inl (Error "Insufficient frames for analysis. Minimum required: 20")
  /\ analyzeSRTVideo detectorOfShortRun framesOfShortRun
     = inl (Error "Failed to analyze video").
Proof.
  repeat split; reflexivity.
Qed.

(** *** When a run fails *)

Lemma hipAt_inr (poses : list (option Pose)) (i : nat) (hip : option Keypoint) :
  hipAt poses i = inr hip -> exists p, nth_error poses i = Some (Some p).
Proof.
  unfold hipAt. destruct (nth_error poses i) as [[p |] |]; simpl; try discriminate.
  intros _. now exists p.
Qed.

Lemma hipAt_error (poses : list (option Pose)) (i : nat) (e : exn) :
  hipAt poses i = inl e -> e = TypeError.
Proof.
  unfold hipAt, deref, bind, throw, ret.
  destruct (nth_error poses i) as [[p |] |]; try discriminate; congruence.
Qed.

Lemma scanStep_inr (poses : list (option Pose)) (st st' : ScanState) (i : nat) :
  scanStep poses st i = inr st' ->
  forall j, (j = i - 1 \/ j = i \/ j = i + 1)%nat ->
            exists p, nth_error poses j = Some (Some p).
Proof.
  unfold scanStep.
  destruct (hipAt poses (i - 1)) as [e1 | h1] eqn:H1; simpl; [discriminate |].
  destruct (hipAt poses i) as [e2 | h2] eqn:H2; simpl; [discriminate |].
  destruct (hipAt poses (i + 1)) as [e3 | h3] eqn:H3; simpl; [discriminate |].
  intros _ j [-> | [-> | ->]]; eauto using hipAt_inr.
Qed.

Lemma scanStep_error (poses : list (option Pose)) (st : ScanState) (i : nat) (e : exn) :
  scanStep poses st i = inl e -> e = TypeError.
Proof.
  unfold scanStep.
  destruct (hipAt poses (i - 1)) as [e1 | h1] eqn:H1; simpl.
  { intros H. injection H as <-. eauto using hipAt_error. }
  destruct (hipAt poses i) as [e2 | h2] eqn:H2; simpl.
  { intros H. injection H as <-. eauto using hipAt_error. }
  destruct (hipAt poses (i + 1)) as [e3 | h3] eqn:H3; simpl.
  { intros H. injection H as <-. eauto using hipAt_error. }
  destruct (_ && _ && _); discriminate.
Qed.

Lemma scanLoop_error (poses : list (option Pose)) (indices : list nat) :
  forall (st : ScanState) (e : exn),
    scanLoop poses st indices = inl e -> e = TypeError.
Proof.
  induction indices as [| i rest IH]; intros st e; simpl; [discriminate |].
  destruct (scanStep poses st i) as [e1 | st1] eqn:H1; simpl.
  - intros H. injection H as <-. eauto using scanStep_error.
  - apply IH.
Qed.

Lemma scanLoop_inr (poses : list (option Pose)) (indices : list nat) :
  forall (st st' : ScanState),
    scanLoop poses st indices = inr st' ->
    forall i j, In i indices -> (j = i - 1 \/ j = i \/ j = i + 1)%nat ->
                exists p, nth_error poses j = Some (Some p).
Proof.
  induction indices as [| i0 rest IH]; intros st st' H i j Hin Hj;
    simpl in *; [contradiction |].
  destruct (scanStep poses st i0) as [e1 | st1] eqn:H1; simpl in H; [discriminate |].
  destruct Hin as [-> | Hin].
  - eapply scanStep_inr; eauto.
  - eapply IH; eauto.
Qed.

Lemma detectPhaseTransition_undetected (poses : list (option Pose)) :
  (3 <= List.length poses)%nat -> In None poses ->
  detectPhaseTransition poses = inl TypeError.
Proof.
  intros Hlen Hin. unfold detectPhaseTransition, scanHips.
  destruct (scanLoop poses _ (seq 1 (List.length poses - 2))) as [e | st] eqn:Hscan.
  - apply scanLoop_error in Hscan. now subst.
  - exfalso. apply In_nth_error in Hin. destruct Hin as [j Hj].
    assert (Hjn : (j < List.length poses)%nat).
    { apply nth_error_Some. congruence. }
    set (i := Nat.min (Nat.max j 1) (List.length poses - 2)).
    destruct (scanLoop_inr _ _ _ _ Hscan i j) as [p Hp].
    + apply in_seq. unfold i. lia.
    + unfold i. lia.
    + congruence.
Qed.

Lemma mapE_inr {A B : Type} (f : A -> result B) (l : list A) :
  (forall a, In a l -> exists b, f a = inr b) ->
  exists bs, mapE f l = inr bs /\ List.length bs = List.length l.
Proof.
  induction l as [| a l IH]; intros H; simpl.
  - now exists [].
  - destruct (H a) as [b ->]; [now left |]. simpl.
    destruct IH as (bs & -> & Hlen); [intros; apply H; now right |]. simpl.
    exists (b :: bs). split; [reflexivity | simpl; congruence].
Qed.

Lemma allDetected_In (poses : list (option Pose)) :
  allDetected poses <-> ~ In None poses.
Proof.
  unfold allDetected. rewrite Forall_forall. split.
  - intros H Hin. now apply (H None).
  - intros H pose Hin ->. contradiction.
Qed.

Lemma allDetected_sublist (poses part : list (option Pose)) :
  allDetected poses -> incl part poses -> allDetected part.
Proof.
  unfold allDetected. rewrite !Forall_forall. intros H Hincl pose Hin.
  apply H, Hincl, Hin.
Qed.

Lemma slice_incl {A : Type} (arr : list A) (start stop : Z) :
  incl (slice arr start stop) arr.
Proof.
  unfold slice. intros a Hin.
  set (k := Z.to_nat (relativeIndex (Z.of_nat (List.length arr)) start)) in *.
  set (m := Z.to_nat _) in Hin.
  rewrite <- (firstn_skipn k arr). apply in_or_app. right.
  rewrite <- (firstn_skipn m (skipn k arr)). apply in_or_app. now left.
Qed.

Lemma analyzeSittingPhase_detected (poses : list (option Pose)) :
  allDetected poses ->
  exists frames, analyzeSittingPhase poses = inr frames
                 /\ List.length frames = List.length poses.
Proof.
  intros Hall. apply mapE_inr. intros [p |] Hin.
  - simpl. eauto.
  - apply allDetected_In in Hall. contradiction.
Qed.

Lemma analyzeRisingPhase_detected (poses : list (option Pose)) :
  allDetected poses ->
  exists frames, analyzeRisingPhase poses = inr frames
                 /\ List.length frames = List.length poses.
Proof.
  intros Hall. apply mapE_inr. intros [p |] Hin.
  - simpl. eauto.
  - apply allDetected_In in Hall. contradiction.
Qed.

Lemma detectSupportPoints_detected (poses : list (option Pose)) :
  allDetected poses ->
  exists supportPoints, mapE detectSupportPoints poses = inr supportPoints
                        /\ List.length supportPoints = List.length poses.
Proof.
  intros Hall. apply mapE_inr. intros [p |] Hin.
  - unfold detectSupportPoints. simpl. eauto.
  - apply allDetected_In in Hall. contradiction.
Qed.

(** A run fails in exactly two ways: with the insufficient-frames error
    when fewer than 20 frames were sampled, and with a [TypeError] when
    at least 20 were sampled and some frame yielded no detection.  In
    every other case it returns a report. *)
Lemma analysisBody_outcome (detector : FramePath -> option Pose)
  (frames : list FramePath) :
  ((List.length frames < 20)%nat ->
   analysisBody detector frames
   = inl (Error "Insufficient frames for analysis. Minimum required: 20"))
  /\ ((20 <= List.length frames)%nat ->
      In None (map detector frames) ->
      analysisBody detector frames = inl TypeError)
  /\ ((20 <= List.length frames)%nat ->
      ~ In None (map detector frames) ->
      exists report, analysisBody detector frames = inr report).
Proof.
  unfold analysisBody, minFramesPerPhase. rewrite length_map.
  change (10 * 2)%nat with 20%nat.
  split; [| split].
  - intros H. destruct (Nat.ltb_spec (List.length frames) 20); [reflexivity | lia].
  - intros H Hin. destruct (Nat.ltb_spec (List.length frames) 20); [lia |].
    rewrite detectPhaseTransition_undetected; [reflexivity | | exact Hin].
    rewrite length_map. lia.
  - intros H Hall. destruct (Nat.ltb_spec (List.length frames) 20); [lia |].
    apply allDetected_In in Hall.
    destruct (phase_slices_detected (map detector frames)) as (t & ->).
    { rewrite length_map. lia. }
    { exact Hall. }
    simpl.
    destruct (analyzeSittingPhase_detected
                (sittingSlice (map detector frames) t)) as (sit & -> & _).
    { eapply allDetected_sublist; [exact Hall | apply slice_incl]. }
    simpl.
    destruct (analyzeRisingPhase_detected
                (risingSlice (map detector frames) t)) as (rise & -> & _).
    { eapply allDetected_sublist; [exact Hall | apply slice_incl]. }
    simpl.
    destruct (detectSupportPoints_detected (map detector frames) Hall)
      as (sp & -> & _).
    simpl. eauto.
Qed.

(** ** Composite indices *)

Lemma fold_add_Fin (l : list R) (acc : R) :
  fold_left JS.add (map Fin l) (Fin acc) = Fin (acc + Rsum l).
Proof.
  revert acc. induction l as [| r l IH]; intros acc; simpl.
  - f_equal. lra.
  - rewrite IH. f_equal. lra.
Qed.

Lemma filter_valid (l : list num) :
  Forall (fun a => isInfinite a = false) l ->
  filter (fun score => negb (isNaN score)) l = map Fin (finiteValues l).
Proof.
  induction 1 as [| a l Ha _ IH]; simpl; [reflexivity |].
  destruct a; simpl in *; try discriminate; congruence.
Qed.

Lemma clamp01_Fin (r : R) : clamp01 (Fin r) = Fin (Rclamp 0 1 r).
Proof. unfold clamp01. now rewrite min_Fin, max_Fin. Qed.

(** The mean of the valid entries of a pool without infinite entries. *)
Lemma safeAverage_closed (weighted : list num) :
  Forall (fun a => isInfinite a = false) weighted ->
  safeAverage weighted 3
  = Fin (if (3 <=? List.length (finiteValues weighted))%nat
         then Rsum (finiteValues weighted)
              / INR (List.length (finiteValues weighted))
         else 3 / 10).
Proof.
  intros H. unfold safeAverage. rewrite (filter_valid _ H).
  rewrite length_map.
  destruct (Nat.leb_spec 3 (List.length (finiteValues weighted))) as [Hn | Hn].
  - unfold average. rewrite fold_add_Fin, length_map.
    assert (Hpos : 3 <= INR (List.length (finiteValues weighted))).
    { replace 3 with (INR 3) by (simpl; lra). now apply le_INR. }
    unfold JS.div. rewrite Reqb_false by lra.
    do 2 f_equal. lra.
  - reflexivity.
Qed.

(** The index computed from a pool without infinite entries. *)
Lemma clamp01_safeAverage (weighted : list num) :
  Forall (fun a => isInfinite a = false) weighted ->
  clamp01 (safeAverage weighted 3) = Fin (pooledIndex weighted).
Proof.
  intros H. rewrite (safeAverage_closed _ H), clamp01_Fin. unfold pooledIndex.
  destruct (_ <=? _)%nat; [reflexivity |].
  now rewrite Rclamp_inside by lra.
Qed.

Lemma pooledIndex_range (weighted : list num) : 0 <= pooledIndex weighted <= 1.
Proof.
  unfold pooledIndex. destruct (_ <=? _)%nat.
  - apply Rclamp_bounds. lra.
  - lra.
Qed.

Lemma weighted_not_infinite (a : num) (w : R) :
  isInfinite a = false -> isInfinite (a *' Fin w) = false.
Proof. destruct a; simpl; congruence. Qed.

Lemma pool_not_infinite {A : Type} (f : A -> num) (w : R) (l : list A) :
  Forall (fun p => isInfinite (f p) = false) l ->
  Forall (fun a => isInfinite a = false) (map (fun p => f p *' Fin w) l).
Proof.
  intros H. apply Forall_map. eapply Forall_impl; [| exact H].
  intros p Hp. now apply weighted_not_infinite.
Qed.

(** C6 (as amended).  When no per-frame score is infinite, each
    composite index is the clamped mean of a pool of weighted per-frame
    scores, and lies in [0, 1]: postural control pools 1.3 x the
    spinal-alignment score of every sitting frame with 1.2 x the
    stability score of every rising frame; balance pools 1.4 x hip
    control (sitting frames) with 1.3 x stability (rising frames);
    coordination pools 1.1 x knee flexion (sitting frames) with 1.1 x knee
    extension and 1.2 x hip drive (rising frames).  NaN entries are left
    out of the pool, and the index is 0.3 when fewer than three entries of
    the pool are valid. *)
Theorem composite_indices_spec (sitting : list Frame.Sitting)
  (rising : list Frame.Rising) :
  Forall sittingScoresNotInfinite sitting ->
  Forall risingScoresNotInfinite rising ->
  let c := calculateComponentScores sitting rising in
  posturalControl c = Fin (pooledIndex (posturalPool sitting rising))
  /\ balance c = Fin (pooledIndex (balancePool sitting rising))
  /\ coordination c = Fin (pooledIndex (coordinationPool sitting rising))
  /\ within 0 1 (posturalControl c)
  /\ within 0 1 (balance c)
  /\ within 0 1 (coordination c).
Proof.
  intros Hs Hr c.
  assert (Hp : posturalControl c = Fin (pooledIndex (posturalPool sitting rising))).
  { apply clamp01_safeAverage. unfold posturalPool.
    apply Forall_app. split; apply pool_not_infinite.
    - eapply Forall_impl; [| exact Hs]. intros p Hq. apply Hq.
    - eapply Forall_impl; [| exact Hr]. intros p Hq. apply Hq. }
  assert (Hb : balance c = Fin (pooledIndex (balancePool sitting rising))).
  { apply clamp01_safeAverage. unfold balancePool.
    apply Forall_app. split; apply pool_not_infinite.
    - eapply Forall_impl; [| exact Hs]. intros p Hq. apply Hq.
    - eapply Forall_impl; [| exact Hr]. intros p Hq. apply Hq. }
  assert (Hc : coordination c = Fin (pooledIndex (coordinationPool sitting rising))).
  { apply clamp01_safeAverage. unfold coordinationPool.
    apply Forall_app. split; [| apply Forall_app; split]; apply pool_not_infinite.
    - eapply Forall_impl; [| exact Hs]. intros p Hq. apply Hq.
    - eapply Forall_impl; [| exact Hr]. intros p Hq. apply Hq.
    - eapply Forall_impl; [| exact Hr]. intros p Hq. apply Hq. }
  rewrite Hp, Hb, Hc.
  repeat split; try reflexivity;
    (eexists; split; [reflexivity | apply pooledIndex_range]).
Qed.

(** *** The per-frame scores of the analyses are never infinite *)

Lemma min_max_not_infinite (lo hi : R) (a : num) :
  isInfinite (JS.min (Fin hi) (JS.max (Fin lo) a)) = false.
Proof.
  destruct a; try reflexivity.
  - change (JS.max (Fin lo) NInf) with (Fin lo). now rewrite min_Fin.
  - now rewrite max_Fin, min_Fin.
Qed.

Lemma max_min_not_infinite (lo hi : R) (a : num) :
  isInfinite (JS.max (Fin lo) (JS.min (Fin hi) a)) = false.
Proof.
  destruct a; try reflexivity.
  - change (JS.min (Fin hi) PInf) with (Fin hi). now rewrite max_Fin.
  - now rewrite min_Fin, max_Fin.
Qed.

Lemma calculateAngle_not_infinite (p1 p2 p3 : option Keypoint) :
  isInfinite (calculateAngle p1 p2 p3) = false.
Proof.
  unfold calculateAngle. destruct (negb (validatePoints p1 p2 p3)); [reflexivity |].
  destruct p1, p2, p3; try reflexivity. apply min_max_not_infinite.
Qed.

Lemma div_Fin_nonzero (a : num) (d : R) :
  d <> 0 -> 0 < d -> isInfinite a = false -> isInfinite (a /' Fin d) = false.
Proof.
  intros Hd _ Ha. destruct a; simpl in *; try discriminate; try reflexivity.
  now rewrite Reqb_false.
Qed.

Lemma analyzeKneeFlexion_not_infinite (pose : Pose) :
  isInfinite (score (analyzeKneeFlexion pose)) = false.
Proof.
  unfold analyzeKneeFlexion. destruct (_ && _ && _); [| reflexivity].
  cbn [score]. destruct (_ >' Fin 90); [reflexivity |].
  apply div_Fin_nonzero; [lra | lra | apply calculateAngle_not_infinite].
Qed.

Lemma analyzeKneeExtension_not_infinite (pose : Pose) :
  isInfinite (score (analyzeKneeExtension pose)) = false.
Proof.
  unfold analyzeKneeExtension. destruct (_ && _ && _); [| reflexivity].
  cbn [score]. destruct (_ >' Fin 160); [reflexivity |].
  apply div_Fin_nonzero; [lra | lra | apply calculateAngle_not_infinite].
Qed.

Lemma analyzeSpinalAlignment_not_infinite (pose : Pose) :
  isInfinite (score (analyzeSpinalAlignment pose)) = false.
Proof.
  unfold analyzeSpinalAlignment. destruct (_ && _ && _); [| reflexivity].
  cbn [score]. apply div_Fin_nonzero; [lra | lra |].
  pose proof (calculateAngle_not_infinite
                (findKeypoint "right_shoulder" pose)
                (findKeypoint "right_hip" pose)
                (findKeypoint "right_knee" pose)) as H.
  destruct (calculateAngle _ _ _); simpl in *; congruence.
Qed.

Lemma analyzeHipControl_not_infinite (pose : Pose) :
  isInfinite (score (analyzeHipControl pose)) = false.
Proof.
  unfold analyzeHipControl. destruct (_ && _ && _); [| reflexivity].
  cbn [score]. apply max_min_not_infinite.
Qed.

Lemma analyzeHipDrive_not_infinite (pose : Pose) :
  isInfinite (score (analyzeHipDrive pose)) = false.
Proof.
  destruct (analyzeHipDrive_score_valid pose) as (r & -> & _). reflexivity.
Qed.

Lemma analyzeStability_not_infinite (pose : Pose) :
  isInfinite (stability_score (analyzeStability pose)) = false.
Proof.
  unfold analyzeStability.
  destruct (findKeypoint "right_ankle" pose) as [ankle |]; [| reflexivity].
  destruct (findKeypoint "right_hip" pose) as [hip |]; [| reflexivity].
  destruct (findKeypoint "right_shoulder" pose) as [shoulder |]; [| reflexivity].
  cbn [stability_score].
  destruct (kp_x shoulder -' kp_x hip), (kp_x hip -' kp_x ankle);
    cbn [JS.abs JS.add JS.div]; try reflexivity;
    rewrite ?(Rltb_false 100 0), ?(Reqb_false 100 0) by lra;
    cbn [JS.sub JS.neg JS.add]; rewrite ?max_Fin; reflexivity.
Qed.

Lemma analyzeSittingPhase_not_infinite (poses : list (option Pose))
  (frames : list Frame.Sitting) :
  analyzeSittingPhase poses = inr frames -> Forall sittingScoresNotInfinite frames.
Proof.
  unfold analyzeSittingPhase. revert frames.
  induction poses as [| pose poses IH]; intros frames H; simpl in H.
  - injection H as <-. constructor.
  - destruct pose as [p |]; simpl in H; [| discriminate].
    destruct (mapE _ poses) as [e | rest]; simpl in H; [discriminate |].
    injection H as <-. constructor; [| now apply IH].
    repeat split; cbn [Frame.kneeFlexion Frame.hipControl Frame.spinalAlignment].
    + apply analyzeKneeFlexion_not_infinite.
    + apply analyzeHipControl_not_infinite.
    + apply analyzeSpinalAlignment_not_infinite.
Qed.

Lemma analyzeRisingPhase_not_infinite (poses : list (option Pose))
  (frames : list Frame.Rising) :
  analyzeRisingPhase poses = inr frames -> Forall risingScoresNotInfinite frames.
Proof.
  unfold analyzeRisingPhase. revert frames.
  induction poses as [| pose poses IH]; intros frames H; simpl in H.
  - injection H as <-. constructor.
  - destruct pose as [p |]; simpl in H; [| discriminate].
    destruct (mapE _ poses) as [e | rest]; simpl in H; [discriminate |].
    injection H as <-. constructor; [| now apply IH].
    repeat split; cbn [Frame.kneeExtension Frame.hipDrive Frame.stability].
    + apply analyzeKneeExtension_not_infinite.
    + apply analyzeHipDrive_not_infinite.
    + apply analyzeStability_not_infinite.
Qed.

Lemma example_frames_not_infinite :
  Forall sittingScoresNotInfinite tenSittingFrames
  /\ Forall risingScoresNotInfinite fifteenRisingFrames.
Proof.
  split; repeat constructor.
Qed.

(** The statement of [composite_indices_spec] at ten sitting frames and
    fifteen rising frames. *)
Lemma composite_indices_spec_witness :
  posturalControl (calculateComponentScores tenSittingFrames fifteenRisingFrames)
  = Fin (pooledIndex (posturalPool tenSittingFrames fifteenRisingFrames))
  /\ within 0 1
       (posturalControl
          (calculateComponentScores tenSittingFrames fifteenRisingFrames)).
Proof.
  destruct (composite_indices_spec tenSittingFrames fifteenRisingFrames)
    as (Hp & _ & _ & Hw & _).
  - repeat constructor.
  - repeat constructor.
  - split; assumption.
Defined.

(** C6, counterexample to the claim as stated: with ten sitting frames
    of spinal-alignment score 0 and fifteen rising frames of stability
    score 0.5, the average of the two weighted phase-level averages is
    (1.3 x 0 + 1.2 x 0.5) / 2 = 0.3, but the postural-control index is the
    pooled mean (10 x 0 + 15 x 0.6) / 25 = 0.36. *)
Lemma posturalControl_is_pooled_over_frames :
  specPosturalControl tenSittingFrames fifteenRisingFrames = Fin (3 / 10)
  /\ posturalControl (calculateComponentScores tenSittingFrames fifteenRisingFrames)
     = Fin (36 / 100)
  /\ posturalControl (calculateComponentScores tenSittingFrames fifteenRisingFrames)
     <> specPosturalControl tenSittingFrames fifteenRisingFrames.
Proof.
  assert (Hspec : specPosturalControl tenSittingFrames fifteenRisingFrames
                  = Fin (3 / 10)).
  { unfold specPosturalControl, specPhaseAverage.
    rewrite !safeAverage_closed by (repeat constructor).
    cbn [tenSittingFrames fifteenRisingFrames repeat map finiteValues
         Frame.spinalAlignment Frame.stability score stability_score zeroMetric
         List.length Nat.leb JS.mul].
    unfold average. cbn [fold_left JS.add List.length].
    unfold JS.div. rewrite Reqb_false by (simpl; lra).
    rewrite clamp01_Fin. f_equal.
    rewrite Rclamp_inside; unfold Rsum; simpl; lra. }
  assert (Hcode : posturalControl
                    (calculateComponentScores tenSittingFrames fifteenRisingFrames)
                  = Fin (36 / 100)).
  { unfold calculateComponentScores. cbn [posturalControl].
    rewrite clamp01_safeAverage.
    - f_equal. unfold pooledIndex.
      cbn [tenSittingFrames fifteenRisingFrames repeat map app finiteValues
           Frame.spinalAlignment Frame.stability score stability_score zeroMetric
           List.length Nat.leb JS.mul].
      rewrite Rclamp_inside; unfold Rsum; simpl; lra.
    - repeat constructor. }
  split; [exact Hspec |]. split; [exact Hcode |].
  rewrite Hspec, Hcode. intros H. injection H as H. lra.
Qed.

(** ** Reports of successful runs *)

Lemma calculatePhaseScores_within (kF hC sA kE hD st pS pR : R) :
  let r :=
    calculatePhaseScores
      {| Avg.kneeFlexion := Fin kF; Avg.hipControl := Fin hC;
         Avg.spinalAlignment := Fin sA |}
      {| Avg.kneeExtension := Fin kE; Avg.hipDrive := Fin hD;
         Avg.stability := Fin st |}
      {| sitting := Fin pS; rising := Fin pR |} in
  within (3 / 2) 5 (sitScore r) /\ within (3 / 2) 5 (riseScore r)
  /\ within 2 10 (totalScore r).
Proof.
  intros r. subst r. rewrite calculatePhaseScores_Fin.
  cbn [sitScore riseScore totalScore].
  set (sit := Rclamp (3 / 2) 5 (rawSit kF hC sA - pS * (6 / 10))).
  set (rise := Rclamp (3 / 2) 5 (rawRise kE hD st - pR * (6 / 10))).
  assert (Hs : 3 / 2 <= sit <= 5) by (apply Rclamp_bounds; lra).
  assert (Hr : 3 / 2 <= rise <= 5) by (apply Rclamp_bounds; lra).
  assert (Ht : 2 <= Rmin 10 (sit + rise) <= 10).
  { unfold Rmin. destruct (Rle_dec 10 (sit + rise)); lra. }
  repeat split; (eexists; split; [reflexivity |]).
  - pose proof (round2_between 150 500 sit). lra.
  - pose proof (round2_between 150 500 rise). lra.
  - pose proof (round2_between 200 1000 (Rmin 10 (sit + rise))). lra.
Qed.

(** Every report has its phase scores, total and composite indices in
    their ranges: the metric averages handed to the aggregator are
    [safeScore] results and the penalties are finite. *)
Lemma report_in_range (detector : FramePath -> option Pose)
  (frames : list FramePath) (report : Report) :
  analysisBody detector frames = inr report ->
  within (3 / 2) 5 (sitScore (scores report))
  /\ within (3 / 2) 5 (riseScore (scores report))
  /\ within 2 10 (totalScore (scores report))
  /\ within 0 1 (posturalControl (componentScores report))
  /\ within 0 1 (balance (componentScores report))
  /\ within 0 1 (coordination (componentScores report)).
Proof.
  unfold analysisBody.
  destruct (_ <? _)%nat; [discriminate |].
  destruct (detectPhaseTransition _) as [e | t]; simpl; [discriminate |].
  destruct (analyzeSittingPhase _) as [e | sit] eqn:Hsit; simpl; [discriminate |].
  destruct (analyzeRisingPhase _) as [e | rise] eqn:Hrise; simpl; [discriminate |].
  destruct (mapE detectSupportPoints _) as [e | sp]; simpl; [discriminate |].
  intros H. injection H as <-. cbn [scores componentScores].
  assert (Hcomp :
    within 0 1 (posturalControl (calculateComponentScores sit rise))
    /\ within 0 1 (balance (calculateComponentScores sit rise))
    /\ within 0 1 (coordination (calculateComponentScores sit rise))).
  { apply analyzeSittingPhase_not_infinite in Hsit.
    apply analyzeRisingPhase_not_infinite in Hrise.
    unfold calculateComponentScores.
    cbn [posturalControl balance coordination].
    fold (posturalPool sit rise) (balancePool sit rise) (coordinationPool sit rise).
    rewrite !clamp01_safeAverage.
    - repeat split; (eexists; split; [reflexivity | apply pooledIndex_range]).
    - unfold coordinationPool.
      apply Forall_app. split; [| apply Forall_app; split]; apply pool_not_infinite.
      + eapply Forall_impl; [| exact Hsit]. intros p Hq. apply Hq.
      + eapply Forall_impl; [| exact Hrise]. intros p Hq. apply Hq.
      + eapply Forall_impl; [| exact Hrise]. intros p Hq. apply Hq.
    - unfold balancePool.
      apply Forall_app. split; apply pool_not_infinite.
      + eapply Forall_impl; [| exact Hsit]. intros p Hq. apply Hq.
      + eapply Forall_impl; [| exact Hrise]. intros p Hq. apply Hq.
    - unfold posturalPool.
      apply Forall_app. split; apply pool_not_infinite.
      + eapply Forall_impl; [| exact Hsit]. intros p Hq. apply Hq.
      + eapply Forall_impl; [| exact Hrise]. intros p Hq. apply Hq. }
  destruct Hcomp as (Hc1 & Hc2 & Hc3).
  unfold calculateSupportPenalty. rewrite !calculatePhasePenalty_closed.
  set (avg := fun scores => safeScore (average scores) (Fin 0)).
  assert (Havg : forall scores, exists r, avg scores = Fin r).
  { intros scores. destruct (safeScore_within (average scores) 0) as (r & E & _).
    - lra.
    - now exists r. }
  fold (avg (map (fun p => score (Frame.kneeFlexion p)) sit)).
  fold (avg (map (fun p => score (Frame.hipControl p)) sit)).
  fold (avg (map (fun p => score (Frame.spinalAlignment p)) sit)).
  fold (avg (map (fun p => score (Frame.kneeExtension p)) rise)).
  fold (avg (map (fun p => score (Frame.hipDrive p)) rise)).
  fold (avg (map (fun p => stability_score (Frame.stability p)) rise)).
  destruct (Havg (map (fun p => score (Frame.kneeFlexion p)) sit)) as [r1 ->].
  destruct (Havg (map (fun p => score (Frame.hipControl p)) sit)) as [r2 ->].
  destruct (Havg (map (fun p => score (Frame.spinalAlignment p)) sit)) as [r3 ->].
  destruct (Havg (map (fun p => score (Frame.kneeExtension p)) rise)) as [r4 ->].
  destruct (Havg (map (fun p => score (Frame.hipDrive p)) rise)) as [r5 ->].
  destruct (Havg (map (fun p => stability_score (Frame.stability p)) rise))
    as [r6 ->].
  match goal with
  | |- context [calculatePhaseScores _ _ {| sitting := Fin ?p; rising := Fin ?q |}] =>
      destruct (calculatePhaseScores_within r1 r2 r3 r4 r5 r6 p q)
        as (H1 & H2 & H3)
  end.
  repeat split; assumption.
Qed.

(** * Further properties of the code *)

(** ** Geometry: symmetry and translation *)

Lemma Rdist_sym (x1 y1 x2 y2 : R) : Rdist x1 y1 x2 y2 = Rdist x2 y2 x1 y1.
Proof. unfold Rdist. f_equal. ring. Qed.

Lemma Rangle_sym (x1 y1 x2 y2 x3 y3 : R) :
  Rangle x1 y1 x2 y2 x3 y3 = Rangle x3 y3 x2 y2 x1 y1.
Proof.
  unfold Rangle. rewrite <- Rabs_Ropp. f_equal.
  unfold Rdiv. ring.
Qed.

Lemma calculateAngle_finite (n1 n2 n3 : string) (x1 y1 x2 y2 x3 y3 : R)
  (c1 c2 c3 : num) :
  calculateAngle (Some (mkKeypoint n1 (Fin x1) (Fin y1) c1))
                 (Some (mkKeypoint n2 (Fin x2) (Fin y2) c2))
                 (Some (mkKeypoint n3 (Fin x3) (Fin y3) c3))
  = Fin (if Rltb (Rdist x1 y1 x2 y2) 1 || Rltb (Rdist x2 y2 x3 y3) 1
         then 0 else Rangle x1 y1 x2 y2 x3 y3).
Proof.
  destruct (Rlt_dec (Rdist x1 y1 x2 y2) 1) as [H1 | H1].
  { rewrite calculateAngle_too_close by (now left). now rewrite Rltb_true. }
  destruct (Rlt_dec (Rdist x2 y2 x3 y3) 1) as [H2 | H2].
  { rewrite calculateAngle_too_close by (now right).
    now rewrite (Rltb_true _ _ H2), orb_true_r. }
  rewrite calculateAngle_separated by lra.
  now rewrite !Rltb_false by lra.
Qed.

(** X1.  For three points with finite coordinates the angle at the
    middle point does not depend on the order of the two outer points,
    and does not change when the three points are moved by the same
    vector. *)
Theorem calculateAngle_symmetric_and_translation_invariant
  (n1 n2 n3 : string) (x1 y1 x2 y2 x3 y3 dx dy : R) (c1 c2 c3 : num) :
  let p1 := Some (mkKeypoint n1 (Fin x1) (Fin y1) c1) in
  let p2 := Some (mkKeypoint n2 (Fin x2) (Fin y2) c2) in
  let p3 := Some (mkKeypoint n3 (Fin x3) (Fin y3) c3) in
  calculateAngle p3 p2 p1 = calculateAngle p1 p2 p3
  /\ calculateAngle (translate dx dy p1) (translate dx dy p2) (translate dx dy p3)
     = calculateAngle p1 p2 p3.
Proof.
  intros p1 p2 p3. subst p1 p2 p3. split.
  - rewrite !calculateAngle_finite.
    rewrite (Rdist_sym x3 y3 x2 y2), (Rdist_sym x2 y2 x1 y1), orb_comm.
    now rewrite (Rangle_sym x3 y3 x2 y2 x1 y1).
  - cbn [translate kp_name kp_x kp_y kp_score JS.add].
    rewrite !calculateAngle_finite. f_equal.
    assert (Hd : forall a b c d,
               Rdist (a + dx) (b + dy) (c + dx) (d + dy) = Rdist a b c d).
    { intros. unfold Rdist. f_equal. ring. }
    rewrite !Hd. unfold Rangle.
    replace (y3 + dy - (y2 + dy)) with (y3 - y2) by ring.
    replace (x3 + dx - (x2 + dx)) with (x3 - x2) by ring.
    replace (y1 + dy - (y2 + dy)) with (y1 - y2) by ring.
    replace (x1 + dx - (x2 + dx)) with (x1 - x2) by ring.
    reflexivity.
Qed.

(** ** Per-frame scores on finite coordinates *)

Lemma findKeypoint_finite (pose : Pose) (name : string) :
  finiteCoordinates pose ->
  findKeypoint name pose = None
  \/ exists n x y c, findKeypoint name pose = Some (mkKeypoint n (Fin x) (Fin y) c).
Proof.
  intros Hfin. unfold findKeypoint.
  destruct (find _ (keypoints pose)) as [kp |] eqn:Hfind; [right | now left].
  apply find_some in Hfind. destruct Hfind as [Hin _].
  unfold finiteCoordinates in Hfin. rewrite Forall_forall in Hfin.
  destruct (Hfin kp Hin) as ((x & Hx) & (y & Hy)).
  destruct kp as [n kx ky c]. simpl in *. subst. now exists n, x, y, c.
Qed.

Lemma calculateAngle_range_of_finite (p1 p2 p3 : option Keypoint) :
  (p1 = None \/ exists n x y c, p1 = Some (mkKeypoint n (Fin x) (Fin y) c)) ->
  (p2 = None \/ exists n x y c, p2 = Some (mkKeypoint n (Fin x) (Fin y) c)) ->
  (p3 = None \/ exists n x y c, p3 = Some (mkKeypoint n (Fin x) (Fin y) c)) ->
  within 0 360 (calculateAngle p1 p2 p3).
Proof.
  assert (Hzero : within 0 360 (Fin 0)) by (exists 0; split; [reflexivity | lra]).
  intros [-> | (n1 & x1 & y1 & c1 & ->)]; [intros; exact Hzero |].
  intros [-> | (n2 & x2 & y2 & c2 & ->)]; [intros; exact Hzero |].
  intros [-> | (n3 & x3 & y3 & c3 & ->)]; [exact Hzero |].
  apply calculateAngle_finite_range.
Qed.

Lemma ratio_score_range (a thr : R) :
  0 <= a -> 0 < thr ->
  within 0 1 (if Fin a >' Fin thr then Fin 1 else Fin a /' Fin thr).
Proof.
  intros Ha Hthr. cbn [JS.gt JS.lt]. unfold Rltb.
  destruct (Rlt_dec thr a) as [Hgt | Hle].
  - exists 1. split; [reflexivity | lra].
  - unfold JS.div. rewrite Reqb_false by lra.
    exists (a / thr). split; [reflexivity |]. split.
    + apply Rmult_le_pos; [lra |]. left. now apply Rinv_0_lt_compat.
    + apply (Rmult_le_reg_r thr); [lra |]. unfold Rdiv.
      rewrite Rmult_assoc, Rinv_l by lra. lra.
Qed.

Lemma clamp01_range (a : num) : isNaN a = false -> within 0 1 (clamp01 a).
Proof.
  intros H. destruct a; try discriminate.
  - exists 0. split; [| lra]. unfold clamp01.
    change (JS.min (Fin 1) NInf) with NInf. reflexivity.
  - exists 1. split; [| lra]. unfold clamp01.
    change (JS.min (Fin 1) PInf) with (Fin 1). rewrite max_Fin.
    f_equal. apply Rmax_right. lra.
  - rewrite clamp01_Fin. eexists. split; [reflexivity |].
    apply Rclamp_bounds. lra.
Qed.

Section FiniteFrameScores.

Variable pose : Pose.
Hypothesis Hfinite : finiteCoordinates pose.

Lemma knee_angle_range :
  within 0 360
    (calculateAngle (findKeypoint "right_hip" pose) (findKeypoint "right_knee" pose)
                    (findKeypoint "right_ankle" pose)).
Proof. apply calculateAngle_range_of_finite; now apply findKeypoint_finite. Qed.

Lemma trunk_angle_range :
  within 0 360
    (calculateAngle (findKeypoint "right_shoulder" pose)
                    (findKeypoint "right_hip" pose)
                    (findKeypoint "right_knee" pose)).
Proof. apply calculateAngle_range_of_finite; now apply findKeypoint_finite. Qed.

Lemma analyzeKneeFlexion_range : within 0 1 (score (analyzeKneeFlexion pose)).
Proof.
  unfold analyzeKneeFlexion. destruct (_ && _ && _).
  - cbn [score]. destruct knee_angle_range as (a & -> & Ha).
    apply ratio_score_range; lra.
  - exists 0. split; [reflexivity | lra].
Qed.

Lemma analyzeKneeExtension_range : within 0 1 (score (analyzeKneeExtension pose)).
Proof.
  unfold analyzeKneeExtension. destruct (_ && _ && _).
  - cbn [score]. destruct knee_angle_range as (a & -> & Ha).
    apply ratio_score_range; lra.
  - exists 0. split; [reflexivity | lra].
Qed.

Lemma analyzeSpinalAlignment_range :
  within 0 1 (score (analyzeSpinalAlignment pose)).
Proof.
  unfold analyzeSpinalAlignment. destruct (_ && _ && _).
  - cbn [score]. destruct trunk_angle_range as (a & -> & Ha).
    cbn [JS.sub JS.neg JS.add JS.abs]. unfold JS.div.
    rewrite Reqb_false by lra.
    exists (Rabs (180 + - a) / 180). split; [reflexivity |].
    assert (Hab : 0 <= Rabs (180 + - a) <= 180).
    { split; [apply Rabs_pos | apply Rabs_le; lra]. }
    lra.
  - exists 0. split; [reflexivity | lra].
Qed.

Lemma analyzeHipControl_range : within 0 1 (score (analyzeHipControl pose)).
Proof.
  unfold analyzeHipControl. destruct (_ && _ && _).
  - cbn [score]. destruct trunk_angle_range as (a & -> & Ha).
    apply clamp01_range. cbn [JS.lt]. destruct (Rltb a 30); [reflexivity |].
    cbn [JS.sub JS.neg JS.add]. unfold JS.div. now rewrite Reqb_false by lra.
  - exists 0. split; [reflexivity | lra].
Qed.

Lemma analyzeStability_range :
  within 0 1 (stability_score (analyzeStability pose)).
Proof.
  unfold analyzeStability.
  destruct (findKeypoint_finite pose "right_ankle" Hfinite)
    as [-> | (n1 & x1 & y1 & c1 & ->)]; [exists 0; split; [reflexivity | lra] |].
  destruct (findKeypoint_finite pose "right_hip" Hfinite)
    as [-> | (n2 & x2 & y2 & c2 & ->)]; [exists 0; split; [reflexivity | lra] |].
  destruct (findKeypoint_finite pose "right_shoulder" Hfinite)
    as [-> | (n3 & x3 & y3 & c3 & ->)]; [exists 0; split; [reflexivity | lra] |].
  cbn [stability_score kp_x JS.sub JS.neg JS.add JS.abs].
  unfold JS.div. rewrite Reqb_false by lra.
  cbn [JS.sub JS.neg JS.add]. rewrite max_Fin.
  eexists. split; [reflexivity |].
  pose proof (Rabs_pos (x3 + - x2)). pose proof (Rabs_pos (x2 + - x1)).
  unfold Rmax. destruct (Rle_dec 0 _); lra.
Qed.

End FiniteFrameScores.

(** X2.  On a pose whose keypoints have finite coordinates every
    per-frame metric yields a score in [0, 1], and the knee and trunk
    angles lie in [0, 360], whatever the confidences are and whichever
    landmarks are missing. *)
Theorem frame_scores_in_unit_interval (pose : Pose) :
  finiteCoordinates pose ->
  within 0 1 (score (analyzeKneeFlexion pose))
  /\ within 0 1 (score (analyzeKneeExtension pose))
  /\ within 0 1 (score (analyzeSpinalAlignment pose))
  /\ within 0 1 (score (analyzeHipControl pose))
  /\ within 0 1 (score (analyzeHipDrive pose))
  /\ within 0 1 (stability_score (analyzeStability pose))
  /\ within 0 360 (angle (analyzeKneeFlexion pose))
  /\ within 0 360 (angle (analyzeKneeExtension pose))
  /\ within 0 360 (angle (analyzeSpinalAlignment pose))
  /\ within 0 360 (angle (analyzeHipControl pose)).
Proof.
  intros H.
  assert (Hzero : within 0 360 (Fin 0)) by (exists 0; split; [reflexivity | lra]).
  repeat match goal with |- _ /\ _ => split end.
  - now apply analyzeKneeFlexion_range.
  - now apply analyzeKneeExtension_range.
  - now apply analyzeSpinalAlignment_range.
  - now apply analyzeHipControl_range.
  - apply analyzeHipDrive_score_valid.
  - now apply analyzeStability_range.
  - unfold analyzeKneeFlexion. destruct (_ && _ && _); [| exact Hzero].
    now apply knee_angle_range.
  - unfold analyzeKneeExtension. destruct (_ && _ && _); [| exact Hzero].
    now apply knee_angle_range.
  - unfold analyzeSpinalAlignment. destruct (_ && _ && _); [| exact Hzero].
    now apply trunk_angle_range.
  - unfold analyzeHipControl. destruct (_ && _ && _); [| exact Hzero].
    now apply trunk_angle_range.
Qed.

Lemma lowConfidencePose_finite : finiteCoordinates lowConfidencePose.
Proof. repeat constructor; eexists; reflexivity. Qed.

(** The statement above at [lowConfidencePose]. *)
Lemma frame_scores_in_unit_interval_witness :
  within 0 1 (score (analyzeKneeFlexion lowConfidencePose))
  /\ within 0 1 (stability_score (analyzeStability lowConfidencePose)).
Proof.
  destruct (frame_scores_in_unit_interval lowConfidencePose)
    as (H1 & _ & _ & _ & _ & H6 & _).
  - repeat constructor; eexists; reflexivity.
  - split; assumption.
Defined.

(** X3.  On a pose whose keypoints have finite coordinates, knee
    flexion and knee extension measure the same angle, and the extension
    score (full marks above 160 degrees) is never greater than the
    flexion score (full marks above 90 degrees). *)
Theorem kneeExtension_at_most_kneeFlexion (pose : Pose) :
  finiteCoordinates pose ->
  angle (analyzeKneeExtension pose) = angle (analyzeKneeFlexion pose)
  /\ (score (analyzeKneeExtension pose) <=' score (analyzeKneeFlexion pose)) = true.
Proof.
  intros H. unfold analyzeKneeExtension, analyzeKneeFlexion.
  destruct (_ && _ && _); cbn [angle score].
  2:{ split; [reflexivity | apply le_Fin; lra]. }
  split; [reflexivity |].
  destruct (knee_angle_range pose H) as (a & -> & Ha).
  cbn [JS.gt JS.lt]. unfold JS.div, Rltb. rewrite !Reqb_false by lra.
  destruct (Rlt_dec 160 a), (Rlt_dec 90 a); apply le_Fin; lra.
Qed.

(** The statement above at [lowConfidencePose]. *)
Lemma kneeExtension_at_most_kneeFlexion_witness :
  (score (analyzeKneeExtension lowConfidencePose)
   <=' score (analyzeKneeFlexion lowConfidencePose)) = true.
Proof.
  apply (kneeExtension_at_most_kneeFlexion lowConfidencePose).
  repeat constructor; eexists; reflexivity.
Defined.

(** ** Support detection *)

(** X4.  On a detected pose the support detection returns one of the
    four lists [], [HAND], [KNEE], [HAND; KNEE]; it reports HAND only
    when a wrist has confidence above the threshold and KNEE only when a
    knee has; and it reports nothing when the pose carries no height
    (NaN).  On an undefined detection it throws. *)
Theorem detectSupportPoints_shape (pose : Pose) :
  detectSupportPoints None = inl TypeError
  /\ exists supports,
       detectSupportPoints (Some pose) = inr supports
       /\ (supports = [] \/ supports = [HAND] \/ supports = [KNEE]
           \/ supports = [HAND; KNEE])
       /\ (In HAND supports ->
           confident (findKeypoint "left_wrist" pose) = true
           \/ confident (findKeypoint "right_wrist" pose) = true)
       /\ (In KNEE supports ->
           confident (findKeypoint "left_knee" pose) = true
           \/ confident (findKeypoint "right_knee" pose) = true)
       /\ (height pose = NaN -> supports = []).
Proof.
  split; [reflexivity |].
  unfold detectSupportPoints. cbn [deref bind ret].
  set (ground := maxOf _).
  eexists. split; [reflexivity |].
  cbn [existsb]. rewrite !orb_false_r.
  split; [| split; [| split]].
  - destruct (_ || _), (_ || _); simpl; tauto.
  - destruct (confident (findKeypoint "left_wrist" pose)),
      (confident (findKeypoint "right_wrist" pose));
      cbn [andb orb]; try tauto.
    destruct (_ || _); simpl; intros H; intuition discriminate.
  - destruct (confident (findKeypoint "left_knee" pose)),
      (confident (findKeypoint "right_knee" pose));
      cbn [andb orb]; try tauto.
    destruct (_ || _); simpl; intros H; intuition discriminate.
  - intros ->.
    assert (Hnan : forall a b c, (a >' (b -' NaN *' c)) = false).
    { intros a b c. destruct a, b; reflexivity. }
    rewrite !Hnan, !andb_false_r. reflexivity.
Qed.

(** The statement above at [handOnFloorPose]: a support list whose HAND
    entry stems from a confident wrist. *)
Lemma detectSupportPoints_shape_witness :
  exists supports,
    detectSupportPoints (Some handOnFloorPose) = inr supports
    /\ (In HAND supports ->
        confident (findKeypoint "left_wrist" handOnFloorPose) = true
        \/ confident (findKeypoint "right_wrist" handOnFloorPose) = true).
Proof.
  destruct (detectSupportPoints_shape handOnFloorPose)
    as (_ & supports & Hs & _ & Hh & _).
  exists supports. split; assumption.
Defined.

Lemma fold_max_finite (G : R) (ys : list num) :
  (forall a, In a ys -> exists y, a = Fin y /\ y <= G) ->
  forall acc,
    (acc = NInf \/ exists r, acc = Fin r /\ r <= G) ->
    (acc = Fin G \/ In (Fin G) ys) ->
    fold_left JS.max ys acc = Fin G.
Proof.
  induction ys as [| a ys IH]; intros Hall acc Hacc Hin; simpl.
  - destruct Hin as [-> | []]. reflexivity.
  - destruct (Hall a) as (y & -> & Hy); [now left |].
    assert (Hnew : exists r, JS.max acc (Fin y) = Fin r /\ r <= G
                             /\ (acc = Fin G \/ y = G -> r = G)).
    { destruct Hacc as [-> | (r & -> & Hr)].
      - exists y. split; [reflexivity |]. split; [exact Hy |].
        intros [H | H]; [discriminate | exact H].
      - rewrite max_Fin. exists (Rmax r y). split; [reflexivity |].
        unfold Rmax. destruct (Rle_dec r y); split; try assumption;
          intros [H | H]; try (injection H as H); lra. }
    destruct Hnew as (r & -> & Hr & Hatt).
    apply IH.
    + intros b Hb. apply Hall. now right.
    + right. now exists r.
    + destruct Hin as [H | [H | H]].
      * left. f_equal. apply Hatt. now left.
      * left. f_equal. apply Hatt. right. now injection H.
      * now right.
Qed.

Lemma groundLevel_finite (pose : Pose) (G : R) :
  groundLevelIs pose G ->
  maxOf (map kp_y
           (filter (fun kp => kp_score kp >' KEYPOINT_CONFIDENCE_THRESHOLD)
                   (keypoints pose)))
  = Fin G.
Proof.
  intros ((kp0 & Hin0 & Hc0 & Hy0) & Hall). unfold maxOf.
  apply fold_max_finite.
  - intros a Ha. apply in_map_iff in Ha. destruct Ha as (kp & <- & Hkp).
    apply filter_In in Hkp. destruct Hkp as [Hin Hc]. now apply Hall.
  - now left.
  - right. rewrite <- Hy0. apply in_map. apply filter_In. split; assumption.
Qed.

(** X5.  When the confident keypoints have finite y with greatest value
    G (the ground level) and the pose has the finite height h, HAND is
    reported exactly when a confident wrist lies below G - 0.3 h on the
    screen (greater y) and KNEE exactly when a confident knee lies below
    G - 0.2 h; so for a positive height, a confident wrist that is itself
    at ground level is always reported as a hand support. *)
Theorem detectSupportPoints_ground_level (pose : Pose) (G h : R) :
  groundLevelIs pose G ->
  height pose = Fin h ->
  let low (frac : R) (p : option Keypoint) :=
    confident p && (Y p >' Fin (G - h * frac)) in
  detectSupportPoints (Some pose)
  = inr ((if low (3 / 10) (findKeypoint "left_wrist" pose)
             || low (3 / 10) (findKeypoint "right_wrist" pose)
          then [HAND] else [])
         ++ (if low (2 / 10) (findKeypoint "left_knee" pose)
                || low (2 / 10) (findKeypoint "right_knee" pose)
             then [KNEE] else []))%list
  /\ (0 < h ->
      forall wrist,
        findKeypoint "left_wrist" pose = Some wrist
        \/ findKeypoint "right_wrist" pose = Some wrist ->
        confident (Some wrist) = true -> kp_y wrist = Fin G ->
        exists supports,
          detectSupportPoints (Some pose) = inr supports /\ In HAND supports).
Proof.
  intros Hground Hh low.
  assert (Hform :
    detectSupportPoints (Some pose)
    = inr ((if low (3 / 10) (findKeypoint "left_wrist" pose)
               || low (3 / 10) (findKeypoint "right_wrist" pose)
            then [HAND] else [])
           ++ (if low (2 / 10) (findKeypoint "left_knee" pose)
                  || low (2 / 10) (findKeypoint "right_knee" pose)
               then [KNEE] else []))%list).
  { unfold detectSupportPoints. cbn [deref bind ret].
    rewrite (groundLevel_finite pose G Hground), Hh.
    cbn [JS.mul JS.sub JS.neg JS.add existsb]. rewrite !orb_false_r.
    fold (Rminus G (h * (3 / 10))). fold (Rminus G (h * (2 / 10))).
    fold (low (3 / 10) (findKeypoint "left_wrist" pose)).
    fold (low (3 / 10) (findKeypoint "right_wrist" pose)).
    fold (low (2 / 10) (findKeypoint "left_knee" pose)).
    fold (low (2 / 10) (findKeypoint "right_knee" pose)).
    destruct (_ || _), (_ || _); reflexivity. }
  split; [exact Hform |].
  intros Hpos wrist Hfind Hc Hy. eexists. split; [exact Hform |].
  assert (Hlow : low (3 / 10) (Some wrist) = true).
  { unfold low. rewrite Hc. cbn [andb Y]. rewrite Hy.
    apply Rltb_true. nra. }
  destruct Hfind as [-> | ->]; rewrite Hlow; rewrite ?orb_true_r;
    simpl; now left.
Qed.

Lemma handOnFloorPose_ground : groundLevelIs handOnFloorPose 400.
Proof.
  split.
  - exists (point "right_wrist" 150 400 (9 / 10)).
    split; [simpl; tauto |]. split; [apply Rltb_true; lra | reflexivity].
  - intros kp [<- | [<- | [<- | []]]] _; eexists; (split; [reflexivity | lra]).
Qed.

(** The statement above at [handOnFloorPose], whose right wrist is at
    ground level. *)
Lemma detectSupportPoints_ground_level_witness :
  exists supports,
    detectSupportPoints (Some handOnFloorPose) = inr supports /\ In HAND supports.
Proof.
  destruct (detectSupportPoints_ground_level handOnFloorPose 400 480) as [_ H].
  - apply handOnFloorPose_ground.
  - reflexivity.
  - apply (H ltac:(lra) (point "right_wrist" 150 400 (9 / 10))).
    + right. reflexivity.
    + apply Rltb_true. lra.
    + reflexivity.
Defined.

(** ** Feedback *)

(** The message texts as opaque names, so that case analyses stay small. *)
Ltac name_messages :=
  unfold generateDetailedFeedback;
  set (mKneeGood := "Excellent knee control during sitting");
  set (mKneeBad := "Work on controlled descent while sitting");
  set (rKnee := "Practice slow, controlled squats with proper form");
  set (mHipGood := "Strong hip drive during rising");
  set (mHipBad := "Need to improve hip drive strength");
  set (rHip := "Practice hip thrust exercises to build strength");
  set (mBalanceBad := "Significant balance improvement needed");
  set (rBalanceBad := "Start with supported single-leg stance exercises");
  set (mBalance := "Balance needs some improvement");
  set (rBalance := "Practice single-leg standing exercises");
  set (mSpine := "Focus on maintaining spinal alignment");
  set (rSpine := "Practice wall sits with proper back alignment");
  set (mPosture := "Work on maintaining better posture");
  set (rPosture := "Practice plank exercises for core strength");
  set (mNoSupport := "Excellent form - no supports needed");
  set (rHand := "Practice the movement with arms crossed over chest");
  set (rNoKnee := "Practice the movement without knee support").

Ltac feedback_cases s r c :=
  destruct (Avg.kneeFlexion s >' Fin (8 / 10));
  [| destruct (Avg.kneeFlexion s <' Fin (4 / 10))];
  (destruct (Avg.hipDrive r >' Fin (8 / 10));
   [| destruct (Avg.hipDrive r <' Fin (4 / 10))]);
  (destruct (balance c <' Fin (6 / 10));
   [destruct (balance c <' Fin (4 / 10)) |]);
  (destruct (posturalControl c <' Fin (6 / 10));
   [destruct (Avg.spinalAlignment s <' Fin (4 / 10)) |]).

(** The feedback is what the four score sections contribute, followed
    by the support section's one entry. *)
Lemma feedback_structure (sittingScores : Avg.Sitting) (risingScores : Avg.Rising)
  (components : ComponentScores) (supportPoints : list (list Support)) :
  let fb :=
    generateDetailedFeedback sittingScores risingScores components supportPoints in
  let used := setOf (List.concat supportPoints) [] in
  let none := match used with [] => true | _ => false end in
  exists ps pi pr,
    strengths fb
    = (ps ++ if none then ["Excellent form - no supports needed"] else [])%list
    /\ improvements fb
       = (pi ++ if none then []
                else [("Used " ++ join " and " (map supportName used)
                       ++ " for support")%string])%list
    /\ recommendations fb
       = (pr ++ if none then []
                else [if has used HAND
                      then "Practice the movement with arms crossed over chest"
                      else "Practice the movement without knee support"])%list
    /\ incl ps ["Excellent knee control during sitting";
                "Strong hip drive during rising"]
    /\ incl pr ["Practice slow, controlled squats with proper form";
                "Practice hip thrust exercises to build strength";
                "Start with supported single-leg stance exercises";
                "Practice single-leg standing exercises";
                "Practice wall sits with proper back alignment";
                "Practice plank exercises for core strength"]
    /\ List.length pi = List.length pr
    /\ (List.length ps + List.length pi <= 4)%nat
    /\ (List.length ps <= 2)%nat.
Proof.
  cbv zeta. name_messages.
  clearbody mKneeGood mKneeBad rKnee mHipGood mHipBad rHip mBalanceBad
    rBalanceBad mBalance rBalance mSpine rSpine mPosture rPosture mNoSupport
    rHand rNoKnee.
  feedback_cases sittingScores risingScores components;
    destruct (setOf (List.concat supportPoints) []);
    cbn [push strengths improvements recommendations];
    do 3 eexists;
    (split; [reflexivity |]);
    (split; [reflexivity |]);
    (split; [reflexivity |]);
    (split; [intros x Hx; simpl in *; tauto |]);
    (split; [intros x Hx; simpl in *; tauto |]);
    cbn [List.length Nat.add];
    repeat split; repeat constructor.
Qed.

(** X6.  Every feedback pairs each improvement with one
    recommendation, holds between one and five messages among strengths
    and improvements, at most three of them strengths. *)
Theorem feedback_counts (sittingScores : Avg.Sitting) (risingScores : Avg.Rising)
  (components : ComponentScores) (supportPoints : list (list Support)) :
  let fb :=
    generateDetailedFeedback sittingScores risingScores components supportPoints in
  List.length (improvements fb) = List.length (recommendations fb)
  /\ (1 <= List.length (strengths fb) + List.length (improvements fb) <= 5)%nat
  /\ (List.length (strengths fb) <= 3)%nat.
Proof.
  cbv zeta.
  destruct (feedback_structure sittingScores risingScores components supportPoints)
    as (ps & pi & pr & -> & -> & -> & _ & _ & Hlen & Hsum & Hps).
  rewrite !length_app.
  destruct (setOf (List.concat supportPoints) []); simpl; lia.
Qed.

Lemma setOf_empty (supportPoints : list (list Support)) :
  setOf (List.concat supportPoints) [] = []
  <-> showsSupport HAND supportPoints = false
      /\ showsSupport KNEE supportPoints = false.
Proof.
  rewrite <- !existsb_concat_shows.
  pose proof (setOf_has (List.concat supportPoints) [] HAND) as Hh.
  pose proof (setOf_has (List.concat supportPoints) [] KNEE) as Hk.
  simpl in Hh, Hk. rewrite <- Hh, <- Hk. split.
  - intros ->. split; reflexivity.
  - intros [H1 H2]. destruct (setOf _ _) as [| [|] rest]; [reflexivity | |].
    + simpl in H1. discriminate.
    + simpl in H2. discriminate.
Qed.

Lemma showsSupport_none (supportPoints : list (list Support)) :
  (forall frame, In frame supportPoints -> frame = [])
  <-> showsSupport HAND supportPoints = false
      /\ showsSupport KNEE supportPoints = false.
Proof.
  unfold showsSupport. induction supportPoints as [| f rest IH]; simpl.
  - split; [intros _; split; reflexivity | intros _ frame []].
  - rewrite !orb_false_iff. split.
    + intros H. rewrite (H f) by now left. simpl.
      destruct IH as [IH _]. destruct IH as [H1 H2]; [intros; apply H; now right |].
      tauto.
    + intros [[Hf1 H1] [Hf2 H2]] frame [<- | Hin].
      * destruct f as [| [|] f']; [reflexivity | |]; simpl in *; discriminate.
      * apply IH; [tauto | exact Hin].
Qed.

Lemma showsSupport_halves (s : Support) (supportPoints : list (list Support)) (k : nat) :
  showsSupport s supportPoints
  = showsSupport s (firstn k supportPoints) || showsSupport s (skipn k supportPoints).
Proof.
  unfold showsSupport. rewrite <- existsb_app. now rewrite firstn_skipn.
Qed.

Lemma calculateSupportPenalty_halves (supportPoints : list (list Support)) :
  calculateSupportPenalty supportPoints
  = {| sitting :=
         calculatePhasePenalty
           (firstn (List.length supportPoints / 2) supportPoints);
       rising :=
         calculatePhasePenalty
           (skipn (List.length supportPoints / 2) supportPoints) |}.
Proof.
  unfold calculateSupportPenalty.
  assert (Hh : (Z.of_nat (List.length supportPoints) / 2)%Z
               = Z.of_nat (List.length supportPoints / 2)).
  { now rewrite Nat2Z.inj_div. }
  assert (Hle : (List.length supportPoints / 2 <= List.length supportPoints)%nat).
  { apply Nat.Div0.div_le_upper_bound. lia. }
  rewrite Hh, slice_prefix, sliceFrom_suffix by assumption. reflexivity.
Qed.

(** X7.  The support messages of the feedback agree with the
    penalties: the strength "no supports needed" is given exactly when
    both phase penalties are 0, which is exactly when no frame shows a
    support; the arms-crossed recommendation is given exactly when some
    frame shows a hand support, and the knee recommendation exactly when
    some frame shows a knee support and none a hand support. *)
Theorem support_feedback_matches_penalty (sittingScores : Avg.Sitting)
  (risingScores : Avg.Rising) (components : ComponentScores)
  (supportPoints : list (list Support)) :
  let fb :=
    generateDetailedFeedback sittingScores risingScores components supportPoints in
  let penalty := calculateSupportPenalty supportPoints in
  (In "Excellent form - no supports needed" (strengths fb)
   <-> sitting penalty = Fin 0 /\ rising penalty = Fin 0)
  /\ (In "Excellent form - no supports needed" (strengths fb)
      <-> forall frame, In frame supportPoints -> frame = [])
  /\ (In "Practice the movement with arms crossed over chest" (recommendations fb)
      <-> showsSupport HAND supportPoints = true)
  /\ (In "Practice the movement without knee support" (recommendations fb)
      <-> showsSupport HAND supportPoints = false
          /\ showsSupport KNEE supportPoints = true).
Proof.
  intros fb penalty.
  destruct (feedback_structure sittingScores risingScores components supportPoints)
    as (ps & pi & pr & Hs & _ & Hr & Hps & Hpr & _).
  fold fb in Hs, Hr. cbv zeta in Hs, Hr.
  pose proof (setOf_empty supportPoints) as Hempty.
  pose proof (setOf_has (List.concat supportPoints) [] HAND) as Hhand.
  pose proof (setOf_has (List.concat supportPoints) [] KNEE) as Hknee.
  rewrite existsb_concat_shows in Hhand, Hknee. simpl in Hhand, Hknee.
  assert (Hnone : In "Excellent form - no supports needed" (strengths fb)
                  <-> showsSupport HAND supportPoints = false
                      /\ showsSupport KNEE supportPoints = false).
  { rewrite Hs, in_app_iff, <- Hempty.
    destruct (setOf (List.concat supportPoints) []) as [| a l].
    - split; [reflexivity | intros _; right; now left].
    - split; [| discriminate].
      intros [H | []]. apply Hps in H. simpl in H.
      destruct H as [H | [H | []]]; discriminate. }
  assert (Hpen : sitting penalty = Fin 0 /\ rising penalty = Fin 0
                 <-> showsSupport HAND supportPoints = false
                     /\ showsSupport KNEE supportPoints = false).
  { subst penalty. rewrite calculateSupportPenalty_halves.
    cbn [sitting rising]. rewrite !calculatePhasePenalty_closed.
    rewrite (showsSupport_halves HAND supportPoints (List.length supportPoints / 2)).
    rewrite (showsSupport_halves KNEE supportPoints (List.length supportPoints / 2)).
    destruct (showsSupport HAND (firstn _ _)), (showsSupport KNEE (firstn _ _)),
      (showsSupport HAND (skipn _ _)), (showsSupport KNEE (skipn _ _));
      simpl; split; intros [H1 H2];
      try discriminate; try (split; reflexivity);
      try (injection H1 as H1; lra); try (injection H2 as H2; lra);
      split; f_equal; lra. }
  split; [now rewrite Hnone, Hpen |].
  split; [now rewrite Hnone, showsSupport_none |].
  assert (Hprior : forall m,
             In m pr ->
             m <> "Practice the movement with arms crossed over chest"
             /\ m <> "Practice the movement without knee support").
  { intros m Hm. apply Hpr in Hm. simpl in Hm.
    destruct Hm as [<- | [<- | [<- | [<- | [<- | [<- | []]]]]]];
      split; discriminate. }
  split.
  - rewrite Hr, in_app_iff.
    destruct (setOf (List.concat supportPoints) []) as [| a l] eqn:Hused.
    + destruct Hempty as [Hempty _]. destruct (Hempty eq_refl) as [-> _].
      split; [| discriminate].
      intros [H | []]. now destruct (Hprior _ H).
    + rewrite Hhand. destruct (showsSupport HAND supportPoints).
      * split; [reflexivity | intros _; right; now left].
      * split; [| discriminate].
        intros [H | [H | []]]; [now destruct (Hprior _ H) | discriminate].
  - rewrite Hr, in_app_iff.
    destruct (setOf (List.concat supportPoints) []) as [| a l] eqn:Hused.
    + destruct Hempty as [Hempty _]. destruct (Hempty eq_refl) as [-> ->].
      split; [| intros [_ H]; discriminate].
      intros [H | []]. now destruct (Hprior _ H).
    + rewrite Hhand.
      assert (Hsome : showsSupport HAND supportPoints = false ->
                      showsSupport KNEE supportPoints = true).
      { intros Hh. destruct (showsSupport KNEE supportPoints) eqn:Hk;
          [reflexivity |].
        destruct Hempty as [_ Hempty]. discriminate (Hempty (conj Hh eq_refl)). }
      destruct (showsSupport HAND supportPoints).
      * split; [| intros [H _]; discriminate].
        intros [H | [H | []]]; [now destruct (Hprior _ H) | discriminate].
      * split; [intros _; split; [reflexivity | now apply Hsome] |].
        intros _. right. now left.
Qed.

(** The statement above at a run whose first frame shows a hand
    support. *)
Lemma support_feedback_matches_penalty_witness :
  In "Practice the movement with arms crossed over chest"
     (recommendations
        (generateDetailedFeedback
           {| Avg.kneeFlexion := Fin 1; Avg.hipControl := Fin 1;
              Avg.spinalAlignment := Fin 1 |}
           {| Avg.kneeExtension := Fin 1; Avg.hipDrive := Fin 1;
              Avg.stability := Fin 1 |}
           {| posturalControl := Fin 1; balance := Fin 1; coordination := Fin 1 |}
           [[HAND]; []])).
Proof.
  apply (support_feedback_matches_penalty
           {| Avg.kneeFlexion := Fin 1; Avg.hipControl := Fin 1;
              Avg.spinalAlignment := Fin 1 |}
           {| Avg.kneeExtension := Fin 1; Avg.hipDrive := Fin 1;
              Avg.stability := Fin 1 |}
           {| posturalControl := Fin 1; balance := Fin 1; coordination := Fin 1 |}
           [[HAND]; []]).
  reflexivity.
Defined.

(** ** The two phases of a run *)

Lemma firstn_clip {A : Type} (k : nat) (l : list A) :
  firstn k l = firstn (Nat.min (List.length l) k) l.
Proof.
  destruct (Nat.le_ge_cases k (List.length l)) as [H | H].
  - now rewrite Nat.min_r.
  - rewrite Nat.min_l by exact H. rewrite firstn_all. now apply firstn_all2.
Qed.

Lemma firstn_split {A : Type} (a b : nat) (l : list A) :
  (a <= b)%nat ->
  firstn b l = (firstn a l ++ firstn (b - a) (skipn a l))%list.
Proof.
  intros H. rewrite <- (firstn_skipn a l) at 1.
  destruct (Nat.le_ge_cases a (List.length l)) as [Hl | Hl].
  - assert (E : b = (List.length (firstn a l) + (b - a))%nat)
      by (rewrite length_firstn; lia).
    rewrite E at 1. apply firstn_app_2.
  - rewrite (skipn_all2 l Hl), firstn_nil, !app_nil_r.
    rewrite (firstn_all2 l Hl). apply firstn_all2. lia.
Qed.

(** X8.  The two phase slices of a run of at least 20 frames leave no
    frame out: with [a = min(n - 10, transition)] and
    [b = min(n, max(10, transition))], the sitting slice is the frames
    before [a] followed by the frames from [a] to [b], the rising slice
    is the frames from [a] to [b] followed by the frames from [b] on.
    The frames from [a] to [b] are analysed in both phases; there are
    none exactly when the transition lies between 10 and [n - 10], and
    then the two slices split the run at the transition. *)
Theorem phase_slices_cover {A : Type} (poseAnalyses : list A) (transition : nat) :
  (20 <= List.length poseAnalyses)%nat ->
  let n := List.length poseAnalyses in
  let a := Nat.min (n - 10) transition in
  let b := Nat.min n (Nat.max 10 transition) in
  let shared := firstn (b - a) (skipn a poseAnalyses) in
  sittingSlice poseAnalyses transition = (firstn a poseAnalyses ++ shared)%list
  /\ risingSlice poseAnalyses transition = (shared ++ skipn b poseAnalyses)%list
  /\ poseAnalyses = (firstn a poseAnalyses ++ shared ++ skipn b poseAnalyses)%list
  /\ List.length shared = (b - a)%nat
  /\ (shared = [] <-> (10 <= transition <= n - 10)%nat)
  /\ ((10 <= transition <= n - 10)%nat ->
      sittingSlice poseAnalyses transition = firstn transition poseAnalyses
      /\ risingSlice poseAnalyses transition = skipn transition poseAnalyses).
Proof.
  intros Hlen n a b shared.
  assert (Hab : (a <= b <= n)%nat) by (unfold a, b; lia).
  assert (Hsit : sittingSlice poseAnalyses transition = firstn b poseAnalyses).
  { unfold sittingSlice, minFramesPerPhase. rewrite slice_0.
    rewrite firstn_clip. reflexivity. }
  assert (Hrise : risingSlice poseAnalyses transition = skipn a poseAnalyses).
  { unfold risingSlice, minFramesPerPhase. fold n.
    replace (Z.min (Z.of_nat n - Z.of_nat 10) (Z.of_nat transition))
      with (Z.of_nat a) by (unfold a; lia).
    apply sliceFrom_suffix. fold n. lia. }
  assert (Hshared : List.length shared = (b - a)%nat).
  { unfold shared. rewrite length_firstn, length_skipn. fold n. lia. }
  assert (Hrest : skipn a poseAnalyses = (shared ++ skipn b poseAnalyses)%list).
  { unfold shared. rewrite <- (firstn_skipn (b - a) (skipn a poseAnalyses)) at 1.
    rewrite skipn_skipn. now replace (b - a + a)%nat with b by lia. }
  split; [rewrite Hsit; apply firstn_split; lia |].
  split; [now rewrite Hrise |].
  split; [rewrite <- Hrest; symmetry; apply firstn_skipn |].
  split; [exact Hshared |].
  split; [| intros Ht; rewrite Hsit, Hrise; unfold a, b; split; f_equal; lia].
  split.
  - intros E. rewrite E in Hshared. simpl in Hshared. unfold a, b in Hshared. lia.
  - intros Ht. apply length_zero_iff_nil. rewrite Hshared. unfold a, b. lia.
Qed.

(** The statement above at a run of 25 frames with the transition at
    frame 4: frames 4 to 9 are analysed in both phases. *)
Lemma phase_slices_cover_witness :
  sittingSlice (seq 0 25) 4 = ([0; 1; 2; 3] ++ [4; 5; 6; 7; 8; 9])%nat%list
  /\ risingSlice (seq 0 25) 4
     = ([4; 5; 6; 7; 8; 9] ++ [10; 11; 12; 13; 14; 15; 16; 17; 18; 19; 20; 21;
                               22; 23; 24])%nat%list.
Proof.
  destruct (phase_slices_cover (seq 0 25) 4) as (Hs & Hr & _).
  - rewrite length_seq. lia.
  - split; [exact Hs | exact Hr].
Defined.

Lemma transition_upper_bound (poses : list (option Pose)) (transition : nat) :
  allDetected poses ->
  (3 <= List.length poses)%nat ->
  detectPhaseTransition poses = inr transition ->
  (transition <= List.length poses - 2)%nat.
Proof.
  intros Hall Hlen Hdet. unfold detectPhaseTransition in Hdet.
  destruct (scanHips poses) as [e | st] eqn:Hscan; simpl in Hdet; [discriminate |].
  injection Hdet as <-.
  destruct (scanHips_invariant poses st Hall ltac:(lia) Hscan) as [Hmove Hlow].
  set (n := List.length poses) in *.
  assert (Hhalf : (n / 2 <= n - 2)%nat).
  { pose proof (Nat.div_mod_eq n 2). pose proof (Nat.mod_upper_bound n 2). lia. }
  assert (Ht : (transitionFrame st <= n - 2)%nat).
  { destruct Hmove as [(-> & _) | (_ & (Hr & _))]; lia. }
  assert (Hl : (lowestHipFrame st <= n - 2)%nat).
  { destruct Hlow as [(-> & _) | (_ & (Hr & _))]; lia. }
  destruct (_ <? _)%nat; lia.
Qed.

(** X9.  The transition index of a run of at least 10 detections is
    never the last frame: it is at most [n - 2].  When the hip of every
    confident hip triple has a finite height, it is not the first frame
    either. *)
Theorem transition_is_interior_frame (poses : list (option Pose)) (transition : nat) :
  allDetected poses ->
  (10 <= List.length poses)%nat ->
  detectPhaseTransition poses = inr transition ->
  (transition <= List.length poses - 2)%nat
  /\ ((forall i, tripleConfident poses i = true -> finite (hipY poses i)) ->
      (1 <= transition)%nat).
Proof.
  intros Hall Hlen Hdet. unfold detectPhaseTransition in Hdet.
  destruct (scanHips poses) as [e | st] eqn:Hscan; simpl in Hdet; [discriminate |].
  injection Hdet as <-.
  destruct (scanHips_invariant poses st Hall ltac:(lia) Hscan) as [Hmove Hlow].
  set (n := List.length poses) in *.
  assert (Hhalf : (5 <= n / 2 <= n - 2)%nat).
  { split; [apply Nat.div_le_lower_bound; lia |].
    apply Nat.Div0.div_le_upper_bound. lia. }
  assert (Ht : (1 <= transitionFrame st <= n - 2)%nat).
  { destruct Hmove as [(-> & _) | (_ & (Hr & _))]; lia. }
  split.
  - destruct (_ <? _)%nat eqn:Hnear; [| lia].
    destruct Hlow as [(-> & _) | (_ & (Hr & _))]; lia.
  - intros Hfin.
    destruct Hlow as [(E0 & _ & Hnone) | (_ & (Hr & _))].
    + assert (Hno : forall j, (1 <= j < n - 1)%nat -> tripleConfident poses j = false).
      { intros j Hj. destruct (tripleConfident poses j) eqn:Hc; [| reflexivity].
        specialize (Hnone j Hj Hc). destruct (Hfin j Hc) as [y Hy].
        rewrite Hy in Hnone. discriminate. }
      destruct Hmove as [(E & _) | (_ & (Hr & Hc & _))].
      * rewrite E0, E. unfold indexDistance.
        destruct (Nat.ltb_spec (0 - n / 2 + (n / 2 - 0)) 5); lia.
      * rewrite Hno in Hc by lia. discriminate.
    + destruct (_ <? _)%nat; lia.
Qed.

Lemma emptyPose_never_confident (k i : nat) :
  tripleConfident (repeat (Some emptyPose) k) i = false.
Proof.
  unfold tripleConfident, hipConfidentAt.
  destruct (nth_error (repeat (Some emptyPose) k) (i - 1)) as [[p |] |] eqn:E;
    [| reflexivity | reflexivity].
  apply nth_error_In, repeat_spec in E. injection E as ->. reflexivity.
Qed.

(** The statement above at 20 detections without keypoints. *)
Lemma transition_is_interior_frame_witness :
  exists transition,
    detectPhaseTransition (repeat (Some emptyPose) 20) = inr transition
    /\ (1 <= transition <= 18)%nat.
Proof.
  destruct (phase_slices_detected (repeat (Some emptyPose) 20)) as [t Ht].
  - simpl. lia.
  - repeat constructor; discriminate.
  - exists t. split; [exact Ht |].
    destruct (transition_is_interior_frame (repeat (Some emptyPose) 20) t)
      as [Hup Hlow].
    + repeat constructor; discriminate.
    + simpl. lia.
    + exact Ht.
    + split; [| exact Hup].
      apply Hlow. intros i Hi. rewrite emptyPose_never_confident in Hi. discriminate.
Defined.

(** ** Outcome of a run *)

Lemma mapE_length {A B : Type} (f : A -> result B) (l : list A) :
  forall bs, mapE f l = inr bs -> List.length bs = List.length l.
Proof.
  induction l as [| a l IH]; intros bs; simpl.
  - intros H. injection H as <-. reflexivity.
  - destruct (f a) as [e | b]; simpl; [discriminate |].
    destruct (mapE f l) as [e | bs']; simpl; [discriminate |].
    intros H. injection H as <-. simpl. f_equal. now apply IH.
Qed.

Lemma analysisBody_success (detector : FramePath -> option Pose)
  (frames : list FramePath) (report : Report) :
  analysisBody detector frames = inr report ->
  (20 <= List.length frames)%nat /\ ~ In None (map detector frames).
Proof.
  intros H.
  destruct (analysisBody_outcome detector frames) as (Hshort & Hnone & _).
  destruct (Nat.lt_ge_cases (List.length frames) 20) as [Hlt | Hge].
  - rewrite (Hshort Hlt) in H. discriminate.
  - split; [exact Hge |]. intros Hin. rewrite (Hnone Hge Hin) in H. discriminate.
Qed.

(** X10.  A run returns a report exactly when at least 20 frames were
    sampled and the estimator detected a pose in every one of them;
    every failure, whatever its cause, reaches the caller as the error
    "Failed to analyze video". *)
Theorem analyzeSRTVideo_outcome (detector : FramePath -> option Pose)
  (frames : list FramePath) :
  ((exists report, analyzeSRTVideo detector frames = inr report)
   <-> (20 <= List.length frames)%nat /\ ~ In None (map detector frames))
  /\ (forall e, analyzeSRTVideo detector frames = inl e ->
                e = Error "Failed to analyze video").
Proof.
  unfold analyzeSRTVideo. split; [split |].
  - intros [report H].
    destruct (analysisBody detector frames) as [e | r] eqn:Hbody; [discriminate |].
    exact (analysisBody_success detector frames r Hbody).
  - intros [Hlen Hall].
    destruct (analysisBody_outcome detector frames) as (_ & _ & Hok).
    destruct (Hok Hlen Hall) as [report ->]. now exists report.
  - intros e. destruct (analysisBody detector frames); [| discriminate].
    intros H. now injection H as <-.
Qed.

(** The statement above at 20 frames with a detection each. *)
Lemma analyzeSRTVideo_outcome_witness :
  exists report,
    analyzeSRTVideo (fun _ => Some emptyPose) (repeat "frame-1.jpg" 20) = inr report.
Proof.
  apply (analyzeSRTVideo_outcome (fun _ => Some emptyPose) (repeat "frame-1.jpg" 20)).
  split.
  - simpl. lia.
  - simpl. intuition discriminate.
Defined.

(** X11.  What a report holds: the sampled frames themselves, their
    number, one support set per frame and a transition index inside the
    run; the three scores are those of the score aggregation on the
    reported phase averages and support sets, the feedback is the one
    generated from the reported values; every phase average and
    composite index lies in [0, 1], the phase scores in [1.5, 5] and the
    total in [2, 10]. *)
Theorem report_contents (detector : FramePath -> option Pose)
  (frames : list FramePath) (report : Report) :
  analyzeSRTVideo detector frames = inr report ->
  keyFrames report = frames
  /\ frameCount report = List.length frames
  /\ List.length (supportPointsUsed report) = List.length frames
  /\ (reportedTransition report <= List.length frames - 2)%nat
  /\ scores report
     = calculatePhaseScores (sittingPhase report) (risingPhase report)
         (calculateSupportPenalty (supportPointsUsed report))
  /\ feedback report
     = generateDetailedFeedback (sittingPhase report) (risingPhase report)
         (componentScores report) (supportPointsUsed report)
  /\ within 0 1 (Avg.kneeFlexion (sittingPhase report))
  /\ within 0 1 (Avg.hipControl (sittingPhase report))
  /\ within 0 1 (Avg.spinalAlignment (sittingPhase report))
  /\ within 0 1 (Avg.kneeExtension (risingPhase report))
  /\ within 0 1 (Avg.hipDrive (risingPhase report))
  /\ within 0 1 (Avg.stability (risingPhase report))
  /\ within 0 1 (posturalControl (componentScores report))
  /\ within 0 1 (balance (componentScores report))
  /\ within 0 1 (coordination (componentScores report))
  /\ within (3 / 2) 5 (sitScore (scores report))
  /\ within (3 / 2) 5 (riseScore (scores report))
  /\ within 2 10 (totalScore (scores report)).
Proof.
  unfold analyzeSRTVideo.
  destruct (analysisBody detector frames) as [e | r] eqn:Hbody; [discriminate |].
  intros H. injection H as <-.
  destruct (report_in_range detector frames r Hbody)
    as (R1 & R2 & R3 & R4 & R5 & R6).
  destruct (analysisBody_success detector frames r Hbody) as [Hlen Hall].
  apply allDetected_In in Hall.
  assert (Havg : forall l, within 0 1 (safeScore (average l) (Fin 0))).
  { intros l. apply safeScore_within. lra. }
  unfold analysisBody in Hbody.
  destruct (_ <? _)%nat; [discriminate |].
  destruct (detectPhaseTransition _) as [e | t] eqn:Ht; simpl in Hbody;
    [discriminate |].
  destruct (analyzeSittingPhase _) as [e | sit]; simpl in Hbody; [discriminate |].
  destruct (analyzeRisingPhase _) as [e | rise]; simpl in Hbody; [discriminate |].
  destruct (mapE detectSupportPoints _) as [e | sp] eqn:Hsp; simpl in Hbody;
    [discriminate |].
  apply mapE_length in Hsp. rewrite length_map in Hsp.
  apply transition_upper_bound in Ht; [| exact Hall | rewrite length_map; lia].
  rewrite length_map in Ht.
  injection Hbody as <-.
  cbn [keyFrames frameCount supportPointsUsed reportedTransition scores feedback
       sittingPhase risingPhase componentScores
       Avg.kneeFlexion Avg.hipControl Avg.spinalAlignment
       Avg.kneeExtension Avg.hipDrive Avg.stability] in *.
  repeat match goal with |- _ /\ _ => split end;
    try reflexivity; try assumption; try apply Havg.
Qed.

(** The statement above at 20 frames with a detection each. *)
Lemma report_contents_witness :
  exists report,
    analyzeSRTVideo (fun _ => Some emptyPose) (repeat "frame-1.jpg" 20) = inr report
    /\ frameCount report = 20%nat
    /\ within 2 10 (totalScore (scores report)).
Proof.
  destruct (analysisBody_outcome (fun _ => Some emptyPose) (repeat "frame-1.jpg" 20))
    as (_ & _ & Hok).
  destruct Hok as [report Hbody].
  - simpl. lia.
  - simpl. intuition discriminate.
  - exists report.
    assert (Hrun : analyzeSRTVideo (fun _ => Some emptyPose)
                     (repeat "frame-1.jpg" 20) = inr report).
    { unfold analyzeSRTVideo. now rewrite Hbody. }
    split; [exact Hrun |].
    destruct (report_contents _ _ _ Hrun) as (_ & Hc & Hrest).
    split; [exact Hc |].
    repeat (destruct Hrest as (_ & Hrest)). exact Hrest.
Defined.

(** ** Averages *)

Lemma unit_scores_finite (arr : list num) :
  Forall (within 0 1) arr ->
  arr = map Fin (finiteValues arr)
  /\ List.length (finiteValues arr) = List.length arr
  /\ 0 <= Rsum (finiteValues arr) <= INR (List.length arr).
Proof.
  induction 1 as [| a arr (r & -> & Hr) _ (IH1 & IH2 & IH3)].
  - simpl. repeat split; lra.
  - cbn [finiteValues map List.length Rsum fold_right].
    fold (Rsum (finiteValues arr)).
    rewrite <- IH1, IH2, S_INR. repeat split; lra.
Qed.

Lemma fold_add_NaN (arr : list num) : fold_left JS.add arr NaN = NaN.
Proof. induction arr as [| a arr IH]; [reflexivity | exact IH]. Qed.

Lemma sum_with_NaN (arr : list num) :
  In NaN arr -> forall acc, fold_left JS.add arr acc = NaN.
Proof.
  induction arr as [| a arr IH]; intros Hin acc; [contradiction |].
  destruct Hin as [-> | Hin]; simpl.
  - replace (acc +' NaN) with NaN by (destruct acc; reflexivity).
    apply fold_add_NaN.
  - now apply IH.
Qed.

(** X12.  The average of a non-empty array of scores in [0, 1] is their
    arithmetic mean, lies in [0, 1], and [safeScore] returns it
    unchanged.  One NaN entry makes the average NaN, and [safeScore]
    then returns the default value, as it does for the empty array. *)
Theorem average_of_scores (arr : list num) (defaultValue : num) :
  (arr <> [] -> Forall (within 0 1) arr ->
   average arr = Fin (Rsum (finiteValues arr) / INR (List.length arr))
   /\ within 0 1 (average arr)
   /\ safeScore (average arr) defaultValue = average arr)
  /\ (In NaN arr -> safeScore (average arr) defaultValue = defaultValue)
  /\ safeScore (average []) defaultValue = defaultValue.
Proof.
  split; [| split].
  - intros Hne Hall.
    destruct (unit_scores_finite arr Hall) as (Harr & Hlen & Hsum).
    assert (Hn : 0 < INR (List.length arr)).
    { apply lt_0_INR. destruct arr; [congruence | simpl; lia]. }
    assert (Havg : average arr = Fin (Rsum (finiteValues arr) / INR (List.length arr))).
    { unfold average. rewrite Harr at 1. rewrite fold_add_Fin, Rplus_0_l.
      cbn [JS.div]. rewrite Reqb_false by lra. reflexivity. }
    assert (Hrange : 0 <= Rsum (finiteValues arr) / INR (List.length arr) <= 1).
    { split.
      - apply Rmult_le_pos; [lra |]. apply Rlt_le, Rinv_0_lt_compat, Hn.
      - apply Rmult_le_reg_r with (INR (List.length arr)); [exact Hn |].
        unfold Rdiv. rewrite Rmult_assoc, Rinv_l by lra. lra. }
    split; [exact Havg |].
    split; [rewrite Havg; eexists; split; [reflexivity | exact Hrange] |].
    unfold safeScore. rewrite Havg, isValidScore_Fin.
    now rewrite !Rleb_true by lra.
  - intros Hin. unfold average. now rewrite (sum_with_NaN arr Hin).
  - unfold average. simpl. rewrite Reqb_true by reflexivity.
    unfold inf_times. rewrite !Rltb_false by lra. reflexivity.
Qed.

(** The statement above at the scores 1, 0 and 1/2. *)
Lemma average_of_scores_witness :
  safeScore (average [Fin 1; Fin 0; Fin (1 / 2)]) (Fin 0)
  = average [Fin 1; Fin 0; Fin (1 / 2)].
Proof.
  destruct (average_of_scores [Fin 1; Fin 0; Fin (1 / 2)] (Fin 0)) as (H & _).
  destruct H as (_ & _ & H).
  - discriminate.
  - repeat constructor; eexists; (split; [reflexivity | lra]).
  - exact H.
Defined.

(** ** Phase scores: monotonicity and rounding *)

Lemma rawSit_mono (kF hC sA kF' hC' sA' : R) :
  kF <= kF' -> hC <= hC' -> sA <= sA' -> rawSit kF hC sA <= rawSit kF' hC' sA'.
Proof. intros. unfold rawSit. apply Rle_max_compat_l. lra. Qed.

Lemma rawRise_mono (kE hD st kE' hD' st' : R) :
  kE <= kE' -> hD <= hD' -> st <= st' -> rawRise kE hD st <= rawRise kE' hD' st'.
Proof. intros. unfold rawRise. apply Rle_max_compat_l. lra. Qed.

Lemma Rmin_mono_r (c x y : R) : x <= y -> Rmin c x <= Rmin c y.
Proof. intros H. unfold Rmin. destruct (Rle_dec c x), (Rle_dec c y); lra. Qed.

(** X13.  Better metric averages never lower a score: when no average
    of the sitting and rising phases decreases and the penalties stay
    the same, none of sitScore, riseScore and totalScore decreases. *)
Theorem phase_scores_monotone (kF hC sA kE hD st kF' hC' sA' kE' hD' st' pS pR : R) :
  kF <= kF' -> hC <= hC' -> sA <= sA' ->
  kE <= kE' -> hD <= hD' -> st <= st' ->
  let before :=
    calculatePhaseScores
      {| Avg.kneeFlexion := Fin kF; Avg.hipControl := Fin hC;
         Avg.spinalAlignment := Fin sA |}
      {| Avg.kneeExtension := Fin kE; Avg.hipDrive := Fin hD;
         Avg.stability := Fin st |}
      {| sitting := Fin pS; rising := Fin pR |} in
  let after :=
    calculatePhaseScores
      {| Avg.kneeFlexion := Fin kF'; Avg.hipControl := Fin hC';
         Avg.spinalAlignment := Fin sA' |}
      {| Avg.kneeExtension := Fin kE'; Avg.hipDrive := Fin hD';
         Avg.stability := Fin st' |}
      {| sitting := Fin pS; rising := Fin pR |} in
  (sitScore before <=' sitScore after) = true
  /\ (riseScore before <=' riseScore after) = true
  /\ (totalScore before <=' totalScore after) = true.
Proof.
  intros H1 H2 H3 H4 H5 H6 before after. subst before after.
  rewrite !calculatePhaseScores_Fin. cbn [sitScore riseScore totalScore].
  assert (Hs : Rclamp (3 / 2) 5 (rawSit kF hC sA - pS * (6 / 10))
               <= Rclamp (3 / 2) 5 (rawSit kF' hC' sA' - pS * (6 / 10))).
  { apply Rclamp_mono. pose proof (rawSit_mono kF hC sA kF' hC' sA' H1 H2 H3). lra. }
  assert (Hr : Rclamp (3 / 2) 5 (rawRise kE hD st - pR * (6 / 10))
               <= Rclamp (3 / 2) 5 (rawRise kE' hD' st' - pR * (6 / 10))).
  { apply Rclamp_mono. pose proof (rawRise_mono kE hD st kE' hD' st' H4 H5 H6). lra. }
  repeat split; apply le_Fin, round2_mono; try assumption.
  apply Rmin_mono_r. lra.
Qed.

(** The statement above when the knee flexion average rises from 0.5
    to 0.9. *)
Lemma phase_scores_monotone_witness :
  (totalScore
     (calculatePhaseScores
        {| Avg.kneeFlexion := Fin (1 / 2); Avg.hipControl := Fin (1 / 2);
           Avg.spinalAlignment := Fin (1 / 2) |}
        {| Avg.kneeExtension := Fin (1 / 2); Avg.hipDrive := Fin (1 / 2);
           Avg.stability := Fin (1 / 2) |}
        {| sitting := Fin 0; rising := Fin 0 |})
   <=' totalScore
         (calculatePhaseScores
            {| Avg.kneeFlexion := Fin (9 / 10); Avg.hipControl := Fin (1 / 2);
               Avg.spinalAlignment := Fin (1 / 2) |}
            {| Avg.kneeExtension := Fin (1 / 2); Avg.hipDrive := Fin (1 / 2);
               Avg.stability := Fin (1 / 2) |}
            {| sitting := Fin 0; rising := Fin 0 |})) = true.
Proof.
  destruct (phase_scores_monotone (1 / 2) (1 / 2) (1 / 2) (1 / 2) (1 / 2) (1 / 2)
              (9 / 10) (1 / 2) (1 / 2) (1 / 2) (1 / 2) (1 / 2) 0 0)
    as (_ & _ & H); try lra.
  exact H.
Defined.

Lemma round2_eq (z : Z) (x : R) :
  IZR z <= x * 100 + / 2 < IZR z + 1 -> round2 x = IZR z / 100.
Proof. intros H. unfold round2. now rewrite (Zfloor_eq z). Qed.

Lemma round2_sum (s r : R) :
  Rabs (round2 (s + r) - (round2 s + round2 r)) <= 1 / 100.
Proof.
  unfold round2.
  pose proof (Zfloor_bound (s * 100 + / 2)) as Hs.
  pose proof (Zfloor_bound (r * 100 + / 2)) as Hr.
  pose proof (Zfloor_bound ((s + r) * 100 + / 2)) as Ht.
  set (A := Zfloor (s * 100 + / 2)) in *.
  set (B := Zfloor (r * 100 + / 2)) in *.
  set (C := Zfloor ((s + r) * 100 + / 2)) in *.
  assert (Hup : (C <= A + B + 1)%Z).
  { apply Z.lt_succ_r, lt_IZR. rewrite succ_IZR, !plus_IZR. lra. }
  assert (Hlow : (A + B - 1 <= C)%Z).
  { apply Z.lt_succ_r, lt_IZR. rewrite succ_IZR, minus_IZR, plus_IZR. lra. }
  apply IZR_le in Hup, Hlow.
  rewrite !plus_IZR in Hup. rewrite minus_IZR, plus_IZR in Hlow.
  apply Rabs_le. lra.
Qed.

(** X14.  The reported total agrees with the sum of the two reported
    phase scores up to one hundredth: the total is rounded from the
    unrounded phase scores.  The difference of one hundredth occurs,
    for instance when every average is 0.3008. *)
Theorem total_within_a_hundredth_of_the_parts :
  (forall kF hC sA kE hD st pS pR : R,
      exists s r t : R,
        calculatePhaseScores
          {| Avg.kneeFlexion := Fin kF; Avg.hipControl := Fin hC;
             Avg.spinalAlignment := Fin sA |}
          {| Avg.kneeExtension := Fin kE; Avg.hipDrive := Fin hD;
             Avg.stability := Fin st |}
          {| sitting := Fin pS; rising := Fin pR |}
        = {| sitScore := Fin s; riseScore := Fin r; totalScore := Fin t |}
        /\ Rabs (t - (s + r)) <= 1 / 100)
  /\ calculatePhaseScores
       {| Avg.kneeFlexion := Fin (3008 / 10000); Avg.hipControl := Fin (3008 / 10000);
          Avg.spinalAlignment := Fin (3008 / 10000) |}
       {| Avg.kneeExtension := Fin (3008 / 10000); Avg.hipDrive := Fin (3008 / 10000);
          Avg.stability := Fin (3008 / 10000) |}
       {| sitting := Fin 0; rising := Fin 0 |}
     = {| sitScore := Fin (150 / 100); riseScore := Fin (150 / 100);
          totalScore := Fin (301 / 100) |}.
Proof.
  split.
  - intros. rewrite calculatePhaseScores_Fin.
    set (s := Rclamp (3 / 2) 5 (rawSit kF hC sA - pS * (6 / 10))).
    set (r := Rclamp (3 / 2) 5 (rawRise kE hD st - pR * (6 / 10))).
    assert (Hs : 3 / 2 <= s <= 5) by (apply Rclamp_bounds; lra).
    assert (Hr : 3 / 2 <= r <= 5) by (apply Rclamp_bounds; lra).
    exists (round2 s), (round2 r), (round2 (Rmin 10 (s + r))).
    split; [reflexivity |].
    rewrite Rmin_right by lra. apply round2_sum.
  - rewrite calculatePhaseScores_Fin.
    assert (Es : rawSit (3008 / 10000) (3008 / 10000) (3008 / 10000) = 1504 / 1000).
    { unfold rawSit. rewrite Rmax_right; lra. }
    assert (Er : rawRise (3008 / 10000) (3008 / 10000) (3008 / 10000) = 1504 / 1000).
    { unfold rawRise. rewrite Rmax_right; lra. }
    rewrite Es, Er.
    replace (1504 / 1000 - 0 * (6 / 10)) with (1504 / 1000) by lra.
    rewrite Rclamp_inside by lra.
    rewrite Rmin_right by lra.
    rewrite (round2_eq 150) by lra.
    rewrite (round2_eq 301) by lra.
    reflexivity.
Qed.

(** ** Frame rate of the extraction *)

Lemma calculateOptimalFps_Fin (d : R) :
  d <> 0 -> calculateOptimalFps (Fin d) = Fin (Rclamp 5 10 (40 / d)).
Proof.
  intros Hd. unfold calculateOptimalFps, BASE_FPS, MAX_FRAMES.
  replace (INR 40) with 40 by (simpl; lra).
  cbn [JS.div]. rewrite Reqb_false by exact Hd.
  rewrite min_Fin, max_Fin, Rmin_comm. reflexivity.
Qed.

(** X15.  The extraction frame rate lies between 5 and 10 for every
    duration that is a number, and is NaN otherwise.  For a positive
    duration [d] it is 40 / d clamped to [5, 10]: the rate times the
    duration reaches the 20 frames an analysis needs exactly when the
    video lasts at least 2 seconds, and stays within the 40 frames of
    the sampler exactly when it lasts at most 8 seconds. *)
Theorem calculateOptimalFps_range (duration : num) :
  (isNaN duration = false -> within 5 10 (calculateOptimalFps duration))
  /\ (isNaN duration = true -> calculateOptimalFps duration = NaN)
  /\ (forall d, duration = Fin d -> 0 < d ->
      let fps := Rclamp 5 10 (40 / d) in
      calculateOptimalFps duration = Fin fps
      /\ (INR MIN_FRAMES <= fps * d <-> 2 <= d)
      /\ (fps * d <= INR MAX_FRAMES <-> d <= 8)).
Proof.
  split; [| split].
  - destruct duration as [| | | d]; simpl; try discriminate; intros _.
    + unfold calculateOptimalFps, BASE_FPS. cbn [JS.div].
      rewrite min_Fin, max_Fin. eexists. split; [reflexivity |].
      pose proof (Rclamp_bounds 5 10 0). unfold Rclamp in H.
      rewrite Rmin_comm. lra.
    + unfold calculateOptimalFps, BASE_FPS. cbn [JS.div].
      rewrite min_Fin, max_Fin. eexists. split; [reflexivity |].
      pose proof (Rclamp_bounds 5 10 0). unfold Rclamp in H.
      rewrite Rmin_comm. lra.
    + destruct (Req_dec d 0) as [-> | Hd].
      * unfold calculateOptimalFps, BASE_FPS, MAX_FRAMES. cbn [JS.div].
        rewrite Reqb_true by reflexivity. unfold inf_times.
        rewrite Rltb_true by (simpl; lra).
        cbn [JS.min JS.lt]. cbn [JS.max JS.lt]. rewrite Rltb_true by lra.
        exists 10. split; [reflexivity | lra].
      * rewrite calculateOptimalFps_Fin by exact Hd.
        eexists. split; [reflexivity | apply Rclamp_bounds; lra].
  - destruct duration; simpl; try discriminate. reflexivity.
  - intros d -> Hd fps.
    split; [apply calculateOptimalFps_Fin; lra |].
    replace (INR MIN_FRAMES) with 20 by (unfold MIN_FRAMES; simpl; lra).
    replace (INR MAX_FRAMES) with 40 by (unfold MAX_FRAMES; simpl; lra).
    assert (Hq : 40 / d * d = 40) by (field; lra).
    destruct (Rle_lt_dec d 4) as [H4 | H4].
    + assert (E : fps = 10).
      { apply Rclamp_above; [lra |].
        apply Rmult_le_reg_r with d; [exact Hd |]. rewrite Hq. lra. }
      rewrite E. split; split; intros; lra.
    + destruct (Rle_lt_dec d 8) as [H8 | H8].
      * assert (E : fps = 40 / d).
        { apply Rclamp_inside. split.
          - apply Rmult_le_reg_r with d; [exact Hd |]. rewrite Hq. lra.
          - apply Rmult_le_reg_r with d; [exact Hd |]. rewrite Hq. lra. }
        rewrite E, Hq. split; split; intros; lra.
      * assert (E : fps = 5).
        { unfold fps, Rclamp. rewrite Rmax_left; [reflexivity |].
          apply Rle_trans with (40 / d); [apply Rmin_r |].
          apply Rmult_le_reg_r with d; [exact Hd |]. rewrite Hq. lra. }
        rewrite E. split; split; intros; lra.
Qed.

(** The statement above for a video of 5 seconds: 8 frames a second. *)
Lemma calculateOptimalFps_range_witness :
  calculateOptimalFps (Fin 5) = Fin (Rclamp 5 10 (40 / 5)).
Proof.
  destruct (calculateOptimalFps_range (Fin 5)) as (_ & _ & H).
  destruct (H 5 eq_refl) as (E & _); [lra | exact E].
Defined.

(** ** Frame sampler: what the sample keeps *)

Section SampleKeeps.

Context {A : Type}.
Variable undefinedFrame : A.

(** The sample of a long list, by the positions it takes. *)
Lemma sampleFrames_positions (frames : list A) :
  let n := List.length frames in
  let step := ceilDiv n MAX_FRAMES in
  let q := ((n - 1) / step)%nat in
  (40 < n)%nat ->
  sampleFrames undefinedFrame frames
  = map (fun i => nth i frames undefinedFrame)
        (map (fun j => j * step)%nat (seq 0 q) ++ [n - 1]%nat)
  /\ (2 <= step)%nat /\ (20 <= q <= 39)%nat /\ ((q - 1) * step < n - 1)%nat.
Proof.
  intros n step q Hn.
  assert (Hstep : (n <= 40 * step /\ 2 <= step /\ 40 * step < n + 40)%nat).
  { unfold step, ceilDiv, MAX_FRAMES.
    pose proof (Nat.div_mod_eq (n + 40 - 1) 40) as E.
    pose proof (Nat.mod_upper_bound (n + 40 - 1) 40). lia. }
  destruct Hstep as (Hs1 & Hs2 & Hs3).
  assert (Hq : (step * q <= n - 1 /\ n - 1 < step * q + step)%nat).
  { unfold q. pose proof (Nat.div_mod_eq (n - 1) step) as E.
    pose proof (Nat.mod_upper_bound (n - 1) step). lia. }
  assert (Hq20 : (20 <= q)%nat) by nia.
  assert (Hq39 : (q <= 39)%nat) by nia.
  assert (Hlast : ((q - 1) * step < n - 1)%nat) by nia.
  split; [| repeat split; assumption].
  unfold sampleFrames, MAX_FRAMES.
  destruct (Nat.leb_spec (List.length frames) 40); [unfold n in Hn; lia |].
  fold n. fold MAX_FRAMES. fold step.
  replace (sampleLoop undefinedFrame n frames step step)
    with (map (fun j => nth (j * step) frames undefinedFrame) (seq 1 (q - 1))).
  2:{ symmetry. replace step with (1 * step)%nat at 2 by lia.
      apply sampleLoop_multiples; fold n.
      - nia.
      - intros j Hj. nia.
      - nia. }
  replace q with (S (q - 1)) at 2 by lia.
  cbn [seq map app]. rewrite map_app, !map_map. reflexivity.
Qed.

Lemma positions_increasing (step q last : nat) :
  (1 <= step)%nat -> (1 <= q)%nat -> ((q - 1) * step < last)%nat ->
  NoDup (map (fun j => j * step)%nat (seq 0 q) ++ [last])
  /\ forall i, In i (map (fun j => j * step)%nat (seq 0 q) ++ [last]) -> (i <= last)%nat.
Proof.
  intros Hs Hq Hlast.
  assert (Hin : forall i, In i (map (fun j => j * step)%nat (seq 0 q)) ->
                          (i < last)%nat).
  { intros i Hi. apply in_map_iff in Hi. destruct Hi as (j & <- & Hj).
    apply in_seq in Hj. nia. }
  split.
  - apply NoDup_app.
    + apply NoDup_map_NoDup_ForallPairs; [| apply seq_NoDup].
      intros a b _ _ E. nia.
    + repeat constructor. intros [].
    + intros i Hi [<- | []]. apply Hin in Hi. lia.
  - intros i Hi. apply in_app_iff in Hi. destruct Hi as [Hi | [<- | []]].
    + apply Hin in Hi. lia.
    + lia.
Qed.

End SampleKeeps.

(** X16.  The sample never has more frames than the input and is made
    of input frames only, without repeating a position: distinct frames
    stay distinct.  A list of more than 40 frames is thinned to between
    21 and 40, so an input of at least 20 frames keeps at least the 20
    an analysis needs; sampling a sample changes nothing. *)
Theorem sampleFrames_keeps_enough {A : Type} (undefinedFrame : A) (frames : list A) :
  let sampled := sampleFrames undefinedFrame frames in
  (List.length sampled <= List.length frames)%nat
  /\ ((40 < List.length frames)%nat -> (21 <= List.length sampled <= 40)%nat)
  /\ ((20 <= List.length frames)%nat -> (20 <= List.length sampled)%nat)
  /\ incl sampled frames
  /\ (NoDup frames -> NoDup sampled)
  /\ sampleFrames undefinedFrame sampled = sampled.
Proof.
  intros sampled.
  destruct (Nat.le_gt_cases (List.length frames) 40) as [Hshort | Hlong].
  - assert (E : sampled = frames).
    { unfold sampled, sampleFrames, MAX_FRAMES.
      destruct (Nat.leb_spec (List.length frames) 40); [reflexivity | lia]. }
    rewrite E.
    repeat match goal with |- _ /\ _ => split end;
      try lia; try (intros; assumption); apply incl_refl.
  - destruct (sampleFrames_positions undefinedFrame frames Hlong)
      as (E & Hstep & Hq & Hlast).
    fold sampled in E.
    set (n := List.length frames) in *.
    set (step := ceilDiv n MAX_FRAMES) in *.
    set (q := ((n - 1) / step)%nat) in *.
    destruct (positions_increasing step q (n - 1)) as (Hnodup & Hbound);
      [lia | lia | exact Hlast |].
    assert (Hlen : List.length sampled = (q + 1)%nat).
    { rewrite E, length_map, length_app, length_map, length_seq. reflexivity. }
    repeat match goal with |- _ /\ _ => split end; try lia.
    + intros a Ha. rewrite E in Ha. apply in_map_iff in Ha.
      destruct Ha as (i & <- & Hi). apply nth_In. apply Hbound in Hi. fold n. lia.
    + intros Hfr. rewrite E.
      apply NoDup_map_NoDup_ForallPairs; [| exact Hnodup].
      intros i j Hi Hj Eij.
      apply Hbound in Hi, Hj.
      apply (proj1 (NoDup_nth frames undefinedFrame) Hfr); fold n; try lia.
      exact Eij.
    + unfold sampleFrames at 1, MAX_FRAMES.
      destruct (Nat.leb_spec (List.length sampled) 40); [reflexivity | lia].
Qed.

(** The statement above at a list of 100 distinct frames. *)
Lemma sampleFrames_keeps_enough_witness :
  (21 <= List.length (sampleFrames 0%nat (seq 0 100)) <= 40)%nat
  /\ NoDup (sampleFrames 0%nat (seq 0 100)).
Proof.
  destruct (sampleFrames_keeps_enough 0%nat (seq 0 100))
    as (_ & Hlen & _ & _ & Hnodup & _).
  split.
  - apply Hlen. rewrite length_seq. lia.
  - apply Hnodup. apply seq_NoDup.
Defined.

(** ** Earlier scoring modules *)

Lemma fold_points (deductions : list Deduction) (acc : num) :
  fold_left (fun sum d => sum +' d_points d) deductions acc
  = fold_left JS.add (map d_points deductions) acc.
Proof.
  revert acc. induction deductions as [| d ds IH]; intros acc; simpl.
  - reflexivity.
  - apply IH.
Qed.

Lemma nonpositive_points (deductions : list Deduction) :
  Forall (fun d => exists p, d_points d = Fin p /\ p <= 0) deductions ->
  map d_points deductions = map Fin (finiteValues (map d_points deductions))
  /\ Rsum (finiteValues (map d_points deductions)) <= 0.
Proof.
  induction 1 as [| d ds (p & Hp & Hle) _ (IH1 & IH2)].
  - simpl. split; [reflexivity | lra].
  - cbn [map]. rewrite Hp. cbn [finiteValues map Rsum fold_right].
    fold (Rsum (finiteValues (map d_points ds))).
    rewrite <- IH1. split; [reflexivity | lra].
Qed.

(** X17.  The two earlier total-score functions treat a deduction in
    opposite ways.  For deductions with non-positive points, as the
    code creates them, and their sum [s <= 0]: the video-processing
    total is max(0, 10 + s), between 0 and 10; the analyzer total for
    phase scores 5 and 5 is 10 - s, at least 10.  The two agree only
    when the points sum to 0. *)
Theorem earlier_totals_disagree (deductions : list Deduction) :
  Forall (fun d => exists p, d_points d = Fin p /\ p <= 0) deductions ->
  let s := Rsum (finiteValues (map d_points deductions)) in
  VideoProcessing.calculateFinalScore deductions = Fin (Rmax 0 (10 + s))
  /\ SRTAnalyzer.calculateFinalScore (Fin 5) (Fin 5) deductions = Fin (10 - s)
  /\ within 0 10 (VideoProcessing.calculateFinalScore deductions)
  /\ (Fin 10 <=' SRTAnalyzer.calculateFinalScore (Fin 5) (Fin 5) deductions) = true
  /\ (VideoProcessing.calculateFinalScore deductions
      = SRTAnalyzer.calculateFinalScore (Fin 5) (Fin 5) deductions
      <-> s = 0).
Proof.
  intros Hall s.
  destruct (nonpositive_points deductions Hall) as [Hmap Hs]. fold s in Hs.
  assert (Hvp : VideoProcessing.calculateFinalScore deductions
                = Fin (Rmax 0 (10 + s))).
  { unfold VideoProcessing.calculateFinalScore.
    rewrite fold_points, Hmap, fold_add_Fin, Rplus_0_l.
    cbn [JS.add]. now rewrite max_Fin. }
  assert (Hsa : SRTAnalyzer.calculateFinalScore (Fin 5) (Fin 5) deductions
                = Fin (10 - s)).
  { unfold SRTAnalyzer.calculateFinalScore.
    rewrite fold_points, Hmap, fold_add_Fin, Rplus_0_l.
    cbn [JS.add JS.sub JS.neg]. f_equal. unfold s. lra. }
  rewrite Hvp, Hsa.
  assert (Hmax : 0 <= Rmax 0 (10 + s) <= 10).
  { split; [apply Rmax_l | apply Rmax_lub; lra]. }
  repeat match goal with |- _ /\ _ => split end; try reflexivity.
  - eexists. split; [reflexivity | exact Hmax].
  - apply le_Fin. lra.
  - split.
    + intros E. injection E as E. lra.
    + intros E. rewrite E. f_equal. rewrite Rmax_right; lra.
Qed.

(** The statement above at one hand deduction of -1 point: 9 against
    11. *)
Lemma earlier_totals_disagree_witness :
  VideoProcessing.calculateFinalScore
    [{| d_type := "hand"; d_points := Fin (- 1); d_phase := Some "sitting" |}]
  = Fin (Rmax 0 (10 + (- 1 + 0)))
  /\ SRTAnalyzer.calculateFinalScore (Fin 5) (Fin 5)
       [{| d_type := "hand"; d_points := Fin (- 1); d_phase := Some "sitting" |}]
     = Fin (10 - (- 1 + 0)).
Proof.
  destruct (earlier_totals_disagree
              [{| d_type := "hand"; d_points := Fin (- 1);
                  d_phase := Some "sitting" |}])
    as (H1 & H2 & _).
  - repeat constructor. exists (- 1). split; [reflexivity | lra].
  - split; [exact H1 | exact H2].
Defined.

Lemma collectPoses_from {F : Type} (estimatePoses : F -> list Pose) (frames : list F) :
  forall poses,
    fold_left
      (fun poses frame =>
         match estimatePoses frame with
         | pose0 :: _ => (poses ++ [pose0])%list
         | [] => poses
         end)
      frames poses
    = (poses ++ flat_map (fun frame => firstn 1 (estimatePoses frame)) frames)%list.
Proof.
  induction frames as [| f frames IH]; intros poses; simpl.
  - now rewrite app_nil_r.
  - rewrite IH. destruct (estimatePoses f) as [| pose0 rest]; simpl.
    + reflexivity.
    + now rewrite <- app_assoc.
Qed.

(** X18.  The earlier analyses do not look at the poses.  The poses
    collected from the frames are the first detection of every frame
    that has one, in order; whatever they are, the video-processing
    analysis is 5 + 5 = 10 without deductions or recommendations at risk
    level "low", and the analyzer's scores are 5, 5 and 10 without
    deductions. *)
Theorem earlier_analyses_ignore_the_poses {F : Type} (estimatePoses : F -> list Pose)
  (frames : list F) (poses : list Pose) :
  VideoProcessing.collectPoses estimatePoses frames
  = flat_map (fun frame => firstn 1 (estimatePoses frame)) frames
  /\ VideoProcessing.analyzeMovements poses
     = {| VideoProcessing.scores :=
            {| VideoProcessing.sitting := Fin 5; VideoProcessing.rising := Fin 5;
               VideoProcessing.total := Fin 10 |};
          VideoProcessing.deductions := [];
          VideoProcessing.recommendations := [];
          VideoProcessing.riskLevel := "low" |}
  /\ SRTAnalyzer.calculateScores poses
     = {| SRTAnalyzer.sitting := Fin 5; SRTAnalyzer.rising := Fin 5;
          SRTAnalyzer.deductions := []; SRTAnalyzer.total := Fin 10 |}.
Proof.
  split; [| split].
  - unfold VideoProcessing.collectPoses. now rewrite collectPoses_from.
  - unfold VideoProcessing.analyzeMovements, VideoProcessing.detectHandSupport,
      VideoProcessing.detectKneeSupport, VideoProcessing.calculateFinalScore,
      VideoProcessing.generateRecommendations, VideoProcessing.assessRiskLevel.
    cbn [app fold_left JS.add findType find truthy].
    rewrite max_Fin.
    replace (Rmax 0 (10 + 0)) with 10 by (rewrite Rmax_right; lra).
    cbn [JS.ge JS.le]. rewrite Rleb_true by lra. reflexivity.
  - unfold SRTAnalyzer.calculateScores, SRTAnalyzer.detectHandSupport,
      SRTAnalyzer.detectKneeSupport, SRTAnalyzer.calculateFinalScore.
    cbn [app fold_left JS.add JS.sub JS.neg]. do 2 f_equal. lra.
Qed.

Lemma ge_Fin_trans (a b : num) (c : R) :
  (a <=' b) = true -> (a >=' Fin c) = true -> (b >=' Fin c) = true.
Proof.
  destruct a as [| | | x], b as [| | | y]; simpl; try discriminate; try reflexivity.
  unfold Rleb. destruct (Rle_dec x y), (Rle_dec c x), (Rle_dec c y);
    try discriminate; try reflexivity. lra.
Qed.

(** X19.  The two risk assessments give the same level for every
    total, under their own labels, and a higher total never gives a
    worse level: at or above a "low" total the level is "low", at or
    below a "high" total it is "high".  A total that is not a number is
    rated "high". *)
Theorem risk_levels_agree_and_are_monotone (a b : num) :
  (ReportGenerator.assessRisk a = "Low Risk"
   <-> VideoProcessing.assessRiskLevel a = "low")
  /\ (ReportGenerator.assessRisk a = "Moderate Risk"
      <-> VideoProcessing.assessRiskLevel a = "moderate")
  /\ (ReportGenerator.assessRisk a = "High Risk"
      <-> VideoProcessing.assessRiskLevel a = "high")
  /\ ((a <=' b) = true ->
      (ReportGenerator.assessRisk a = "Low Risk" ->
       ReportGenerator.assessRisk b = "Low Risk")
      /\ (ReportGenerator.assessRisk b = "High Risk" ->
          ReportGenerator.assessRisk a = "High Risk"))
  /\ ReportGenerator.assessRisk NaN = "High Risk".
Proof.
  unfold ReportGenerator.assessRisk, VideoProcessing.assessRiskLevel.
  repeat match goal with |- _ /\ _ => split end; try reflexivity.
  1-3: destruct (a >=' Fin 8), (a >=' Fin 6); split; intros; congruence.
  - intros Hab.
    pose proof (ge_Fin_trans a b 8 Hab) as H8.
    pose proof (ge_Fin_trans a b 6 Hab) as H6.
    destruct (a >=' Fin 8), (a >=' Fin 6), (b >=' Fin 8), (b >=' Fin 6);
      split; intros; try congruence;
      try (specialize (H8 eq_refl)); try (specialize (H6 eq_refl));
      congruence.
Qed.

(** The statement above at the totals 9 and 10. *)
Lemma risk_levels_agree_and_are_monotone_witness :
  ReportGenerator.assessRisk (Fin 10) = "Low Risk".
Proof.
  destruct (risk_levels_agree_and_are_monotone (Fin 9) (Fin 10))
    as (_ & _ & _ & H & _).
  destruct H as [H _]; [apply le_Fin; lra |].
  apply H. unfold ReportGenerator.assessRisk. cbn [JS.ge JS.le].
  rewrite Rleb_true by lra. reflexivity.
Defined.

(** ** The controller and the stored results *)

Lemma orZero_id (lo hi : R) (x : num) : 0 <= lo -> within lo hi x -> orZero x = x.
Proof.
  intros Hlo (r & -> & Hr). unfold orZero. cbn [isNaN].
  rewrite max_Fin. f_equal. apply Rmax_right. lra.
Qed.

Lemma inRange_within (lo hi lo' hi' : R) (x : num) :
  lo <= lo' -> hi' <= hi -> within lo' hi' x -> SRTResult.inRange lo hi x = true.
Proof.
  intros Hlo Hhi (r & -> & Hr). unfold SRTResult.inRange. cbn [JS.ge JS.le].
  now rewrite !Rleb_true by lra.
Qed.

Lemma report_averages_in_range (detector : FramePath -> option Pose)
  (frames : list FramePath) (report : Report) :
  analysisBody detector frames = inr report ->
  within 0 1 (Avg.kneeFlexion (sittingPhase report))
  /\ within 0 1 (Avg.hipControl (sittingPhase report))
  /\ within 0 1 (Avg.spinalAlignment (sittingPhase report))
  /\ within 0 1 (Avg.kneeExtension (risingPhase report))
  /\ within 0 1 (Avg.hipDrive (risingPhase report))
  /\ within 0 1 (Avg.stability (risingPhase report)).
Proof.
  assert (Havg : forall l, within 0 1 (safeScore (average l) (Fin 0))).
  { intros l. apply safeScore_within. lra. }
  unfold analysisBody.
  destruct (_ <? _)%nat; [discriminate |].
  destruct (detectPhaseTransition _) as [e | t]; simpl; [discriminate |].
  destruct (analyzeSittingPhase _) as [e | sit]; simpl; [discriminate |].
  destruct (analyzeRisingPhase _) as [e | rise]; simpl; [discriminate |].
  destruct (mapE detectSupportPoints _) as [e | sp]; simpl; [discriminate |].
  intros H. injection H as <-.
  cbn [sittingPhase risingPhase Avg.kneeFlexion Avg.hipControl Avg.spinalAlignment
       Avg.kneeExtension Avg.hipDrive Avg.stability].
  repeat split; apply Havg.
Qed.

(** The document of a report stores the values of the report, and
    passes the validators of the schema. *)
Lemma completedResult_faithful (detector : FramePath -> option Pose)
  (frames : list FramePath) (report : Report) (id videoPath : string) :
  analysisBody detector frames = inr report ->
  videoPath <> "" ->
  let doc := completedResult id videoPath report in
  SRTResult.validates doc = true
  /\ SRTResult.sitScore doc = sitScore (scores report)
  /\ SRTResult.riseScore doc = riseScore (scores report)
  /\ SRTResult.totalScore doc = totalScore (scores report)
  /\ SRTResult.posturalControl doc = posturalControl (componentScores report)
  /\ SRTResult.balance doc = balance (componentScores report)
  /\ SRTResult.coordination doc = coordination (componentScores report)
  /\ SRTResult.sittingPhase doc = Some (sittingPhase report)
  /\ SRTResult.risingPhase doc = Some (risingPhase report).
Proof.
  intros Hbody Hpath doc. apply String.eqb_neq in Hpath.
  destruct (report_in_range detector frames report Hbody)
    as (R1 & R2 & R3 & R4 & R5 & R6).
  destruct (report_averages_in_range detector frames report Hbody)
    as (A1 & A2 & A3 & A4 & A5 & A6).
  assert (E1 := orZero_id (3 / 2) 5 _ ltac:(lra) R1).
  assert (E2 := orZero_id (3 / 2) 5 _ ltac:(lra) R2).
  assert (E3 := orZero_id 2 10 _ ltac:(lra) R3).
  assert (E4 := orZero_id 0 1 _ ltac:(lra) R4).
  assert (E5 := orZero_id 0 1 _ ltac:(lra) R5).
  assert (E6 := orZero_id 0 1 _ ltac:(lra) R6).
  unfold doc, completedResult, SRTResult.validates.
  cbn [SRTResult.sitScore SRTResult.riseScore SRTResult.totalScore
       SRTResult.posturalControl SRTResult.balance SRTResult.coordination
       SRTResult.sittingPhase SRTResult.risingPhase SRTResult.processingStatus
       SRTResult.videoPath].
  rewrite Hpath, E1, E2, E3, E4, E5, E6.
  rewrite (orZero_id 0 1 _ ltac:(lra) A1), (orZero_id 0 1 _ ltac:(lra) A2),
    (orZero_id 0 1 _ ltac:(lra) A3), (orZero_id 0 1 _ ltac:(lra) A4),
    (orZero_id 0 1 _ ltac:(lra) A5), (orZero_id 0 1 _ ltac:(lra) A6).
  rewrite (inRange_within 0 5 (3 / 2) 5 _ ltac:(lra) ltac:(lra) R1).
  rewrite (inRange_within 0 5 (3 / 2) 5 _ ltac:(lra) ltac:(lra) R2).
  rewrite (inRange_within 0 10 2 10 _ ltac:(lra) ltac:(lra) R3).
  rewrite (inRange_within 0 1 0 1 _ ltac:(lra) ltac:(lra) R4).
  rewrite (inRange_within 0 1 0 1 _ ltac:(lra) ltac:(lra) R5).
  rewrite (inRange_within 0 1 0 1 _ ltac:(lra) ltac:(lra) R6).
  repeat match goal with |- _ /\ _ => split end; try reflexivity.
  - now destruct (sittingPhase report).
  - now destruct (risingPhase report).
Qed.

Lemma failedResult_validates (id videoPath : string) :
  videoPath <> "" -> SRTResult.validates (failedResult id videoPath) = true.
Proof.
  intros Hpath. apply String.eqb_neq in Hpath.
  unfold SRTResult.validates, failedResult, SRTResult.inRange.
  cbn [SRTResult.sitScore SRTResult.riseScore SRTResult.totalScore
       SRTResult.posturalControl SRTResult.balance SRTResult.coordination
       SRTResult.processingStatus SRTResult.videoPath JS.ge JS.le].
  now rewrite Hpath, !Rleb_true by lra.
Qed.

Lemma analyzeSRTVideo_body (detector : FramePath -> option Pose)
  (frames : list FramePath) (report : Report) :
  analyzeSRTVideo detector frames = inr report ->
  analysisBody detector frames = inr report.
Proof.
  unfold analyzeSRTVideo. destruct (analysisBody detector frames); [discriminate |].
  intros H. now injection H as <-.
Qed.

Lemma analyzeSRTVideo_error (detector : FramePath -> option Pose)
  (frames : list FramePath) (e : exn) :
  analyzeSRTVideo detector frames = inl e -> e = Error "Failed to analyze video".
Proof.
  unfold analyzeSRTVideo. destruct (analysisBody detector frames); [| discriminate].
  intros H. now injection H as <-.
Qed.

(** X20.  Every upload with a non-empty path that reaches the
    controller adds exactly one document to the store, and the document passes the validators of
    the schema.  When the analysis returns a report, the document holds
    the scores, indices and phase averages of the report unchanged (the
    guards against NaN and negative values never alter a value), has the
    status "completed", and the response carries its identifier and
    values.  When the analysis fails, the document has the status
    "failed" and zero scores, and the error "Failed to analyze video" is
    handed to the error handler. *)
Theorem analyzeVideo_stores_one_valid_document (newId : Store -> string)
  (extract : string -> list FramePath) (detector : FramePath -> option Pose)
  (file : UploadedFile) (store : Store) :
  path file <> "" ->
  let analyze := fun videoPath => analyzeSRTVideo detector (extract videoPath) in
  let outcome := analyzeVideo newId analyze (Some file) store in
  (forall report,
      analyze (path file) = inr report ->
      let doc := completedResult (newId store) (path file) report in
      fst outcome = (store ++ [doc])%list
      /\ snd outcome = Success (newId store) (dataOf doc)
      /\ SRTResult.validates doc = true
      /\ SRTResult.processingStatus doc = "completed"
      /\ SRTResult.sitScore doc = sitScore (scores report)
      /\ SRTResult.riseScore doc = riseScore (scores report)
      /\ SRTResult.totalScore doc = totalScore (scores report)
      /\ SRTResult.posturalControl doc = posturalControl (componentScores report)
      /\ SRTResult.balance doc = balance (componentScores report)
      /\ SRTResult.coordination doc = coordination (componentScores report)
      /\ SRTResult.sittingPhase doc = Some (sittingPhase report)
      /\ SRTResult.risingPhase doc = Some (risingPhase report))
  /\ (forall e,
         analyze (path file) = inl e ->
         let doc := failedResult (newId store) (path file) in
         fst outcome = (store ++ [doc])%list
         /\ snd outcome = Next (Error "Failed to analyze video")
         /\ SRTResult.validates doc = true
         /\ SRTResult.processingStatus doc = "failed"
         /\ SRTResult.totalScore doc = Fin 0).
Proof.
  intros Hpath analyze outcome. split.
  - intros report Hrun doc.
    destruct (completedResult_faithful detector (extract (path file)) report
                (newId store) (path file)
                (analyzeSRTVideo_body _ _ _ Hrun) Hpath)
      as (Hvalid & Hfields).
    fold doc in Hvalid, Hfields.
    assert (Hout : outcome = ((store ++ [doc])%list, Success (newId store) (dataOf doc))).
    { unfold analyze in Hrun. unfold outcome, analyzeVideo, analyze.
      cbn [filePath bind ret]. rewrite Hrun. cbn [bind ret].
      fold doc. unfold save. rewrite Hvalid. reflexivity. }
    rewrite Hout. cbn [fst snd].
    repeat match goal with |- _ /\ _ => split end;
      try reflexivity; try assumption; apply Hfields.
  - intros e Hrun doc.
    pose proof (failedResult_validates (newId store) (path file) Hpath) as Hvalid.
    fold doc in Hvalid.
    assert (He := analyzeSRTVideo_error _ _ _ Hrun).
    assert (Hout : outcome = ((store ++ [doc])%list, Next e)).
    { unfold analyze in Hrun. unfold outcome, analyzeVideo, analyze.
      cbn [filePath bind ret]. rewrite Hrun. cbn [bind ret].
      fold doc. unfold save. rewrite Hvalid. reflexivity. }
    rewrite Hout, He. cbn [fst snd].
    repeat match goal with |- _ /\ _ => split end; try reflexivity; assumption.
Qed.

(** The statement above at an upload of 15 frames, which fails. *)
Lemma analyzeVideo_stores_one_valid_document_witness :
  fst (analyzeVideo (fun _ => "id-1")
         (fun videoPath => analyzeSRTVideo detectorOfShortRun framesOfShortRun)
         (Some {| path := "uploads/1.mp4"; mimetype := "video/mp4" |}) [])
  = [failedResult "id-1" "uploads/1.mp4"].
Proof.
  destruct (analyzeVideo_stores_one_valid_document (fun _ => "id-1")
              (fun _ => framesOfShortRun) detectorOfShortRun
              {| path := "uploads/1.mp4"; mimetype := "video/mp4" |} [])
    as (_ & H).
  - discriminate.
  - destruct (H (Error "Failed to analyze video")) as (Hstore & _).
    + reflexivity.
    + exact Hstore.
Defined.

Lemma analyzeVideo_completed (newId : Store -> string)
  (extract : string -> list FramePath) (detector : FramePath -> option Pose)
  (file : UploadedFile) (store : Store) (report : Report) :
  path file <> "" ->
  analyzeSRTVideo detector (extract (path file)) = inr report ->
  analyzeVideo newId (fun videoPath => analyzeSRTVideo detector (extract videoPath))
    (Some file) store
  = ((store ++ [completedResult (newId store) (path file) report])%list,
     Success (newId store)
       (dataOf (completedResult (newId store) (path file) report))).
Proof.
  intros Hpath Hrun.
  destruct (completedResult_faithful detector (extract (path file)) report
              (newId store) (path file) (analyzeSRTVideo_body _ _ _ Hrun) Hpath)
    as (Hvalid & _).
  unfold analyzeVideo. cbn [filePath bind ret]. rewrite Hrun. cbn [bind ret].
  unfold save. rewrite Hvalid. reflexivity.
Qed.

Lemma analyzeVideo_failed (newId : Store -> string)
  (extract : string -> list FramePath) (detector : FramePath -> option Pose)
  (file : UploadedFile) (store : Store) (e : exn) :
  path file <> "" ->
  analyzeSRTVideo detector (extract (path file)) = inl e ->
  analyzeVideo newId (fun videoPath => analyzeSRTVideo detector (extract videoPath))
    (Some file) store
  = ((store ++ [failedResult (newId store) (path file)])%list, Next e).
Proof.
  intros Hpath Hrun.
  unfold analyzeVideo. cbn [filePath bind ret]. rewrite Hrun. cbn [bind ret].
  unfold save. rewrite failedResult_validates by exact Hpath. reflexivity.
Qed.

Lemma findById_added (store : Store) (doc : SRTResult.t) (id : string) :
  (forall other, In other store -> SRTResult._id other <> SRTResult._id doc) ->
  findById (store ++ [doc])%list id
  = if String.eqb (SRTResult._id doc) id then Some doc else findById store id.
Proof.
  intros Hfresh. unfold findById.
  induction store as [| d store IH]; simpl.
  - reflexivity.
  - destruct (String.eqb_spec (SRTResult._id d) id) as [E | E].
    + destruct (String.eqb_spec (SRTResult._id doc) id) as [E' | E'];
        [| reflexivity].
      exfalso. apply (Hfresh d); [now left | congruence].
    + apply IH. intros other Hin. apply Hfresh. now right.
Qed.

(** X21.  For an upload with a non-empty path, when the store gives a
    new document a non-empty identifier that no stored document has: the report fetched under the identifier
    returned by a successful upload is the very response of that upload;
    the document of a failed upload is served under its identifier as a
    successful report with zero scores and a feedback of three empty
    lists; the reports
    under every other identifier are what they were before the
    upload. *)
Theorem getReport_after_analyzeVideo (newId : Store -> string)
  (extract : string -> list FramePath) (detector : FramePath -> option Pose)
  (file : UploadedFile) (store : Store) :
  path file <> "" ->
  newId store <> "" ->
  (forall doc, In doc store -> SRTResult._id doc <> newId store) ->
  let analyze := fun videoPath => analyzeSRTVideo detector (extract videoPath) in
  let outcome := analyzeVideo newId analyze (Some file) store in
  (forall report,
      analyze (path file) = inr report ->
      getReport (newId store) (fst outcome) = snd outcome)
  /\ (forall e,
         analyze (path file) = inl e ->
         getReport (newId store) (fst outcome)
         = Success (newId store)
             {| data_sitScore := Fin 0; data_riseScore := Fin 0;
                data_totalScore := Fin 0; data_posturalControl := Fin 0;
                data_balance := Fin 0; data_coordination := Fin 0;
                data_feedback :=
                  {| strengths := []; improvements := [];
                     recommendations := [] |} |})
  /\ (forall id, id <> newId store ->
                 getReport id (fst outcome) = getReport id store).
Proof.
  intros Hpath Hid Hfresh analyze outcome.
  assert (Hnew : forall doc id,
             SRTResult._id doc = newId store ->
             getReport id (store ++ [doc])%list
             = if String.eqb (newId store) id
               then Success (newId store) (dataOf doc)
               else getReport id store).
  { intros doc id Edoc. unfold getReport.
    rewrite findById_added by (rewrite Edoc; exact Hfresh). rewrite Edoc.
    destruct (String.eqb_spec id "") as [-> | Hne].
    - destruct (String.eqb_spec (newId store) ""); [contradiction | reflexivity].
    - destruct (String.eqb_spec (newId store) id); [| reflexivity].
      now rewrite Edoc. }
  split; [| split].
  - intros report Hrun. unfold outcome, analyze.
    rewrite (analyzeVideo_completed newId extract detector file store report Hpath Hrun).
    cbn [fst snd]. rewrite Hnew by reflexivity. now rewrite String.eqb_refl.
  - intros e Hrun. unfold outcome, analyze.
    rewrite (analyzeVideo_failed newId extract detector file store e Hpath Hrun).
    cbn [fst]. rewrite Hnew by reflexivity. now rewrite String.eqb_refl.
  - intros id Hne. unfold outcome, analyze.
    destruct (analyzeSRTVideo detector (extract (path file))) as [e | report] eqn:Hrun.
    + rewrite (analyzeVideo_failed newId extract detector file store e Hpath Hrun).
      cbn [fst]. rewrite Hnew by reflexivity.
      destruct (String.eqb_spec (newId store) id); [congruence | reflexivity].
    + rewrite (analyzeVideo_completed newId extract detector file store report Hpath Hrun).
      cbn [fst]. rewrite Hnew by reflexivity.
      destruct (String.eqb_spec (newId store) id); [congruence | reflexivity].
Qed.

(** The statement above at an upload of 15 frames into an empty store. *)
Lemma getReport_after_analyzeVideo_witness :
  getReport "id-1"
    (fst (analyzeVideo (fun _ => "id-1")
            (fun videoPath => analyzeSRTVideo detectorOfShortRun framesOfShortRun)
            (Some {| path := "uploads/1.mp4"; mimetype := "video/mp4" |}) []))
  = Success "id-1"
      {| data_sitScore := Fin 0; data_riseScore := Fin 0;
         data_totalScore := Fin 0; data_posturalControl := Fin 0;
         data_balance := Fin 0; data_coordination := Fin 0;
         data_feedback :=
           {| strengths := []; improvements := []; recommendations := [] |} |}.
Proof.
  destruct (getReport_after_analyzeVideo (fun _ => "id-1")
              (fun _ => framesOfShortRun) detectorOfShortRun
              {| path := "uploads/1.mp4"; mimetype := "video/mp4" |} [])
    as (_ & H & _).
  - discriminate.
  - discriminate.
  - intros doc [].
  - apply (H (Error "Failed to analyze video")). reflexivity.
Defined.

(** ** Upload validation *)

Lemma onDisk_removed (fs : FileSystem) (p : string) :
  onDisk (filter (fun entry => negb (String.eqb (fst entry) p)) fs) p = None.
Proof.
  unfold onDisk. induction fs as [| e fs IH]; simpl; [reflexivity |].
  destruct (String.eqb (fst e) p) eqn:E; simpl; [exact IH |].
  now rewrite E.
Qed.

Lemma onDisk_kept (fs : FileSystem) (p q : string) :
  q <> p ->
  onDisk (filter (fun entry => negb (String.eqb (fst entry) p)) fs) q = onDisk fs q.
Proof.
  intros Hne. unfold onDisk. induction fs as [| e fs IH]; simpl; [reflexivity |].
  destruct (String.eqb_spec (fst e) p) as [E | E]; simpl.
  - destruct (String.eqb_spec (fst e) q) as [E' | E']; [congruence | exact IH].
  - destruct (String.eqb (fst e) q); [reflexivity | exact IH].
Qed.

Lemma includes_In (l : list string) (m : string) : includes l m = true <-> In m l.
Proof.
  unfold includes. rewrite existsb_exists. split.
  - intros (x & Hin & E). apply String.eqb_eq in E. now subst.
  - intros Hin. exists m. split; [exact Hin | apply String.eqb_refl].
Qed.

Lemma allowed_is_video (file : UploadedFile) :
  In (mimetype file) allowedTypes -> fileFilter file = true.
Proof.
  unfold fileFilter, allowedTypes.
  intros [<- | [<- | [<- | []]]]; reflexivity.
Qed.

(** X22.  The upload validation lets a request through exactly when a
    file was uploaded, it is on disk, it has at most 50 MB and its type
    is MP4, WebM or QuickTime; the file system is then untouched, and
    the type is one the upload handler's own filter accepts.  In every
    other case the uploaded file is no longer on disk afterwards.  No
    other file is ever removed.  A request without a file is answered
    with status 400. *)
Theorem validateVideo_outcome (file : option UploadedFile) (fs : FileSystem) :
  let outcome := validateVideo file fs in
  (snd outcome = Proceed
   <-> exists f size,
         file = Some f /\ stat fs (path f) = inr size
         /\ (size <= maxSize)%Z /\ In (mimetype f) allowedTypes)
  /\ (snd outcome = Proceed -> fst outcome = fs)
  /\ (forall f, file = Some f -> snd outcome = Proceed -> fileFilter f = true)
  /\ (forall f, file = Some f -> snd outcome <> Proceed ->
                onDisk (fst outcome) (path f) = None)
  /\ (forall f q, file = Some f -> q <> path f ->
                  onDisk (fst outcome) q = onDisk fs q)
  /\ (file = None -> outcome = (fs, Rejected 400 "No video file uploaded")).
Proof.
  intros outcome. subst outcome.
  destruct file as [f |]; cbn [validateVideo].
  2:{ repeat match goal with |- _ /\ _ => split end;
        try discriminate; try reflexivity.
      split; [discriminate | intros (f & size & Hf & _); discriminate]. }
  unfold stat, unlink.
  destruct (onDisk fs (path f)) as [entry |] eqn:Hdisk; cbn [bind ret throw].
  2:{ cbn [fst snd].
      repeat match goal with |- _ /\ _ => split end; try discriminate.
      - split; [discriminate |].
        intros (f' & size & Hf & Hstat & _). injection Hf as <-.
        rewrite Hdisk in Hstat. discriminate.
      - intros f' Hf _. injection Hf as <-. exact Hdisk.
      - reflexivity. }
  destruct (Z.ltb_spec maxSize (snd entry)) as [Hbig | Hsmall].
  { cbn [bind ret fst snd].
    repeat match goal with |- _ /\ _ => split end; try discriminate.
    - split; [discriminate |].
      intros (f' & size & Hf & Hstat & Hsize & _). injection Hf as <-.
      rewrite Hdisk in Hstat. injection Hstat as <-. lia.
    - intros f' Hf _. injection Hf as <-. apply onDisk_removed.
    - intros f' q Hf Hq. injection Hf as <-. now apply onDisk_kept. }
  destruct (includes allowedTypes (mimetype f)) eqn:Htype; cbn [negb].
  - apply includes_In in Htype. cbn [ret fst snd].
    repeat match goal with |- _ /\ _ => split end;
      try reflexivity; try congruence.
    + split; [| reflexivity].
      intros _. exists f, (snd entry). rewrite Hdisk. repeat split; assumption.
    + intros f' Hf _. injection Hf as <-. now apply allowed_is_video.
  - cbn [bind ret fst snd].
    repeat match goal with |- _ /\ _ => split end; try discriminate.
    + split; [discriminate |].
      intros (f' & size & Hf & _ & _ & Hin). injection Hf as <-.
      apply includes_In in Hin. congruence.
    + intros f' Hf _. injection Hf as <-. apply onDisk_removed.
    + intros f' q Hf Hq. injection Hf as <-. now apply onDisk_kept.
Qed.

(** The statement above at an AVI upload of 1000 bytes: the multer
    filter lets it in, the validation removes it and answers 400. *)
Lemma validateVideo_outcome_witness :
  fileFilter {| path := "uploads/1.avi"; mimetype := "video/x-msvideo" |} = true
  /\ onDisk
       (fst (validateVideo
               (Some {| path := "uploads/1.avi"; mimetype := "video/x-msvideo" |})
               [("uploads/0.mp4", 2000%Z); ("uploads/1.avi", 1000%Z)]))
       "uploads/1.avi"
     = None.
Proof.
  split; [reflexivity |].
  destruct (validateVideo_outcome
              (Some {| path := "uploads/1.avi"; mimetype := "video/x-msvideo" |})
              [("uploads/0.mp4", 2000%Z); ("uploads/1.avi", 1000%Z)])
    as (_ & _ & _ & H & _).
  apply (H {| path := "uploads/1.avi"; mimetype := "video/x-msvideo" |}).
  - reflexivity.
  - discriminate.
Defined.

(** ** Phase averages of well-formed detections *)

Lemma average_unit_mean (arr : list num) (defaultValue : num) :
  arr <> [] -> Forall (within 0 1) arr ->
  safeScore (average arr) defaultValue = Fin (arithmeticMean arr).
Proof.
  intros Hne Hall.
  destruct (unit_scores_finite arr Hall) as (Harr & Hlen & Hsum).
  assert (Hn : 0 < INR (List.length arr)).
  { apply lt_0_INR. destruct arr; [congruence | simpl; lia]. }
  assert (Havg : average arr = Fin (arithmeticMean arr)).
  { unfold average, arithmeticMean. rewrite Harr at 1.
    rewrite fold_add_Fin, Rplus_0_l.
    cbn [JS.div]. rewrite Reqb_false by lra. reflexivity. }
  assert (Hrange : 0 <= arithmeticMean arr <= 1).
  { unfold arithmeticMean. split.
    - apply Rmult_le_pos; [lra |]. apply Rlt_le, Rinv_0_lt_compat, Hn.
    - apply Rmult_le_reg_r with (INR (List.length arr)); [exact Hn |].
      unfold Rdiv. rewrite Rmult_assoc, Rinv_l by lra. lra. }
  unfold safeScore. rewrite Havg, isValidScore_Fin.
  now rewrite !Rleb_true by lra.
Qed.

Lemma analyzeSittingPhase_unit (poses : list (option Pose))
  (frames : list Frame.Sitting) :
  finiteDetections poses ->
  analyzeSittingPhase poses = inr frames -> Forall sittingScoresInUnit frames.
Proof.
  unfold analyzeSittingPhase. revert frames.
  induction poses as [| pose poses IH]; intros frames Hfin H; simpl in H.
  - injection H as <-. constructor.
  - destruct pose as [p |]; simpl in H; [| discriminate].
    destruct (mapE _ poses) as [e | rest]; simpl in H; [discriminate |].
    injection H as <-.
    assert (Hp : finiteCoordinates p) by (apply Hfin; now left).
    constructor.
    + repeat split; cbn [Frame.kneeFlexion Frame.hipControl Frame.spinalAlignment].
      * now apply analyzeKneeFlexion_range.
      * now apply analyzeHipControl_range.
      * now apply analyzeSpinalAlignment_range.
    + apply IH; [| reflexivity]. intros q Hq. apply Hfin. now right.
Qed.

Lemma analyzeRisingPhase_unit (poses : list (option Pose))
  (frames : list Frame.Rising) :
  finiteDetections poses ->
  analyzeRisingPhase poses = inr frames -> Forall risingScoresInUnit frames.
Proof.
  unfold analyzeRisingPhase. revert frames.
  induction poses as [| pose poses IH]; intros frames Hfin H; simpl in H.
  - injection H as <-. constructor.
  - destruct pose as [p |]; simpl in H; [| discriminate].
    destruct (mapE _ poses) as [e | rest]; simpl in H; [discriminate |].
    injection H as <-.
    assert (Hp : finiteCoordinates p) by (apply Hfin; now left).
    constructor.
    + repeat split; cbn [Frame.kneeExtension Frame.hipDrive Frame.stability].
      * now apply analyzeKneeExtension_range.
      * apply analyzeHipDrive_score_valid.
      * now apply analyzeStability_range.
    + apply IH; [| reflexivity]. intros q Hq. apply Hfin. now right.
Qed.

Lemma Forall_map_part {A : Type} (P : A -> Prop) (f : A -> num) (l : list A) :
  Forall P l -> (forall a, P a -> within 0 1 (f a)) -> Forall (within 0 1) (map f l).
Proof.
  intros H Hf. apply Forall_map. eapply Forall_impl; [| exact H]. exact Hf.
Qed.

Lemma map_nonempty {A B : Type} (f : A -> B) (l : list A) :
  (1 <= List.length l)%nat -> map f l <> [].
Proof. destruct l; simpl; [lia | discriminate]. Qed.

(** X23.  When every detection of a successful run has finite keypoint
    coordinates, no per-frame score is replaced by a fallback: each of
    the six reported phase averages is the arithmetic mean of that
    metric's scores over the frames of its phase, all of which lie in
    [0, 1], and each phase has at least 10 frames. *)
Theorem phase_averages_are_means (detector : FramePath -> option Pose)
  (frames : list FramePath) (report : Report) :
  analyzeSRTVideo detector frames = inr report ->
  finiteDetections (map detector frames) ->
  exists transition sitFrames riseFrames,
    detectPhaseTransition (map detector frames) = inr transition
    /\ analyzeSittingPhase (sittingSlice (map detector frames) transition)
       = inr sitFrames
    /\ analyzeRisingPhase (risingSlice (map detector frames) transition)
       = inr riseFrames
    /\ (10 <= List.length sitFrames)%nat
    /\ (10 <= List.length riseFrames)%nat
    /\ Forall sittingScoresInUnit sitFrames
    /\ Forall risingScoresInUnit riseFrames
    /\ Avg.kneeFlexion (sittingPhase report)
       = Fin (arithmeticMean (map (fun p => score (Frame.kneeFlexion p)) sitFrames))
    /\ Avg.hipControl (sittingPhase report)
       = Fin (arithmeticMean (map (fun p => score (Frame.hipControl p)) sitFrames))
    /\ Avg.spinalAlignment (sittingPhase report)
       = Fin (arithmeticMean
                (map (fun p => score (Frame.spinalAlignment p)) sitFrames))
    /\ Avg.kneeExtension (risingPhase report)
       = Fin (arithmeticMean
                (map (fun p => score (Frame.kneeExtension p)) riseFrames))
    /\ Avg.hipDrive (risingPhase report)
       = Fin (arithmeticMean (map (fun p => score (Frame.hipDrive p)) riseFrames))
    /\ Avg.stability (risingPhase report)
       = Fin (arithmeticMean
                (map (fun p => stability_score (Frame.stability p)) riseFrames)).
Proof.
  intros Hrun Hfin. apply analyzeSRTVideo_body in Hrun.
  destruct (analysisBody_success detector frames report Hrun) as [Hlen Hall].
  set (poses := map detector frames) in *.
  assert (Hn : (20 <= List.length poses)%nat) by (unfold poses; now rewrite length_map).
  unfold analysisBody in Hrun. fold poses in Hrun.
  destruct (_ <? _)%nat; [discriminate |].
  destruct (detectPhaseTransition poses) as [e | t] eqn:Ht; simpl in Hrun;
    [discriminate |].
  destruct (analyzeSittingPhase _) as [e | sit] eqn:Hsit; simpl in Hrun;
    [discriminate |].
  destruct (analyzeRisingPhase _) as [e | rise] eqn:Hrise; simpl in Hrun;
    [discriminate |].
  destruct (mapE detectSupportPoints _) as [e | sp]; simpl in Hrun; [discriminate |].
  injection Hrun as <-.
  exists t, sit, rise.
  assert (Hsl : (10 <= List.length sit)%nat).
  { apply mapE_length in Hsit. rewrite Hsit.
    unfold sittingSlice, minFramesPerPhase. rewrite slice_0, length_firstn. lia. }
  assert (Hrl : (10 <= List.length rise)%nat).
  { apply mapE_length in Hrise. rewrite Hrise.
    unfold risingSlice, minFramesPerPhase.
    replace (Z.min (Z.of_nat (List.length poses) - Z.of_nat 10) (Z.of_nat t))
      with (Z.of_nat (Nat.min (List.length poses - 10) t)) by lia.
    rewrite sliceFrom_suffix by lia. rewrite length_skipn. lia. }
  assert (Hsu : Forall sittingScoresInUnit sit).
  { apply (analyzeSittingPhase_unit (sittingSlice poses t)); [| exact Hsit].
    intros p Hp. apply Hfin. eapply slice_incl. exact Hp. }
  assert (Hru : Forall risingScoresInUnit rise).
  { apply (analyzeRisingPhase_unit (risingSlice poses t)); [| exact Hrise].
    intros p Hp. apply Hfin. eapply slice_incl. exact Hp. }
  cbn [sittingPhase risingPhase Avg.kneeFlexion Avg.hipControl Avg.spinalAlignment
       Avg.kneeExtension Avg.hipDrive Avg.stability].
  repeat match goal with |- _ /\ _ => split end;
    try reflexivity; try assumption;
    (apply average_unit_mean; [apply map_nonempty; lia |]).
  - apply (Forall_map_part _ _ _ Hsu). intros a Ha. apply Ha.
  - apply (Forall_map_part _ _ _ Hsu). intros a Ha. apply Ha.
  - apply (Forall_map_part _ _ _ Hsu). intros a Ha. apply Ha.
  - apply (Forall_map_part _ _ _ Hru). intros a Ha. apply Ha.
  - apply (Forall_map_part _ _ _ Hru). intros a Ha. apply Ha.
  - apply (Forall_map_part _ _ _ Hru). intros a Ha. apply Ha.
Qed.

(** The statement above at 20 detections without keypoints: every
    sitting-phase knee score is 0, and so is their mean. *)
Lemma phase_averages_are_means_witness :
  exists report sitFrames,
    analyzeSRTVideo (fun _ => Some emptyPose) (repeat "frame-1.jpg" 20) = inr report
    /\ Avg.kneeFlexion (sittingPhase report)
       = Fin (arithmeticMean (map (fun p => score (Frame.kneeFlexion p)) sitFrames)).
Proof.
  destruct (analysisBody_outcome (fun _ => Some emptyPose) (repeat "frame-1.jpg" 20))
    as (_ & _ & Hok).
  destruct Hok as [report Hbody].
  - simpl. lia.
  - simpl. intuition discriminate.
  - assert (Hrun : analyzeSRTVideo (fun _ => Some emptyPose)
                     (repeat "frame-1.jpg" 20) = inr report).
    { unfold analyzeSRTVideo. now rewrite Hbody. }
    destruct (phase_averages_are_means _ _ _ Hrun)
      as (t & sit & rise & _ & _ & _ & _ & _ & _ & _ & H & _).
    + intros p Hp. apply in_map_iff in Hp. destruct Hp as (fr & E & _).
      injection E as <-. constructor.
    + exists report, sit. split; [exact Hrun | exact H].
Defined.

(** ** The total and the reported phase scores *)

Lemma phase_scores_at_3008 :
  calculatePhaseScores
    {| Avg.kneeFlexion := Fin (3008 / 10000); Avg.hipControl := Fin (3008 / 10000);
       Avg.spinalAlignment := Fin (3008 / 10000) |}
    {| Avg.kneeExtension := Fin (3008 / 10000); Avg.hipDrive := Fin (3008 / 10000);
       Avg.stability := Fin (3008 / 10000) |}
    {| sitting := Fin 0; rising := Fin 0 |}
  = {| sitScore := Fin (150 / 100); riseScore := Fin (150 / 100);
       totalScore := Fin (301 / 100) |}.
Proof.
  rewrite calculatePhaseScores_Fin.
  assert (Es : rawSit (3008 / 10000) (3008 / 10000) (3008 / 10000) = 1504 / 1000).
  { unfold rawSit. rewrite Rmax_right; lra. }
  assert (Er : rawRise (3008 / 10000) (3008 / 10000) (3008 / 10000) = 1504 / 1000).
  { unfold rawRise. rewrite Rmax_right; lra. }
  rewrite Es, Er.
  replace (1504 / 1000 - 0 * (6 / 10)) with (1504 / 1000) by lra.
  rewrite Rclamp_inside by lra.
  rewrite Rmin_right by lra.
  rewrite (round2_eq 150) by lra.
  rewrite (round2_eq 301) by lra.
  reflexivity.
Qed.

(** C5, the claim as written fails.  When every metric average is
    0.3008 and there is no penalty, both penalized phase scores are
    1.504: the reported sitScore and riseScore are 1.50 each, and
    clamp(sitScore + riseScore, 2, 10) rounded to two decimals is 3.00,
    but the reported totalScore is 3.01, the rounding of
    1.504 + 1.504. *)
Lemma total_is_not_rounded_from_the_reported_scores :
  let r :=
    calculatePhaseScores
      {| Avg.kneeFlexion := Fin (3008 / 10000); Avg.hipControl := Fin (3008 / 10000);
         Avg.spinalAlignment := Fin (3008 / 10000) |}
      {| Avg.kneeExtension := Fin (3008 / 10000); Avg.hipDrive := Fin (3008 / 10000);
         Avg.stability := Fin (3008 / 10000) |}
      {| sitting := Fin 0; rising := Fin 0 |} in
  sitScore r = Fin (150 / 100)
  /\ riseScore r = Fin (150 / 100)
  /\ round2 (Rclamp 2 10 (150 / 100 + 150 / 100)) = 300 / 100
  /\ totalScore r = Fin (301 / 100)
  /\ totalScore r <> Fin (round2 (Rclamp 2 10 (150 / 100 + 150 / 100))).
Proof.
  cbv zeta. rewrite phase_scores_at_3008. cbn [sitScore riseScore totalScore].
  assert (E : round2 (Rclamp 2 10 (150 / 100 + 150 / 100)) = 300 / 100).
  { rewrite Rclamp_inside by lra. apply round2_eq. lra. }
  rewrite E.
  repeat match goal with |- _ /\ _ => split end; try reflexivity.
  intros H. injection H as H. lra.
Qed.

(** ** Support penalties and the detected phases *)

Lemma mapE_map {A B C : Type} (f : B -> result C) (g : A -> B) (h : A -> C)
  (l : list A) :
  (forall a, In a l -> f (g a) = inr (h a)) ->
  mapE f (map g l) = inr (map h l).
Proof.
  induction l as [| a l IH]; intros H; simpl.
  - reflexivity.
  - rewrite (H a) by now left. simpl.
    rewrite IH by (intros; apply H; now right). reflexivity.
Qed.

Lemma lateHandRun_nth (k : nat) :
  nth_error lateHandRun k
  = if (k <? 30)%nat then Some (Some (lateHandFrame k)) else None.
Proof.
  unfold lateHandRun. rewrite nth_error_map, nth_error_seq.
  destruct (k <? 30)%nat; reflexivity.
Qed.

Lemma lateHandRun_hipConfident (k : nat) :
  hipConfidentAt lateHandRun k = ((16 <=? k) && (k <=? 18))%nat.
Proof.
  unfold hipConfidentAt. rewrite lateHandRun_nth.
  destruct (Nat.ltb_spec k 30) as [Hk | Hk].
  - cbn [lateHandFrame findKeypoint keypoints find point kp_name String.eqb
         Ascii.eqb Bool.eqb confident kp_score JS.gt JS.lt
         KEYPOINT_CONFIDENCE_THRESHOLD].
    unfold KEYPOINT_CONFIDENCE_THRESHOLD. cbn [JS.lt].
    destruct ((16 <=? k) && (k <=? 18))%nat;
      [apply Rltb_true; lra | apply Rltb_false; lra].
  - symmetry. apply andb_false_iff. right. apply Nat.leb_gt. lia.
Qed.

Lemma lateHandRun_triple (j : nat) :
  tripleConfident lateHandRun j = true <-> j = 17%nat.
Proof.
  unfold tripleConfident. rewrite !lateHandRun_hipConfident. split.
  - intros H. apply andb_prop in H. destruct H as [H H3].
    apply andb_prop in H. destruct H as [H1 H2].
    apply andb_prop in H1, H2, H3.
    destruct H1 as [H1 _], H3 as [_ H3], H2 as [H2 H2'].
    apply Nat.leb_le in H1, H2, H2', H3. lia.
  - intros ->. reflexivity.
Qed.

Lemma lateHandRun_hipY (k : nat) :
  (k < 30)%nat -> hipY lateHandRun k = Fin (if (k =? 18)%nat then 300 else 200).
Proof.
  intros Hk. unfold hipY. rewrite lateHandRun_nth.
  destruct (Nat.ltb_spec k 30); [reflexivity | lia].
Qed.

Lemma lateHandRun_detected : allDetected lateHandRun.
Proof.
  apply allDetected_In. unfold lateHandRun. intros H.
  apply in_map_iff in H. destruct H as (i & E & _). discriminate.
Qed.

Lemma lateHandRun_transition : detectPhaseTransition lateHandRun = inr 17%nat.
Proof.
  assert (Hlen : List.length lateHandRun = 30%nat) by reflexivity.
  destruct (phase_slices_detected lateHandRun) as [t Ht];
    [rewrite Hlen; lia | apply lateHandRun_detected |].
  unfold detectPhaseTransition in *.
  destruct (scanHips lateHandRun) as [e | st] eqn:Hscan; [discriminate |].
  destruct (scanHips_invariant lateHandRun st lateHandRun_detected
              ltac:(rewrite Hlen; lia) Hscan) as [Hmove Hlow].
  rewrite Hlen in Hmove, Hlow.
  assert (H17 : tripleConfident lateHandRun 17 = true) by now apply lateHandRun_triple.
  assert (Hm : transitionFrame st = 17%nat).
  { destruct Hmove as [(_ & _ & Hnone) | (_ & (_ & Hc & _))].
    - specialize (Hnone 17%nat ltac:(lia) H17).
      unfold movementAt in Hnone.
      rewrite !lateHandRun_hipY in Hnone by lia.
      cbn [Nat.add Nat.sub Nat.eqb JS.sub JS.neg JS.add JS.abs JS.gt JS.lt] in Hnone.
      rewrite Rabs_pos_eq, Rltb_true in Hnone by lra. discriminate.
    - now apply lateHandRun_triple. }
  assert (Hl : lowestHipFrame st = 17%nat).
  { destruct Hlow as [(_ & _ & Hnone) | (_ & (_ & Hc & _))].
    - specialize (Hnone 17%nat ltac:(lia) H17).
      rewrite lateHandRun_hipY in Hnone by lia. discriminate.
    - now apply lateHandRun_triple. }
  simpl. rewrite Hm, Hl. reflexivity.
Qed.

Lemma lateHandFrame_ground : groundLevelIs (lateHandFrame 16) 400.
Proof.
  split.
  - exists (point "right_wrist" 150 400 (9 / 10)).
    split; [simpl; tauto |]. split; [apply Rltb_true; lra | reflexivity].
  - intros kp [<- | [<- | []]] _; eexists; (split; [reflexivity | simpl; lra]).
Qed.

Lemma lateHandRun_supports :
  mapE detectSupportPoints lateHandRun = inr lateHandSupports.
Proof.
  unfold lateHandRun, lateHandSupports. apply mapE_map. intros i _.
  destruct (Nat.eqb_spec i 16) as [-> | Hi].
  - unfold detectSupportPoints. cbn [deref bind ret].
    rewrite (groundLevel_finite (lateHandFrame 16) 400 lateHandFrame_ground).
    cbn [lateHandFrame height JS.mul JS.sub JS.neg JS.add existsb findKeypoint
         keypoints find point kp_name String.eqb Ascii.eqb Bool.eqb Nat.eqb
         confident Y kp_score kp_y andb orb].
    unfold KEYPOINT_CONFIDENCE_THRESHOLD. cbn [JS.gt JS.lt].
    rewrite !Rltb_true by lra. reflexivity.
  - unfold detectSupportPoints, lateHandFrame. cbn [deref bind ret].
    destruct (i =? 16)%nat eqn:E; [apply Nat.eqb_eq in E; contradiction |].
    reflexivity.
Qed.

(** C10, the claim as written fails.  In a run of 30 detections whose
    transition is detected at frame 17, the sitting phase is frames 0 to
    16 and the rising phase frames 17 to 29.  A hand support in frame 16
    lies in the sitting phase, and no frame of the rising phase shows
    one; yet the sitting penalty is 0 and the rising penalty is 1: the
    penalties are taken over frames 0 to 14 and 15 to 29, the two halves
    of the run, not over the frames of the phases. *)
Lemma penalty_halves_are_not_the_phases :
  detectPhaseTransition lateHandRun = inr 17%nat
  /\ mapE detectSupportPoints lateHandRun = inr lateHandSupports
  /\ sittingSlice lateHandRun 17 = firstn 17 lateHandRun
  /\ risingSlice lateHandRun 17 = skipn 17 lateHandRun
  /\ nth_error (sittingSlice lateHandSupports 17) 16 = Some [HAND]
  /\ showsSupport HAND (sittingSlice lateHandSupports 17) = true
  /\ showsSupport HAND (risingSlice lateHandSupports 17) = false
  /\ calculatePhasePenalty (sittingSlice lateHandSupports 17) = Fin 1
  /\ calculatePhasePenalty (risingSlice lateHandSupports 17) = Fin 0
  /\ calculateSupportPenalty lateHandSupports
     = {| sitting := Fin 0; rising := Fin 1 |}.
Proof.
  assert (Hsit : forall (A : Type) (l : list A),
             List.length l = 30%nat -> sittingSlice l 17 = firstn 17 l).
  { intros A l Hl. unfold sittingSlice, minFramesPerPhase. now rewrite slice_0. }
  assert (Hrise : forall (A : Type) (l : list A),
             List.length l = 30%nat -> risingSlice l 17 = skipn 17 l).
  { intros A l Hl. unfold risingSlice, minFramesPerPhase. rewrite Hl.
    change (Z.min (Z.of_nat 30 - Z.of_nat 10) (Z.of_nat 17)) with (Z.of_nat 17).
    apply sliceFrom_suffix. lia. }
  assert (Hpen : forall b1 b2 : bool,
             Fin ((if b1 then 1 else 0) + (if b2 then 1 / 2 else 0))
             = Fin (if b1 then (if b2 then 3 / 2 else 1)
                    else (if b2 then 1 / 2 else 0))).
  { intros [|] [|]; f_equal; lra. }
  split; [apply lateHandRun_transition |].
  split; [apply lateHandRun_supports |].
  split; [apply Hsit; reflexivity |].
  split; [apply Hrise; reflexivity |].
  rewrite (Hsit _ lateHandSupports eq_refl), (Hrise _ lateHandSupports eq_refl).
  rewrite calculateSupportPenalty_halves, !calculatePhasePenalty_closed, !Hpen.
  repeat match goal with |- _ /\ _ => split end; reflexivity.
Qed.
